(** * xfm_tck: artifact naming, scoped workspaces, process invocation and
    stage sequencing of the structural-connectome pipeline.

    The development embeds the Python sources shallowly:
    - [PyStr], [OsPath]: Python [str] operations and the [os.path] functions
      the sources call (POSIX flavour);
    - [FileIO]: [xfm_tck/utils/fileio.py] ([File], [NiiFile]);
    - [Sys]: the process-wide state the code acts on (file system, environment,
      log sink, random source, record of external effects) and the
      state-and-exception monad the stateful code runs in;
    - [WorkDirs]: [xfm_tck/utils/workdir.py] and [tempdir.py];
    - [Cmd]: [xfm_tck/utils/command.py];
    - [Pipeline]: [xfm_tck.py]. *)

From Stdlib Require Import Ascii ZArith Lia.
From stdpp Require Import gmap strings list fin_maps pretty.

Set Default Proof Using "Type".

(** ** Python strings *)

(** A Python [str] is a list of characters.  String literals are written
    between double quotes in scope [py]. *)
Definition str := list ascii.

Inductive str_literal := LitNil | LitCons (c : ascii) (r : str_literal).

Fixpoint literal_of_bytes (l : list Byte.byte) : str_literal :=
  match l with
  | [] => LitNil
  | b :: r => LitCons (ascii_of_byte b) (literal_of_bytes r)
  end.

Fixpoint bytes_of_literal (l : str_literal) : list Byte.byte :=
  match l with
  | LitNil => []
  | LitCons c r => byte_of_ascii c :: bytes_of_literal r
  end.

Declare Scope py_scope.
Delimit Scope py_scope with py.
#[warnings="-via-type-remapping,-via-type-mismatch"]
String Notation str literal_of_bytes bytes_of_literal
  (via str_literal mapping [[nil] => LitNil, [cons] => LitCons]) : py_scope.

Module PyStr.

Definition slash : ascii := "/"%char.
Definition dot : ascii := "."%char.

(** [bool(s)]: a string is truthy when it is not empty. *)
Definition truthy (s : str) : bool :=
  match s with [] => false | _ :: _ => true end.

(** [s.endswith(suf)] and [s.startswith(pre)]. *)
Definition endswith (s suf : str) : bool := bool_decide (suf `suffix_of` s).
Definition startswith (s pre : str) : bool := bool_decide (pre `prefix_of` s).

(** [sub in s]. *)
Fixpoint contains (s sub : str) : bool :=
  match s with
  | [] => bool_decide (sub = [])
  | _ :: r => bool_decide (sub `prefix_of` s) || contains r sub
  end.

(** [s[-n:]] and [s[:-n]] for a non-negative [n].  Python reads [-0] as
    [0], so [s[-0:]] is [s] and [s[:-0]] is empty. *)
Definition last_chars (n : nat) (s : str) : str :=
  match n with
  | O => s
  | _ => drop (length s - n) s
  end.

Definition drop_last (n : nat) (s : str) : str :=
  match n with
  | O => []
  | _ => take (length s - n) s
  end.

(** [s.split(sep)] for a one-character separator. *)
Fixpoint split_on (sep : ascii) (s : str) : list str :=
  match s with
  | [] => [[]]
  | c :: r =>
      if decide (c = sep) then [] :: split_on sep r
      else match split_on sep r with
           | h :: t => (c :: h) :: t
           | [] => [[c]]
           end
  end.

(** [sep.join(parts)]. *)
Fixpoint join_with (sep : str) (parts : list str) : str :=
  match parts with
  | [] => []
  | [p] => p
  | p :: rest => p ++ sep ++ join_with sep rest
  end.

(** [s.lstrip(c)] and [s.rstrip(c)] for one character [c]. *)
Fixpoint lstrip (c : ascii) (s : str) : str :=
  match s with
  | [] => []
  | x :: r => if decide (x = c) then lstrip c r else s
  end.

Definition rstrip (c : ascii) (s : str) : str :=
  reverse (lstrip c (reverse s)).

(** Cut [s] after its last occurrence of [c]: the first part runs up to and
    including that occurrence ([s[:s.rfind(c)+1]]), the second is what
    follows it ([s[s.rfind(c)+1:]]).  Without an occurrence the first part
    is empty. *)
Fixpoint cut_last (c : ascii) (s : str) : str * str :=
  match s with
  | [] => ([], [])
  | x :: r =>
      let '(h, t) := cut_last c r in
      if decide (x = c) then (x :: h, t)
      else match h with
           | [] => ([], x :: t)
           | _ :: _ => (x :: h, t)
           end
  end.

(** [str(n)] for an integer. *)
Definition of_Z (n : Z) : str := String.list_ascii_of_string (pretty n).

End PyStr.

(** ** [os.path] (posixpath) *)

Module OsPath.
Import PyStr.

Definition isabs (p : str) : bool := startswith p "/"%py.

(** [os.path.join(a, b)]. *)
Definition join (a b : str) : str :=
  if startswith b "/"%py then b
  else if negb (truthy a) || endswith a "/"%py then a ++ b
  else a ++ "/"%py ++ b.

(** [os.path.split(p)]. *)
Definition split (p : str) : str * str :=
  let '(head, tail) := cut_last slash p in
  if truthy head && negb (bool_decide (head = replicate (length head) slash))
  then (rstrip slash head, tail)
  else (head, tail).

Definition dirname (p : str) : str := fst (split p).
Definition basename (p : str) : str := snd (split p).

(** [os.path.splitext(p)]: the extension starts at the last dot of the last
    component, unless only dots precede it there. *)
Definition splitext (p : str) : str * str :=
  let '(head, base) := cut_last slash p in
  let '(upto_dot, after_dot) := cut_last dot base in
  match upto_dot with
  | [] => (p, [])
  | _ :: _ =>
      let root := take (length upto_dot - 1) upto_dot in
      if forallb (fun c => bool_decide (c = dot)) root then (p, [])
      else (head ++ root, dot :: after_dot)
  end.

(** One turn of the loop of [normpath] over the components. *)
Definition normpath_step (initial_slashes : nat) (new_comps : list str)
    (comp : str) : list str :=
  if bool_decide (comp = []) || bool_decide (comp = "."%py) then new_comps
  else if negb (bool_decide (comp = ".."%py))
          || (bool_decide (initial_slashes = 0%nat) && bool_decide (new_comps = []))
          || (negb (bool_decide (new_comps = []))
              && bool_decide (last new_comps = Some ".."%py))
  then new_comps ++ [comp]
  else match new_comps with
       | [] => new_comps
       | _ :: _ => take (length new_comps - 1) new_comps
       end.

(** [os.path.normpath(path)]. *)
Definition normpath (path : str) : str :=
  match path with
  | [] => "."%py
  | _ :: _ =>
      let initial_slashes : nat :=
        if startswith path "/"%py then
          if startswith path "//"%py && negb (startswith path "///"%py)
          then 2 else 1
        else 0 in
      let comps := split_on slash path in
      let new_comps := foldl (normpath_step initial_slashes) [] comps in
      let path' := replicate initial_slashes slash ++ join_with "/"%py new_comps in
      match path' with
      | [] => "."%py
      | _ :: _ => path'
      end
  end.

(** [os.path.abspath(path)], with the working directory [cwd] of the
    process ([os.getcwd()]). *)
Definition abspath (cwd path : str) : str :=
  if isabs path then normpath path else normpath (join cwd path).

End OsPath.

(** ** Process-wide state and the monad of the stateful code *)

Module Sys.
Import PyStr.

(** An entry of the file system: a directory or a regular file. *)
Inductive node : Type :=
| Dir
| Reg (content : str).

(** The exceptions the embedded code can raise. *)
Inductive exn : Type :=
| AssertionError (msg : str)
| RuntimeError (msg : str)
| DependencyError (msg : str)
| InvalidNiftiFileError (msg : str)
| ValueError (msg : str)
| NameError (name : str)
| IndexError (msg : str)
| AttributeError (msg : str)
| FileNotFoundError (path : str)
| FileExistsError (path : str)
| NotADirectoryError (path : str)
| IsADirectoryError (path : str).

(** [enums.py], [LogLevel]. *)
Inductive LogLevel : Type := info | debug | critical | error | warning.

(** External effects, recorded in the order they happen. *)
Inductive event : Type :=
| Invoked (argv : list str) (returncode : Z)
| Removed (path : str)
| RemovedTree (path : str)
| MadeDirs (path : str)
| Copied (src dst : str).

#[global] Instance node_eq_dec : EqDecision node.
Proof. solve_decision. Defined.
#[global] Instance exn_eq_dec : EqDecision exn.
Proof. solve_decision. Defined.
#[global] Instance LogLevel_eq_dec : EqDecision LogLevel.
Proof. solve_decision. Defined.
#[global] Instance event_eq_dec : EqDecision event.
Proof. solve_decision. Defined.

(** What the embedding does not fix: the behaviour of the external
    executables, the random source, and the library functions whose result
    depends on the installation. *)
Record Host : Type := {
  (** [subprocess.Popen(argv, shell, env)] followed by [communicate()]:
      exit status, captured stdout and stderr, and the file system the
      child leaves behind. *)
  popen : list str -> bool -> gmap str str -> gmap str node ->
          Z * str * str * gmap str node;
  (** the [i]-th number drawn from [random] *)
  random_draw : nat -> Z;
  (** [shlex.split(s, comments=False, posix=True)]; [None] is its
      [ValueError] *)
  shlex_split : str -> option (list str);
  (** [shutil.which(name)] finds the executable *)
  which : str -> bool;
  (** [nibabel.load(path)] succeeds *)
  nifti_loads : str -> bool
}.

#[projections(primitive)]
Record World : Type := {
  host : Host;
  fs : gmap str node;
  cwd : str;
  environ : gmap str str;           (* os.environ *)
  log : list (LogLevel * str);      (* calls made on the log sink *)
  trace : list event;
  draws : nat                       (* numbers drawn from random so far *)
}.

Definition with_fs (f : gmap str node) (w : World) : World :=
  {| host := host w; fs := f; cwd := cwd w; environ := environ w;
     log := log w; trace := trace w; draws := draws w |}.
Definition with_environ (e : gmap str str) (w : World) : World :=
  {| host := host w; fs := fs w; cwd := cwd w; environ := e;
     log := log w; trace := trace w; draws := draws w |}.
Definition with_log (l : list (LogLevel * str)) (w : World) : World :=
  {| host := host w; fs := fs w; cwd := cwd w; environ := environ w;
     log := l; trace := trace w; draws := draws w |}.
Definition with_trace (t : list event) (w : World) : World :=
  {| host := host w; fs := fs w; cwd := cwd w; environ := environ w;
     log := log w; trace := t; draws := draws w |}.
Definition with_draws (n : nat) (w : World) : World :=
  {| host := host w; fs := fs w; cwd := cwd w; environ := environ w;
     log := log w; trace := trace w; draws := n |}.

(** A computation either raises or returns; the state it reached is kept
    in both cases. *)
Definition M (A : Type) : Type := World -> (exn + A) * World.

#[global] Instance M_ret : MRet M := fun A (a : A) w => (inr a, w).
#[global] Instance M_bind : MBind M := fun A B (f : A -> M B) (m : M A) w =>
  match m w with
  | (inr a, w') => f a w'
  | (inl e, w') => (inl e, w')
  end.

Definition raise {A : Type} (e : exn) : M A := fun w => (inl e, w).
Definition gets {A : Type} (f : World -> A) : M A := fun w => (inr (f w), w).
Definition modify (f : World -> World) : M unit := fun w => (inr tt, f w).

(** [try: m  except E: handler], where [handler e] is [None] for the
    exceptions the clause does not catch. *)
Definition try_except {A : Type} (m : M A) (handler : exn -> option (M A)) : M A :=
  fun w =>
    match m w with
    | (inr a, w') => (inr a, w')
    | (inl e, w') =>
        match handler e with
        | Some h => h w'
        | None => (inl e, w')
        end
    end.

(** [for x in xs: body x]. *)
Fixpoint for_each {A : Type} (xs : list A) (body : A -> M unit) : M unit :=
  match xs with
  | [] => mret tt
  | x :: rest => body x ;; for_each rest body
  end.

Definition when (b : bool) (m : M unit) : M unit := if b then m else mret tt.

Definition emit (ev : event) : M unit :=
  modify (fun w => with_trace (trace w ++ [ev]) w).

(** *** The file system *)

(** Entries are keyed by their absolute, normalised path. *)
Definition key (w : World) (p : str) : str := OsPath.abspath (cwd w) p.

(** [k] is [p] or lies below it. *)
Definition under (p k : str) : Prop :=
  k = p \/ (if endswith p "/"%py then p else p ++ "/"%py) `prefix_of` k.

#[global] Instance under_dec p k : Decision (under p k).
Proof. unfold under. apply _. Defined.

Definition os_path_exists (p : str) : M bool :=
  gets (fun w => bool_decide (is_Some (fs w !! key w p))).
Definition os_path_isdir (p : str) : M bool :=
  gets (fun w => bool_decide (fs w !! key w p = Some Dir)).
Definition os_getcwd : M str := gets cwd.

(** The directories above [p], nearest first. *)
Fixpoint ancestors (fuel : nat) (p : str) : list str :=
  match fuel with
  | O => []
  | S n =>
      let d := OsPath.dirname p in
      if bool_decide (d = p) || negb (truthy d) then [] else d :: ancestors n d
  end.

Definition add_dir (f : gmap str node) (p : str) : gmap str node :=
  match f !! p with
  | None => <[p := Dir]> f
  | Some _ => f
  end.

(** [os.makedirs(p)]. *)
Definition os_makedirs (p : str) : M unit :=
  k ← gets (fun w => key w p);
  present ← os_path_exists p;
  if present : bool then raise (FileExistsError p)
  else
    modify (fun w => with_fs (foldl add_dir (fs w) (k :: ancestors (length k) k)) w) ;;
    emit (MadeDirs k).

(** [shutil.rmtree(p, ignore_errors)]: removes the directory [p] and what
    is below it.  On a missing path or a regular file it raises, unless
    [ignore_errors] is set. *)
Definition shutil_rmtree (p : str) (ignore_errors : bool) : M unit :=
  k ← gets (fun w => key w p);
  entry ← gets (fun w => fs w !! k);
  match entry with
  | Some Dir =>
      modify (fun w => with_fs (filter (fun kv => ~ under k kv.1) (fs w)) w) ;;
      emit (RemovedTree k)
  | Some (Reg _) => if ignore_errors then mret tt else raise (NotADirectoryError p)
  | None => if ignore_errors then mret tt else raise (FileNotFoundError p)
  end.

(** [os.remove(p)]. *)
Definition os_remove (p : str) : M unit :=
  k ← gets (fun w => key w p);
  entry ← gets (fun w => fs w !! k);
  match entry with
  | Some (Reg _) => modify (fun w => with_fs (delete k (fs w)) w) ;; emit (Removed k)
  | Some Dir => raise (IsADirectoryError p)
  | None => raise (FileNotFoundError p)
  end.

(** [shutil.copy(src, dst)] of a regular file; into [dst] when that is a
    directory.  Returns the path written. *)
Definition shutil_copy (src dst : str) : M str :=
  ks ← gets (fun w => key w src);
  entry ← gets (fun w => fs w !! ks);
  match entry with
  | Some (Reg c) =>
      dst_is_dir ← os_path_isdir dst;
      let target := if dst_is_dir : bool then OsPath.join dst (OsPath.basename src) else dst in
      kd ← gets (fun w => key w target);
      modify (fun w => with_fs (<[kd := Reg c]> (fs w)) w) ;;
      emit (Copied ks kd) ;;
      mret target
  | Some Dir => raise (IsADirectoryError src)
  | None => raise (FileNotFoundError src)
  end.

(** [open(p, "a").write(txt)]: the file is created when it is missing.
    Opening never fails in this file system (it has no permissions and does
    not ask for the parent directory); an entry that is a directory is left
    as it is. *)
Definition append_text (p txt : str) : M unit :=
  k ← gets (fun w => key w p);
  modify (fun w =>
    match fs w !! k with
    | Some Dir => w
    | Some (Reg c) => with_fs (<[k := Reg (c ++ txt)]> (fs w)) w
    | None => with_fs (<[k := Reg txt]> (fs w)) w
    end).

(** [os.chdir(p)]. *)
Definition os_chdir (p : str) : M unit :=
  k ← gets (fun w => key w p);
  entry ← gets (fun w => fs w !! k);
  match entry with
  | Some Dir =>
      modify (fun w => {| host := host w; fs := fs w; cwd := k; environ := environ w;
                          log := log w; trace := trace w; draws := draws w |})
  | Some (Reg _) => raise (NotADirectoryError p)
  | None => raise (FileNotFoundError p)
  end.

(** [random.randint(lo, hi)]. *)
Definition random_randint (lo hi : Z) : M Z :=
  raw ← gets (fun w => random_draw (host w) (draws w));
  modify (fun w => with_draws (S (draws w)) w) ;;
  mret (lo + raw `mod` (hi - lo + 1))%Z.

(** A call [sink.level(msg)] on the log sink. *)
Definition log_call (lvl : LogLevel) (msg : str) : M unit :=
  modify (fun w => with_log (log w ++ [(lvl, msg)]) w).

End Sys.

(** ** [xfm_tck/utils/iobase.py] and [fileio.py] *)

Module FileIO.
Import PyStr Sys.

(** A [File] object: its path and its resolved extension ([__slots__]). *)
Record File : Type := { src : str; ext : str }.

#[global] Instance File_eq_dec : EqDecision File.
Proof. solve_decision. Defined.

(** The fields [File.__init__(src, ext)] stores. *)
Definition File_fields (src0 ext0 : str) : File :=
  {| src := src0;
     ext := if truthy ext0 then ext0
            else if endswith src0 ".gz"%py then last_chars 7 src0
            else snd (OsPath.splitext src0) |}.

(** [File.__init__(src, ext, assert_exists)]. *)
Definition File_init (src0 ext0 : str) (assert_exists : bool) : M File :=
  let f := File_fields src0 ext0 in
  (if assert_exists then
     present ← os_path_exists (src f);
     if present : bool then mret tt
     else raise (AssertionError ("Input file "%py ++ src f ++ " does not exist."%py))
   else mret tt) ;;
  mret f.

(** The fields [NiiFile.__init__(src)] stores. *)
Definition NiiFile_fields (src0 : str) : File :=
  let f := File_fields src0 [] in
  if endswith (src f) ".nii.gz"%py then {| src := src f; ext := ".nii.gz"%py |}
  else if endswith (src f) ".nii"%py then {| src := src f; ext := ".nii"%py |}
  else {| src := src f ++ ".nii.gz"%py; ext := ".nii.gz"%py |}.

(** [NiiFile.__init__(src, assert_exists, validate_nifti)]. *)
Definition NiiFile_init (src0 : str) (assert_exists validate_nifti : bool) : M File :=
  let f := NiiFile_fields src0 in
  (if assert_exists then
     present ← os_path_exists (src f);
     if present : bool then mret tt
     else raise (AssertionError ("Input NIFTI file "%py ++ src f ++ " does not exist."%py))
   else mret tt) ;;
  present ← os_path_exists (src f);
  (if validate_nifti && present then
     ok ← gets (fun w => nifti_loads (host w) (src f));
     if ok : bool then mret tt
     else raise (InvalidNiftiFileError
                   ("The NIFTI file "%py ++ src f ++ " is not a valid NIFTI file"%py))
   else mret tt) ;;
  mret f.

(** [IOBaseObj.abspath()] (symbolic links are not followed). *)
Definition abspath (f : File) : M str :=
  d ← os_getcwd; mret (OsPath.abspath d (src f)).

(** [File.rm_ext(ext)]. *)
Definition rm_ext (f : File) (ext0 : str) : str :=
  if truthy ext0 then drop_last (length ext0) (src f)
  else if truthy (ext f) then drop_last (length (ext f)) (src f)
  else drop_last 4 (src f).

(** [File.file_parts(ext)], in working directory [d]. *)
Definition file_parts_in (d : str) (f : File) (ext0 : str) : str * str * str :=
  let file := OsPath.abspath d (src f) in
  let '(path, filename0) := OsPath.split file in
  if truthy ext0 then
    (path, fst (OsPath.splitext (drop_last (length ext0) filename0)), ext0)
  else if truthy (ext f) then
    (path, fst (OsPath.splitext (drop_last (length (ext f)) filename0)), ext f)
  else
    let '(filename, e) := OsPath.splitext filename0 in (path, filename, e).

Definition file_parts (f : File) (ext0 : str) : M (str * str * str) :=
  d ← os_getcwd; mret (file_parts_in d f ext0).

(** The way the stages name a file next to [f]: the parts of [f], the suffix
    after the file name, the extension last (as in [DWIxfm.mask_dwi]). *)
Definition sibling_path (d : str) (f : File) (suffix : str) : str :=
  let '(path, filename, ext0) := file_parts_in d f [] in
  OsPath.join path ((filename ++ suffix) ++ ext0).

(** [File.write(txt)] and [File.remove()]. *)
Definition write (f : File) (txt : str) : M unit := append_text (src f) txt.
Definition remove (f : File) : M unit := p ← abspath f; os_remove p.

(** [IOBaseObj.__enter__] and [__exit__]: the latter never suppresses an
    exception. *)
Definition File_enter (f : File) : M File := mret f.
Definition File_exit (f : File) : M bool := mret false.

End FileIO.

(** ** [xfm_tck/utils/logutil.py] *)

Module LogUtil.
Import PyStr Sys FileIO.

(** [LogFile(log_file)] with the other arguments at their defaults: the file
    handler opens the file for appending at once. *)
Definition LogFile_init (log_file : str) : M File :=
  f ← File_init log_file [] false;
  append_text log_file [] ;;
  mret f.

Definition log_info (l : File) (msg : str) : M unit := log_call info msg.
Definition log_debug (l : File) (msg : str) : M unit := log_call debug msg.
Definition log_error (l : File) (msg : str) : M unit := log_call error msg.

End LogUtil.

(** ** [xfm_tck/utils/workdir.py] and [tempdir.py] *)

Module WorkDirs.
Import PyStr Sys FileIO.

Record WorkDir : Type := { wd_src : str; parent_dir : str }.

(** [WorkDir.__init__(src, use_cwd)]. *)
Definition WorkDir_init (src0 : str) (use_cwd : bool) : M WorkDir :=
  if use_cwd then
    d ← os_getcwd;
    let src1 := OsPath.join d src0 in
    mret {| wd_src := src1; parent_dir := OsPath.dirname src1 |}
  else mret {| wd_src := src0; parent_dir := OsPath.dirname src0 |}.

(** [WorkDir.exists()]. *)
Definition exists_ (t : WorkDir) : M bool :=
  d ← os_getcwd;
  let src1 := OsPath.abspath d (wd_src t) in
  isdir ← os_path_isdir src1;
  present ← os_path_exists src1;
  mret (isdir && present).

(** [WorkDir.mkdir()]. *)
Definition mkdir (t : WorkDir) : M unit :=
  present ← exists_ t;
  if negb present then os_makedirs (wd_src t) else mret tt.

(** [WorkDir.rmdir(rm_parent)]. *)
Definition rmdir (t : WorkDir) (rm_parent : bool) : M unit :=
  parent_present ← os_path_exists (parent_dir t);
  if rm_parent && parent_present then shutil_rmtree (parent_dir t) true
  else
    present ← os_path_exists (wd_src t);
    if present : bool then shutil_rmtree (wd_src t) true
    else mret tt.

(** [WorkDir.__enter__()]. *)
Definition WorkDir_enter (t : WorkDir) : M WorkDir :=
  present ← exists_ t;
  (if negb present then mkdir t else mret tt) ;;
  mret t.

(** [TmpDir.__init__(src, use_cwd)]. *)
Definition TmpDir_init (src0 : str) (use_cwd : bool) : M WorkDir :=
  n ← random_randint 0 10000;
  let src1 := OsPath.join src0 ("tmp_dir_"%py ++ of_Z n) in
  src2 ← (if use_cwd then d ← os_getcwd; mret (OsPath.join d src1) else mret src1);
  WorkDir_init src2 use_cwd.

(** [TmpDir.__exit__(exc_type, exc_val, traceback)]. *)
Definition TmpDir_exit (t : WorkDir) : M bool :=
  rmdir t false ;;
  mret false.

(** [TmpDir.TmpFile.__init__(tmp_dir, tmp_file, ext)]. *)
Definition TmpFile_init (tmp_dir tmp_file ext0 : str) : M File :=
  tmp_file1 ← (if truthy tmp_file then mret tmp_file
               else n ← random_randint 0 10000; mret ("tmp_file_"%py ++ of_Z n));
  let ext1 := if truthy ext0 then
                if contains ext0 "."%py then ext0 else "."%py ++ ext0
              else ext0 in
  let tmp_file2 := if truthy ext0 then tmp_file1 ++ ext1 else tmp_file1 in
  File_init (OsPath.join tmp_dir tmp_file2) ext1 false.

(** The statement [with mgr as v: body]: [enter] is [mgr.__enter__()],
    [exit] is [mgr.__exit__(...)], run when the body returns and when it
    raises; a true result of [exit] suppresses the exception of the body. *)
Definition leave_with (exit : M bool) (body : M unit) : M unit :=
  fun w =>
    match body w with
    | (inr _, w1) =>
        match exit w1 with
        | (inr _, w2) => (inr tt, w2)
        | (inl e, w2) => (inl e, w2)
        end
    | (inl e, w1) =>
        match exit w1 with
        | (inr suppress, w2) => if suppress : bool then (inr tt, w2) else (inl e, w2)
        | (inl e', w2) => (inl e', w2)
        end
    end.

Definition with_as {A : Type} (enter : M A) (exit : M bool) (body : A -> M unit) : M unit :=
  v ← enter; leave_with exit (body v).

End WorkDirs.

(** ** [xfm_tck/utils/util.py]: the code run when the module is loaded *)

Module Util.
Import PyStr Sys FileIO WorkDirs.

(** [with TmpDir(src=os.getcwd()) as tmpd:
       with TmpDir.TmpFile(tmp_dir=tmpd.src, ext='.log') as tmpf:
         log = LogFile(log_file=tmpf.src)] *)
Definition module_init : M unit :=
  d ← os_getcwd;
  t ← TmpDir_init d false;
  with_as (WorkDir_enter t) (TmpDir_exit t) (fun tmpd =>
    f ← TmpFile_init (wd_src tmpd) [] ".log"%py;
    with_as (File_enter f) (File_exit f) (fun tmpf =>
      LogUtil.LogFile_init (src tmpf) ;; mret tt)).

End Util.

(** ** [xfm_tck/utils/command.py] *)

Module Cmd.
Import PyStr Sys FileIO.

Record Command : Type := { command : str; env : option (gmap str str) }.

Definition newline : ascii := ascii_of_nat 10.
Definition tab : ascii := ascii_of_nat 9.

(** The message of the [RuntimeError] of [run], and the one logged. *)
Definition failed_msg (c : Command) (returncode : Z) : str :=
  "Failed:"%py ++ [tab] ++ command c ++ " with return code "%py ++ of_Z returncode.

(** [Command.check_dependency()]. *)
Definition check_dependency (c : Command) : M bool :=
  tmp ← gets (fun w => shlex_split (host w) (command c));
  match tmp with
  | None => raise (ValueError (command c))
  | Some [] => raise (IndexError "list index out of range"%py)
  | Some (cmd0 :: _) =>
      found ← gets (fun w => which (host w) cmd0);
      if found : bool then mret true
      else raise (DependencyError
                    ("Command executable not found in system path: "%py ++ cmd0))
  end.

(** The steps of [run], in the order of the source. *)

(** The command is recorded before anything is run, at debug or at
    informational severity. *)
Definition announce (c : Command) (log : option File) (debug : bool) : M unit :=
  match log with
  | Some l =>
      if debug then LogUtil.log_debug l ("Running:"%py ++ [tab] ++ command c)
      else LogUtil.log_info l ("Running:"%py ++ [tab] ++ command c)
  | None => mret tt
  end.

(** [merged_env = os.environ; if self.env is not None:
    merged_env.update(self.env)]: [merged_env] is the mapping of the process
    itself, and [update] lets the new bindings win. *)
Definition merge_env (c : Command) : M unit :=
  match env c with
  | Some e => modify (fun w => with_environ (e ∪ environ w) w)
  | None => mret tt
  end.

(** [p = subprocess.Popen(cmd, shell=shell, env=merged_env, ...)] and
    [p.communicate()]. *)
Definition spawn (cmd : list str) (shell : bool) : M (Z * str * str) :=
  '(returncode, out, err, fs') ←
    gets (fun w => popen (host w) cmd shell (environ w) (fs w));
  modify (with_fs fs') ;;
  emit (Invoked cmd returncode) ;;
  mret (returncode, out, err).

(** The captured streams are written to [stdout] and to the file next to it
    with extension [.err], when [stdout] is given. *)
Definition capture (stdout : option str) (out err : str) : M (option str * option str) :=
  match stdout with
  | Some so =>
      let se := fst (OsPath.splitext so) ++ ".err"%py in
      write (File_fields so []) out ;;
      write (File_fields se []) err ;;
      so' ← abspath (File_fields so []);
      se' ← abspath (File_fields se []);
      mret (Some so', Some se')
  | None => mret (None, None)
  end.

(** [if p.returncode != 0: if log: log.error(...); if raise_exc: raise
    RuntimeError(...)]. *)
Definition check_status (c : Command) (log : option File) (raise_exc : bool)
    (returncode : Z) : M unit :=
  if bool_decide (returncode ≠ 0%Z) then
    match log with
    | Some l => LogUtil.log_error l (failed_msg c returncode)
    | None => mret tt
    end ;;
    if raise_exc
    then raise (RuntimeError ([newline] ++ failed_msg c returncode ++ [newline]))
    else mret tt
  else mret tt.

(** What [run] does once the command line [cmd] is split: from the logging
    of the command on. *)
Definition run_argv (c : Command) (cmd : list str) (log : option File)
    (debug dryrun : bool) (stdout : option str) (shell raise_exc : bool)
  : M (Z * option str * option str) :=
  announce c log debug ;;
  match log, dryrun with
  | Some l, true =>
      LogUtil.log_info l "Performing command as a dry run."%py ;;
      mret (0%Z, None, None)
  | _, _ =>
      merge_env c ;;
      '(returncode, out, err) ← spawn cmd shell;
      '(stdout', stderr') ← capture stdout out err;
      check_status c log raise_exc returncode ;;
      mret (returncode, stdout', stderr')
  end.

(** [Command.run(log, debug, dryrun, stdout, shell, raise_exc)].  A log
    given as a path is turned into a [LogFile] first. *)
Definition run (c : Command) (log : option (str + File))
    (debug dryrun : bool) (stdout : option str) (shell raise_exc : bool)
  : M (Z * option str * option str) :=
  cmd ← gets (fun w => shlex_split (host w) (command c));
  match cmd with
  | None => raise (ValueError (command c))
  | Some cmd =>
      log' ← match log with
             | Some (inl path) => l ← LogUtil.LogFile_init path; mret (Some l)
             | Some (inr l) => mret (Some l)
             | None => mret None
             end;
      run_argv c cmd log' debug dryrun stdout shell raise_exc
  end.

End Cmd.

(** ** [xfm_tck.py]: the pipeline *)

Module Pipeline.
Import PyStr Sys FileIO WorkDirs.

(** A float-valued parameter, known by the text an f-string gives it. *)
Record PyFloat : Type := { float_str : str }.

(** A numeric parameter that is formatted and also truncated with [int()]. *)
Record PyNum : Type := { num_str : str; num_int : Z }.

(** Modelled from the spec: the script imports [File], [Command], [NiiFile],
    [LogFile] and [TmpDir] from a top-level module [utils] that is not among
    the sources.  Its [Command(name)] object holds the argument vector in
    [cmd_list], starting with the executable, and [run(log)] is the Process
    Invoker of section 4.3: the command is recorded at informational
    severity, run synchronously without a shell, and a non-zero exit status
    is recorded at error severity and raised.  That is [Command.run] of
    [utils/command.py] with its default arguments, applied to [cmd_list]. *)
Definition run_cmd_list (cmd_list : list str) (log : File) : M unit :=
  Cmd.run_argv {| Cmd.command := join_with " "%py cmd_list; Cmd.env := None |}
    cmd_list (Some log) false false None false true ;;
  mret tt.

(** Modelled from the spec: [check_dependency()] of the same [utils.Command],
    which fails with a [DependencyError] when the executable cannot be
    resolved on the search path (section 4.3, [checkAvailable]). *)
Definition check_dependency (name : str) : M unit :=
  found ← gets (fun w => which (host w) name);
  if found : bool then mret tt
  else raise (DependencyError
                ("Command executable not found in system path: "%py ++ name)).

(** Modelled from the spec: the [utils] objects name the path of a [File]
    [file] and that of a [TmpDir] [tmp_dir]; [abs_path], [mk_tmp_dir] and
    [rm_tmp_dir] are [abspath], [mkdir] and [rmdir] of [utils/iobase.py] and
    [utils/workdir.py], and [TmpFile(tmp_file, tmp_dir)] takes the file name
    first. *)
Definition TmpFile (tmp_file tmp_dir : str) : M File := TmpFile_init tmp_dir tmp_file [].

(** [LogFile(log)] when [log] is truthy and [LogFile("")] otherwise; a sink
    that is handed over as an object is used as it is. *)
Definition log_sink (log : option (str + File)) : M File :=
  match log with
  | Some (inl path) => LogUtil.LogFile_init path
  | Some (inr l) => mret l
  | None => LogUtil.LogFile_init []
  end.

(** *** class [ReconMRtrix] *)

Record ReconMRtrix : Type := {
  nii_file : File; bval : File; bvec : File; json_file : File; rlog : File
}.

(** [ReconMRtrix.__init__(nii_file, bval, bvec, json_file, log)]. *)
Definition ReconMRtrix_init (nii bval0 bvec0 : str) (json : option str)
    (log : option (str + File)) : M ReconMRtrix :=
  let j := match json with
           | Some j => if truthy j then File_fields j [] else File_fields [] []
           | None => File_fields [] []
           end in
  l ← log_sink (match log with
                | Some (inl path) => if truthy path then log else None
                | _ => log
                end);
  mret {| nii_file := NiiFile_fields nii; bval := File_fields bval0 [];
          bvec := File_fields bvec0 []; json_file := j; rlog := l |}.

(** [ReconMRtrix.Mif.__init__(file, gzip)]. *)
Definition Mif (file : str) (gzip : bool) : File :=
  if contains file ".gz"%py then
    File_fields (drop_last 7 file ++ (if gzip then ".mif.gz"%py else ".mif"%py))
                (last_chars 7 file)
  else
    File_fields (drop_last 4 file ++ (if gzip then ".mif.gz"%py else ".mif"%py))
                (last_chars 4 file).

(** [ReconMRtrix.nifti_to_mif(force, gzip)].  A [File] object is truthy, so
    the JSON import is always asked for. *)
Definition nifti_to_mif (self : ReconMRtrix) (force gzip : bool) : M File :=
  mif_path ← abspath (nii_file self);
  let mif_file := Mif mif_path gzip in
  run_cmd_list
    (["mrconvert"%py]
       ++ (if force then ["-force"%py] else [])
       ++ ["-json_import"%py; src (json_file self)]
       ++ ["-fslgrad"%py; src (bvec self); src (bval self);
           src (nii_file self); src mif_file])
    (rlog self) ;;
  mret mif_file.

(** [ReconMRtrix.estimate_response(mif, method, erode, fa_thresh, force)]. *)
Definition estimate_response (self : ReconMRtrix) (mif : File) (method : str)
    (force : bool) : M (File * File * File) :=
  '(path, filename, _) ← file_parts (nii_file self) [];
  let wm_res := File_fields (OsPath.join path (filename ++ "_response_wm.txt"%py)) [] in
  let gm_res := File_fields (OsPath.join path (filename ++ "_response_gm.txt"%py)) [] in
  let csf_res := File_fields (OsPath.join path (filename ++ "_response_csf.txt"%py)) [] in
  run_cmd_list
    (["dwi2response"%py]
       ++ (if force then ["-force"%py] else [])
       ++ [method; src mif; src wm_res; src gm_res; src csf_res])
    (rlog self) ;;
  mret (wm_res, gm_res, csf_res).

(** The arguments [mr_upsample] gives to [mrresize] and to [mrgrid]. *)
Definition mrresize_argv (input : str) (vox : PyFloat) (output : str)
    (interp : option str) : list str :=
  ["mrresize"%py; input; "-vox"%py; float_str vox; output]
    ++ match interp with
       | Some i => if truthy i then ["-interp"%py; i] else []
       | None => []
       end.

Definition mrgrid_argv (input : str) (vox : PyFloat) (output : str)
    (interp : option str) : list str :=
  ["mrgrid"%py; input; "regrid"%py; output; "-voxel"%py; float_str vox]
    ++ match interp with
       | Some i => if truthy i then ["-interp"%py; i] else []
       | None => []
       end.

(** [ReconMRtrix.mr_upsample(mif, vox, interp, gzip)].  When the name of the
    input holds neither [.mif] nor [.nii], the local [_ext] is unbound. *)
Definition mr_upsample (self : ReconMRtrix) (mif : File) (vox : PyFloat)
    (interp : option str) (gzip : bool) : M File :=
  '(gzip1, ext_in) ←
    (if contains (src mif) ".mif"%py then
       if contains (src mif) ".gz"%py then mret (true, ".mif.gz"%py)
       else mret (gzip, ".mif"%py)
     else if contains (src mif) ".nii"%py then
       if contains (src mif) ".gz"%py then mret (true, ".nii.gz"%py)
       else mret (gzip, ".nii"%py)
     else raise (NameError "_ext"%py));
  '(path, filename, _) ← file_parts mif ext_in;
  let upsampled_mif :=
    Mif (OsPath.join path ((filename ++ "_upsampled"%py) ++ ".mif"%py)) gzip1 in
  try_except
    (check_dependency "mrresize"%py ;;
     run_cmd_list (mrresize_argv (src mif) vox (src upsampled_mif) interp) (rlog self) ;;
     mret upsampled_mif)
    (fun e =>
       match e with
       | DependencyError _ =>
           Some (check_dependency "mrgrid"%py ;;
                 run_cmd_list (mrgrid_argv (src mif) vox (src upsampled_mif) interp)
                              (rlog self) ;;
                 mret upsampled_mif)
       | _ => None
       end).

(** [ReconMRtrix.create_mask(mif, frac_int, gzip, cleanup)]. *)
Definition create_mask (self : ReconMRtrix) (mif : File) (frac_int : PyFloat)
    (gzip cleanup : bool) : M (File * File * File) :=
  '(path, _, ext_nii) ← file_parts (nii_file self) [];
  '(_, filename, ext0) ← file_parts mif [];
  let gzip1 := if contains (src mif) ".gz"%py then true else gzip in
  let file_head := filename ++ "_head"%py in
  let filename1 := filename ++ "_brain"%py in
  let file_mask := filename1 ++ "_mask"%py in
  let brain_mif := Mif (OsPath.join path (filename1 ++ ext0)) gzip1 in
  let mask_mif := Mif (OsPath.join path (file_mask ++ ext0)) gzip1 in
  let head_mif := Mif (OsPath.join path (file_head ++ ext0)) gzip1 in
  work_dir ← TmpDir_init path false;
  mkdir work_dir ;;
  tmp_b0s ← TmpFile ("tmp_B0s"%py ++ ext_nii) (wd_src work_dir);
  tmp_b0 ← TmpFile ("tmp_B0"%py ++ ext_nii) (wd_src work_dir);
  tmp_mask ← TmpFile (rm_ext tmp_b0 ext_nii ++ "_brain"%py ++ ext_nii) (wd_src work_dir);
  run_cmd_list ["dwiextract"%py; "-bzero"%py; src mif; src tmp_b0s] (rlog self) ;;
  run_cmd_list ["fslmaths"%py; src tmp_b0s; "-Tmean"%py; src tmp_b0] (rlog self) ;;
  run_cmd_list ["bet"%py; src tmp_b0; src tmp_mask; "-R"%py; "-m"%py; "-f"%py;
                float_str frac_int] (rlog self) ;;
  run_cmd_list ["mrconvert"%py; rm_ext tmp_mask ext_nii ++ "_mask.nii.gz"%py;
                src mask_mif] (rlog self) ;;
  run_cmd_list ["mrconvert"%py; src tmp_mask; src brain_mif] (rlog self) ;;
  run_cmd_list ["mrconvert"%py; src tmp_b0; src head_mif] (rlog self) ;;
  when cleanup (rmdir work_dir false) ;;
  mret (mask_mif, brain_mif, head_mif).

(** [ReconMRtrix.ss3t_csd(mif, mask, wm_res, gm_res, csf_res, gzip)]. *)
Definition ss3t_csd (self : ReconMRtrix) (mif mask wm_res gm_res csf_res : File)
    (gzip : bool) : M (File * File * File) :=
  '(path, _, _) ← file_parts (nii_file self) [];
  '(_, filename, ext0) ← file_parts mif [];
  let gzip1 := if contains (src mif) ".gz"%py then true else gzip in
  let wm_fod := Mif (OsPath.join path ((filename ++ "_wm_fod"%py) ++ ext0)) gzip1 in
  let gm_tis := Mif (OsPath.join path ((filename ++ "_gm_tis"%py) ++ ext0)) gzip1 in
  let csf_tis := Mif (OsPath.join path ((filename ++ "_csf_tis"%py) ++ ext0)) gzip1 in
  run_cmd_list ["ss3t_csd_beta1"%py; src mif; src wm_res; src wm_fod; src gm_res;
                src gm_tis; src csf_res; src csf_tis; "-mask"%py; src mask]
               (rlog self) ;;
  mret (wm_fod, gm_tis, csf_tis).

(** [ReconMRtrix.bias_field_correction(wm_fod, gm_tis, csf_tis, mask, gzip)]. *)
Definition bias_field_correction (self : ReconMRtrix) (wm_fod gm_tis csf_tis mask : File)
    (gzip : bool) : M (File * File * File) :=
  '(path, filename, _) ← file_parts (nii_file self) [];
  let '(gzip1, ext0) := if contains (src wm_fod) ".gz"%py then (true, ".mif.gz"%py)
                        else (gzip, ".mif"%py) in
  let wm_fod_norm := Mif (OsPath.join path ((filename ++ "_wm_fod_norm"%py) ++ ext0)) gzip1 in
  let gm_tis_norm := Mif (OsPath.join path ((filename ++ "_gm_tis_norm"%py) ++ ext0)) gzip1 in
  let csf_tis_norm := Mif (OsPath.join path ((filename ++ "_csf_tis_norm"%py) ++ ext0)) gzip1 in
  run_cmd_list ["mtnormalise"%py; src wm_fod; src wm_fod_norm; src gm_tis;
                src gm_tis_norm; src csf_tis; src csf_tis_norm; "-mask"%py; src mask]
               (rlog self) ;;
  mret (wm_fod_norm, gm_tis_norm, csf_tis_norm).

(** [ReconMRtrix.compute_dec_map(wm_fod, gm_tis, csf_tis, mask, gzip)];
    [scripts_dir] is the directory of the script. *)
Definition compute_dec_map (scripts_dir : str) (self : ReconMRtrix)
    (wm_fod gm_tis csf_tis mask : File) (gzip : bool) : M (File * File) :=
  '(path, filename, _) ← file_parts (nii_file self) [];
  let '(gzip1, ext0) := if contains (src wm_fod) ".gz"%py then (true, ".mif.gz"%py)
                        else (gzip, ".mif"%py) in
  let dec := Mif (OsPath.join path (filename ++ "_dec"%py ++ ext0)) gzip1 in
  let vf := Mif (OsPath.join path (filename ++ "_vf"%py ++ ext0)) gzip1 in
  run_cmd_list ["fod2dec"%py; src wm_fod; src dec; "-mask"%py; src mask] (rlog self) ;;
  run_cmd_list [OsPath.join scripts_dir "dwi_extra.sh"%py; "--wm-fod"%py; src wm_fod;
                "--gm"%py; src gm_tis; "--csf"%py; src csf_tis; "--out-vf"%py; src vf]
               (rlog self) ;;
  mret (dec, vf).

(** [ReconMRtrix.mr_tck_global(wm_fod, mask, stream_lines, cutoff)]. *)
Definition mr_tck_global (self : ReconMRtrix) (wm_fod mask : File)
    (stream_lines : PyNum) (cutoff : PyFloat) : M File :=
  '(path, filename, _) ← file_parts (nii_file self) [];
  let tck := File_fields
               (OsPath.join path
                  ((filename ++ ("."%py ++ of_Z (num_int stream_lines) ++ ".streamlines"%py))
                     ++ ".tck"%py)) [] in
  run_cmd_list ["tckgen"%py; src wm_fod; src tck; "-seed_image"%py; src mask;
                "-select"%py; num_str stream_lines; "-cutoff"%py; float_str cutoff]
               (rlog self) ;;
  mret tck.

(** [ReconMRtrix.mr_tck_sift(tck, wm_fod, term, mask)]. *)
Definition mr_tck_sift (self : ReconMRtrix) (tck wm_fod : File) (term : option Z)
    (mask : option File) : M File :=
  '(path, filename, _) ← file_parts (nii_file self) [];
  let term_set := match term with Some t => bool_decide (t ≠ 0%Z) | None => false end in
  let tck_filt :=
    match term with
    | Some t =>
        if bool_decide (t ≠ 0%Z) then
          File_fields (OsPath.join path
                         ((filename ++ ("."%py ++ of_Z t ++ ".streamlines.filtered"%py))
                            ++ ".tck"%py)) []
        else File_fields (OsPath.join path
                            ((filename ++ ".streamlines.filtered"%py) ++ ".tck"%py)) []
    | None => File_fields (OsPath.join path
                             ((filename ++ ".streamlines.filtered"%py) ++ ".tck"%py)) []
    end in
  run_cmd_list
    (["tcksift"%py; src tck; src wm_fod; src tck_filt]
       ++ match mask with Some m => ["-proc_mask"%py; src m] | None => [] end
       ++ match term with
          | Some t => if bool_decide (t ≠ 0%Z) then ["-term_number"%py; of_Z t] else []
          | None => []
          end)
    (rlog self) ;;
  mret tck_filt.

(** The names [compute_diff_metrics] gives the tensor and the metric maps. *)
Definition metric_ext (dwi : File) : str :=
  if contains (src dwi) ".gz"%py then ".mif.gz"%py else ".mif"%py.

Definition metric_map (path filename tag ext0 : str) : File :=
  Mif (OsPath.join path ((filename ++ tag) ++ ext0)) false.

Definition dwi2tensor_argv (dwi tensor : File) (mask : option File) (force : bool)
  : list str :=
  ["dwi2tensor"%py; src dwi; src tensor]
    ++ match mask with Some m => ["-mask"%py; src m] | None => [] end
    ++ (if force then ["-force"%py] else []).

Definition tensor2metric_argv (tensor : File) (md : bool) (md_mif : File) (fa : bool)
    (fa_mif : File) (ad : bool) (ad_mif : File) (rd : bool) (rd_mif : File) : list str :=
  ["tensor2metric"%py; src tensor]
    ++ (if md then ["-adc"%py; src md_mif] else [])
    ++ (if fa then ["-fa"%py; src fa_mif] else [])
    ++ (if ad then ["-ad"%py; src ad_mif] else [])
    ++ (if rd then ["-rd"%py; src rd_mif] else []).

(** [ReconMRtrix.compute_diff_metrics(dwi, mask, fa, md, ad, rd, cleanup,
    force)]; the result is [(fa_mif, md_mif, ad_mif, rd_mif)]. *)
Definition compute_diff_metrics (self : ReconMRtrix) (dwi : File) (mask : option File)
    (fa md ad rd cleanup force : bool) : M (File * File * File * File) :=
  '(path, filename, _) ← file_parts (nii_file self) [];
  let ext0 := metric_ext dwi in
  let tensor := metric_map path filename ".diff_tensor"%py ext0 in
  let md_mif := metric_map path filename ".md"%py ext0 in
  let fa_mif := metric_map path filename ".fa"%py ext0 in
  let ad_mif := metric_map path filename ".ad"%py ext0 in
  let rd_mif := metric_map path filename ".rd"%py ext0 in
  run_cmd_list (dwi2tensor_argv dwi tensor mask force) (rlog self) ;;
  run_cmd_list (tensor2metric_argv tensor md md_mif fa fa_mif ad ad_mif rd rd_mif)
               (rlog self) ;;
  when cleanup (os_remove (src tensor)) ;;
  mret (fa_mif, md_mif, ad_mif, rd_mif).

(** The command line of [tck2connectome], with the options that follow the
    output file given in [scale]. *)
Definition tck2connectome_argv (tck labels out : File) (scale : list str)
    (symmetric zero_diagonal force : bool) : list str :=
  ["tck2connectome"%py; src tck; src labels; src out]
    ++ scale
    ++ (if symmetric then ["-symmetric"%py] else [])
    ++ (if zero_diagonal then ["-zero_diagonal"%py] else [])
    ++ (if force then ["-force"%py] else []).

Definition tcksample_argv (tck metric tmp_metric : File) : list str :=
  ["tcksample"%py; src tck; src metric; src tmp_metric; "-stat_tck"%py; "mean"%py].

(** One turn of the loop over [zip(metrics, out_files)] in
    [structural_connectome]: sample the metric along the streamlines, build
    the weighted connectome, remove the sample file. *)
Definition weighted_pass (self : ReconMRtrix) (tck labels tmp_metric : File)
    (symmetric zero_diagonal force : bool) (item : File * File) : M unit :=
  run_cmd_list (tcksample_argv tck item.1 tmp_metric) (rlog self) ;;
  run_cmd_list
    (tck2connectome_argv tck labels item.2
       ["-scale_file"%py; src tmp_metric; "-stat_edge"%py; "mean"%py]
       symmetric zero_diagonal force)
    (rlog self) ;;
  os_remove (src tmp_metric).

(** The names [structural_connectome] gives its results and its sample
    file, from the directory and stem of the DWI file. *)
Definition connectome_file (path filename : str) (tag : str) : File :=
  File_fields (OsPath.join path ((filename ++ tag) ++ ".txt"%py)) [].

Definition tmp_metric_file (path filename : str) : File :=
  File_fields (OsPath.join path (filename ++ "metric.vertex.mean.csv"%py)) [].

(** The lists [metrics] and [out_files], zipped.  Without the maps of
    [compute_diff_metrics] the first enabled metric meets an unbound local. *)
Definition weighting_items (maps : option (File * File * File * File))
    (fa md ad rd : bool) (fa_c md_c ad_c rd_c : File) : M (list (File * File)) :=
  match maps with
  | Some (fa_mif, md_mif, ad_mif, rd_mif) =>
      mret ((if fa then [(fa_mif, fa_c)] else [])
              ++ (if md then [(md_mif, md_c)] else [])
              ++ (if ad then [(ad_mif, ad_c)] else [])
              ++ (if rd then [(rd_mif, rd_c)] else []))
  | None =>
      if fa then raise (NameError "fa_mif"%py)
      else if md then raise (NameError "md_mif"%py)
      else if ad then raise (NameError "ad_mif"%py)
      else if rd then raise (NameError "rd_mif"%py)
      else mret []
  end.

(** [ReconMRtrix.structural_connectome(tck, labels, dwi, mask, symmetric,
    zero_diagonal, fa, md, ad, rd, cleanup, force)], in two parts.  The
    first names the files, computes the metric maps, builds the unweighted
    connectome and lists the work of the loop; it hands on the five result
    files, the sample file and the list. *)
Definition unweighted_stage (self : ReconMRtrix) (tck labels : File)
    (dwi mask : option File) (symmetric zero_diagonal fa md ad rd cleanup force : bool)
  : M (File * File * File * File * File * File * list (File * File)) :=
  '(path, filename, _) ← file_parts (nii_file self) [];
  let connectome := connectome_file path filename ".structural_connectome"%py in
  let fa_connectome := connectome_file path filename ".structural_connectome.fa_weighted"%py in
  let md_connectome := connectome_file path filename ".structural_connectome.md_weighted"%py in
  let ad_connectome := connectome_file path filename ".structural_connectome.ad_weighted"%py in
  let rd_connectome := connectome_file path filename ".structural_connectome.rd_weighted"%py in
  let tmp_metric := tmp_metric_file path filename in
  maps ← (if fa || md || ad || rd then
            match dwi with
            | Some d => r ← compute_diff_metrics self d mask fa md ad rd cleanup force;
                        mret (Some r)
            | None => mret None
            end
          else mret None);
  run_cmd_list (tck2connectome_argv tck labels connectome [] symmetric zero_diagonal force)
               (rlog self) ;;
  items ← weighting_items maps fa md ad rd
            fa_connectome md_connectome ad_connectome rd_connectome;
  mret (connectome, fa_connectome, md_connectome, ad_connectome, rd_connectome,
        tmp_metric, items).

(** The second part is the loop over the enabled metrics. *)
Definition structural_connectome (self : ReconMRtrix) (tck labels : File)
    (dwi mask : option File) (symmetric zero_diagonal fa md ad rd cleanup force : bool)
  : M (File * File * File * File * File) :=
  '(connectome, fa_connectome, md_connectome, ad_connectome, rd_connectome,
    tmp_metric, items) ←
    unweighted_stage self tck labels dwi mask symmetric zero_diagonal fa md ad rd
                     cleanup force;
  when (fa || md || ad || rd)
       (for_each items
          (weighted_pass self tck labels tmp_metric symmetric zero_diagonal force)) ;;
  mret (connectome, fa_connectome, md_connectome, ad_connectome, rd_connectome).

(** *** class [DWIxfm] *)

Record DWIxfm : Type := {
  dwi_file : File; dwi_bval : File; dwi_bvec : File; dwi_json : File;
  template : File; template_brain : File; labels : File; xlog : File
}.

(** [DWIxfm.__init__(dwi_file, dwi_bval, dwi_bvec, template, template_brain,
    labels, log, dwi_json)]. *)
Definition DWIxfm_init (dwi bval0 bvec0 template0 template_brain0 labels0 log0 json : str)
  : M DWIxfm :=
  l ← LogUtil.LogFile_init log0;
  mret {| dwi_file := NiiFile_fields dwi; dwi_bval := File_fields bval0 [];
          dwi_bvec := File_fields bvec0 []; dwi_json := File_fields json [];
          template := NiiFile_fields template0;
          template_brain := NiiFile_fields template_brain0;
          labels := NiiFile_fields labels0; xlog := l |}.

(** [DWIxfm.mask_dwi(frac_int)]. *)
Definition mask_dwi (self : DWIxfm) (frac_int : PyFloat) : M (File * File * File) :=
  '(path, filename, ext0) ← file_parts (dwi_file self) [];
  let brain := NiiFile_fields (OsPath.join path ((filename ++ "_brain"%py) ++ ext0)) in
  let mask := NiiFile_fields (OsPath.join path ((filename ++ "_brain_mask"%py) ++ ext0)) in
  let head := NiiFile_fields (OsPath.join path ((filename ++ "_head"%py) ++ ext0)) in
  dwi ← ReconMRtrix_init (src (dwi_file self)) (src (dwi_bval self)) (src (dwi_bvec self))
          (Some (src (dwi_json self))) (Some (inr (xlog self)));
  mif_file ← nifti_to_mif dwi false false;
  '(mask_mif, brain_mif, head_mif) ← create_mask dwi mif_file frac_int false true;
  run_cmd_list ["mrconvert"%py; src mask_mif; src mask] (xlog self) ;;
  run_cmd_list ["mrconvert"%py; src brain_mif; src brain] (xlog self) ;;
  run_cmd_list ["mrconvert"%py; src head_mif; src head] (xlog self) ;;
  os_remove (src mask_mif) ;;
  os_remove (src brain_mif) ;;
  os_remove (src head_mif) ;;
  mret (mask, brain, head).

(** The command line [compute_linear_xfm] builds for [flirt]. *)
Definition flirt_argv (template_brain_abs dwi_brain_abs : str) (xfm_mat xfm_out : File)
  : list str :=
  ["flirt"%py; "-in"%py; template_brain_abs; "-ref"%py; dwi_brain_abs;
   "-omat"%py; src xfm_mat; "-out"%py; src xfm_out].

(** The names of the results of the linear registration with [dof] degrees
    of freedom. *)
Definition lin_xfm_mat (path filename : str) (dof : Z) : File :=
  File_fields (OsPath.join path
                 ((filename ++ (".lin_xfm_"%py ++ of_Z dof ++ "_dof"%py)) ++ ".mat"%py)) [].

Definition lin_xfm_out (path filename ext0 : str) (dof : Z) : File :=
  NiiFile_fields (OsPath.join path
                    ((filename ++ (".lin_xfm_"%py ++ of_Z dof ++ "_dof"%py)) ++ ext0)).

(** [DWIxfm.compute_linear_xfm(dwi_brain, dof)]. *)
Definition compute_linear_xfm (self : DWIxfm) (dwi_brain : File) (dof : Z)
  : M (File * File) :=
  '(path, filename, ext0) ← file_parts (dwi_file self) [];
  let xfm_mat := lin_xfm_mat path filename dof in
  let xfm_out := lin_xfm_out path filename ext0 dof in
  tb ← abspath (template_brain self);
  db ← abspath dwi_brain;
  run_cmd_list (flirt_argv tb db xfm_mat xfm_out) (xlog self) ;;
  mret (xfm_mat, xfm_out).

(** [DWIxfm.compute_non_linear_xfm(xfm_mat, dwi_head)]. *)
Definition compute_non_linear_xfm (self : DWIxfm) (xfm_mat dwi_head : File)
  : M (File * File * File) :=
  '(path, filename, ext0) ← file_parts (dwi_file self) [];
  let nl_out := NiiFile_fields (OsPath.join path ((filename ++ ".non-lin_xfm"%py) ++ ext0)) in
  let nl_warp :=
    NiiFile_fields (OsPath.join path ((filename ++ ".non-lin_xfm.warp_field"%py) ++ ext0)) in
  let nl_wpcf :=
    NiiFile_fields
      (OsPath.join path ((filename ++ ".non-lin_xfm.warp_field_coeff"%py) ++ ext0)) in
  t ← abspath (template self);
  h ← abspath dwi_head;
  run_cmd_list ["fnirt"%py; "--in="%py ++ t; "--ref="%py ++ h;
                "--aff="%py ++ src xfm_mat; "--iout="%py ++ src nl_out;
                "--fout="%py ++ src nl_warp; "--cout="%py ++ src nl_wpcf]
               (xlog self) ;;
  mret (nl_out, nl_warp, nl_wpcf).

(** The command line [applywarp] builds. *)
Definition applywarp_argv (labels_abs head_abs warp_abs : str) (out : File)
    (premat_abs : option str) (interp : str) (rel : bool) : list str :=
  ["applywarp"%py; "--in="%py ++ labels_abs; "--ref="%py ++ head_abs;
   "--warp="%py ++ warp_abs; "--out="%py ++ src out]
    ++ match premat_abs with Some m => ["--premat="%py ++ m] | None => [] end
    ++ (if truthy interp then ["--interp="%py ++ interp] else [])
    ++ (if rel then ["--rel"%py] else ["--abs"%py]).

(** [DWIxfm.applywarp(dwi_head, non_lin_warp, interp, rel, premat)]. *)
Definition applywarp (self : DWIxfm) (dwi_head non_lin_warp : File) (interp : str)
    (rel : bool) (premat : option File) : M File :=
  '(path, filename, ext0) ← file_parts (dwi_file self) [];
  let out := NiiFile_fields (OsPath.join path ((filename ++ ".labels.non-linear"%py) ++ ext0)) in
  l ← abspath (labels self);
  h ← abspath dwi_head;
  wp ← abspath non_lin_warp;
  pm ← match premat with
       | Some m => a ← abspath m; mret (Some a)
       | None => mret None
       end;
  run_cmd_list (applywarp_argv l h wp out pm interp rel) (xlog self) ;;
  mret out.

(** *** The stages *)

(** The inputs that are files. *)
Record Inputs : Type := {
  in_dwi : str; in_bval : str; in_bvec : str;
  in_template : str; in_template_brain : str; in_labels : str
}.

(** The working directory the stages fall back to. *)
Definition resolve_work_dir (work_dir : option str) (use_cwd : bool) : str * bool :=
  match work_dir with
  | Some d => if truthy d then (d, use_cwd) else ("work.tmp"%py, true)
  | None => ("work.tmp"%py, true)
  end.

(** [compute_xfm(dwi, bval, bvec, template, template_brain, labels, json,
    log, work_dir, use_cwd, dof, frac_int)].  Without a JSON file the local
    [j_tmp] is unbound when the transformation object is built. *)
Definition compute_xfm (inp : Inputs) (json : option str) (log0 : str)
    (work_dir : option str) (use_cwd : bool) (dof : Z) (frac_int : PyFloat)
  : M (File * File) :=
  let '(work_dir1, use_cwd1) := resolve_work_dir work_dir use_cwd in
  work_tmp ← TmpDir_init work_dir1 use_cwd1;
  mkdir work_tmp ;;
  f_tmp ← TmpFile (OsPath.basename (in_dwi inp)) (wd_src work_tmp);
  b_tmp ← TmpFile (OsPath.basename (in_bval inp)) (wd_src work_tmp);
  e_tmp ← TmpFile (OsPath.basename (in_bvec inp)) (wd_src work_tmp);
  shutil_copy (in_dwi inp) (src f_tmp) ;;
  shutil_copy (in_bval inp) (src b_tmp) ;;
  shutil_copy (in_bvec inp) (src e_tmp) ;;
  j_tmp ← match json with
          | Some j =>
              if truthy j then
                jt ← TmpFile (OsPath.basename j) (wd_src work_tmp);
                shutil_copy j (src jt) ;;
                mret (Some jt)
              else mret None
          | None => mret None
          end;
  match j_tmp with
  | None => raise (NameError "j_tmp"%py)
  | Some jt =>
      dwi ← DWIxfm_init (src f_tmp) (src b_tmp) (src e_tmp) (in_template inp)
              (in_template_brain inp) (in_labels inp) log0 (src jt);
      '(mask, brain, head) ← mask_dwi dwi frac_int;
      '(xfm_mat, xfm_out) ← compute_linear_xfm dwi brain 12;
      '(nl_out, nl_warp, nl_wpcf) ← compute_non_linear_xfm dwi xfm_mat head;
      labels_native ← applywarp dwi head nl_warp "nn"%py true None;
      mret (labels_native, nl_out)
  end.

(** The tunable parameters of [create_structural_connectome]. *)
Record Config : Type := {
  json : option str; log_name : str; work_dir : option str; use_cwd : bool;
  force : bool; gzip : bool; erode : Z; fa_thresh : PyFloat; vox : PyFloat;
  dof : Z; frac_int : PyFloat; stream_lines : PyNum; cutoff : PyFloat;
  filter_tracts : bool; term : option Z; symmetric : bool; zero_diagonal : bool;
  fa : bool; md : bool; ad : bool; rd : bool; cleanup : bool
}.

(** What [create_structural_connectome] returns. *)
Record Outputs : Type := {
  connectome : File; fa_connectome : File; md_connectome : File;
  ad_connectome : File; rd_connectome : File;
  labels_native : File; head : File; work_tmp : WorkDir
}.

(** [create_structural_connectome(...)].  Without a JSON file [j_tmp] is
    [None] and has no attribute [file]. *)
Definition create_structural_connectome (scripts_dir : str) (inp : Inputs) (cfg : Config)
  : M Outputs :=
  let '(work_dir1, use_cwd1) := resolve_work_dir (work_dir cfg) (use_cwd cfg) in
  work_tmp0 ← TmpDir_init work_dir1 use_cwd1;
  mkdir work_tmp0 ;;
  f_tmp ← TmpFile (OsPath.basename (in_dwi inp)) (wd_src work_tmp0);
  b_tmp ← TmpFile (OsPath.basename (in_bval inp)) (wd_src work_tmp0);
  e_tmp ← TmpFile (OsPath.basename (in_bvec inp)) (wd_src work_tmp0);
  shutil_copy (in_dwi inp) (src f_tmp) ;;
  shutil_copy (in_bval inp) (src b_tmp) ;;
  shutil_copy (in_bvec inp) (src e_tmp) ;;
  j_tmp ← match json cfg with
          | Some j =>
              if truthy j then
                jt ← TmpFile (OsPath.basename j) (wd_src work_tmp0);
                shutil_copy j (src jt) ;;
                mret (Some jt)
              else mret None
          | None => mret None
          end;
  match j_tmp with
  | None => raise (AttributeError "'NoneType' object has no attribute 'file'"%py)
  | Some jt =>
      '(labels_native0, non_lin_out) ←
        compute_xfm {| in_dwi := src f_tmp; in_bval := src b_tmp; in_bvec := src e_tmp;
                       in_template := in_template inp;
                       in_template_brain := in_template_brain inp;
                       in_labels := in_labels inp |}
                    (Some (src jt)) (log_name cfg) (Some work_dir1) use_cwd1
                    (dof cfg) (frac_int cfg);
      mr_diff ← ReconMRtrix_init (src f_tmp) (src b_tmp) (src e_tmp) (Some (src jt))
                  (Some (inl (log_name cfg)));
      dwi_miff ← nifti_to_mif mr_diff (force cfg) (gzip cfg);
      '(wm_res, gm_res, csf_res) ←
        estimate_response mr_diff dwi_miff "dhollander"%py (force cfg);
      up_dwi_mif ← mr_upsample mr_diff dwi_miff (vox cfg) (Some "cubic"%py) false;
      up_labels_native ←
        mr_upsample mr_diff labels_native0 (vox cfg) (Some "nearest"%py) false;
      '(mask, brain, head0) ← create_mask mr_diff up_dwi_mif (frac_int cfg) false true;
      '(wm_fod, gm, csf) ← ss3t_csd mr_diff up_dwi_mif mask wm_res gm_res csf_res false;
      '(wm_fod_norm, gm_norm, csf_norm) ←
        bias_field_correction mr_diff wm_fod gm csf mask false;
      compute_dec_map scripts_dir mr_diff wm_fod_norm gm_norm csf_norm mask false ;;
      tcks ← (if filter_tracts cfg then
                tmp_tcks ← mr_tck_global mr_diff wm_fod_norm mask
                             (stream_lines cfg) (cutoff cfg);
                mr_tck_sift mr_diff tmp_tcks wm_fod_norm (term cfg) (Some mask)
              else
                mr_tck_global mr_diff wm_fod_norm mask (stream_lines cfg) (cutoff cfg));
      '(c, fa_c, md_c, ad_c, rd_c) ←
        structural_connectome mr_diff tcks up_labels_native (Some up_dwi_mif) (Some mask)
          (symmetric cfg) (zero_diagonal cfg) (fa cfg) (md cfg) (ad cfg) (rd cfg)
          (cleanup cfg) (force cfg);
      mret {| connectome := c; fa_connectome := fa_c; md_connectome := md_c;
              ad_connectome := ad_c; rd_connectome := rd_c;
              labels_native := labels_native0; head := head0; work_tmp := work_tmp0 |}
  end.

(** *** [main] *)

(** The parsed command line. *)
Record Args : Type := {
  a_inputs : Inputs; a_out_dir : str; a_json : option str; a_log : str;
  a_cwd : bool; a_no_cleanup : bool; a_config : Config
}.

(** Copy a result next to the others in the output directory. *)
Definition copy_out (out_dir : str) (f : File) : M unit :=
  shutil_copy (src f) (OsPath.join out_dir (OsPath.basename (src f))) ;; mret tt.

Definition copy_out_if_present (out_dir : str) (f : File) : M unit :=
  present ← os_path_exists (src f);
  when present (copy_out out_dir f).

(** [main()], from the parsed arguments on, in two parts.  The fields of
    [a_config] that the command line sets separately ([json], [log_name],
    [work_dir], [use_cwd], [cleanup]) are taken from [args].  The first part
    runs the stages and copies the results out. *)
Definition main_cleanup (args : Args) : bool :=
  if a_no_cleanup args then false else true.

Definition main_stages (scripts_dir : str) (args : Args) : M Outputs :=
  present ← os_path_exists (a_out_dir args);
  (if present : bool then mret tt else os_makedirs (a_out_dir args)) ;;
  let work_tmp_dir := OsPath.join (a_out_dir args) "work.tmp"%py in
  os_chdir (a_out_dir args) ;;
  let c := a_config args in
  out ← create_structural_connectome scripts_dir (a_inputs args)
           {| json := a_json args; log_name := a_log args;
              work_dir := Some work_tmp_dir; use_cwd := a_cwd args;
              force := force c; gzip := gzip c; erode := erode c;
              fa_thresh := fa_thresh c; vox := vox c; dof := dof c;
              frac_int := frac_int c; stream_lines := stream_lines c;
              cutoff := cutoff c; filter_tracts := filter_tracts c; term := term c;
              symmetric := symmetric c; zero_diagonal := zero_diagonal c;
              fa := fa c; md := md c; ad := ad c; rd := rd c;
              cleanup := main_cleanup args |};
  copy_out (a_out_dir args) (connectome out) ;;
  copy_out (a_out_dir args) (labels_native out) ;;
  copy_out (a_out_dir args) (head out) ;;
  copy_out_if_present (a_out_dir args) (fa_connectome out) ;;
  copy_out_if_present (a_out_dir args) (md_connectome out) ;;
  copy_out_if_present (a_out_dir args) (ad_connectome out) ;;
  copy_out_if_present (a_out_dir args) (rd_connectome out) ;;
  mret out.

(** The second part is the last statement: [if cleanup:
    work_tmp.rm_tmp_dir(rm_parent=True)]. *)
Definition main (scripts_dir : str) (args : Args) : M unit :=
  out ← main_stages scripts_dir args;
  when (main_cleanup args) (rmdir (work_tmp out) true).

End Pipeline.

(** ** Specifications of computations *)

Module Logic.
Import Sys.

(** [wp m Q w]: run from [w], the result and the state reached satisfy [Q],
    whether [m] returns or raises. *)
Definition wp {A : Type} (m : M A) (Q : exn + A -> World -> Prop) (w : World) : Prop :=
  Q (m w).1 (m w).2.

(** [on_success m w Q]: when [m] returns from [w], its value and the state
    reached satisfy [Q]. *)
Definition on_success {A : Type} (m : M A) (w : World) (Q : A -> World -> Prop) : Prop :=
  wp m (fun r w' => forall a, r = inr a -> Q a w') w.

(** [yields P R m]: whatever [m] adds to the trace satisfies [P], event by
    event, whether [m] returns or raises, and a value it returns satisfies
    [R]. *)
Definition yields {A : Type} (P : event -> Prop) (R : A -> Prop) (m : M A) : Prop :=
  forall w, wp m (fun r w' => (exists evs, trace w' = trace w ++ evs /\ Forall P evs) /\
                              forall a, r = inr a -> R a) w.

Definition anything {A : Type} (a : A) : Prop := True.

(** [emits P m]: the same, with nothing said about the value. *)
Definition emits {A : Type} (P : event -> Prop) (m : M A) : Prop := yields P anything m.

(** [P] does not constrain the events that are not invocations. *)
Definition quiet (P : event -> Prop) : Prop :=
  forall ev, (forall argv rc, ev <> Invoked argv rc) -> P ev.

(** The log argument of [Command.run] once it is a sink. *)
Definition sink_given (log0 : option (str + FileIO.File)) : option FileIO.File :=
  match log0 with
  | Some (inl path) => Some (FileIO.File_fields path [])
  | Some (inr l) => Some l
  | None => None
  end.

(** A call of [run] is a logged dry run when a log is given and [dryrun] is
    set; then it returns before anything is run. *)
Definition not_logged_dry_run {L : Type} (log0 : option L) (dry : bool) : Prop :=
  log0 = None \/ dry = false.

(** What a call that is not a logged dry run leaves behind. *)
Definition spawned (c : Cmd.Command) (cmd : list str) (log_given rexc : bool) (w : World)
    (r : exn + Z * option str * option str) (w' : World) : Prop :=
  ∃ rc,
    trace w' = trace w ++ [Invoked cmd rc] ∧
    environ w' = match Cmd.env c with Some e => e ∪ environ w | None => environ w end ∧
    cwd w' = cwd w ∧ draws w' = draws w ∧ host w' = host w ∧
    (rc = 0%Z → ∃ o e, r = inr (0%Z, o, e)) ∧
    (rc ≠ 0%Z →
       (log_given = true → last (log w') = Some (error, Cmd.failed_msg c rc)) ∧
       (rexc = true →
          r = inl (RuntimeError ([Cmd.newline] ++ Cmd.failed_msg c rc ++ [Cmd.newline]))) ∧
       (rexc = false → ∃ o e, r = inr (rc, o, e))).

(** [shutil.rmtree(p, ignore_errors=True)] returns; it removes what is below
    [p] when [p] is a directory and changes nothing otherwise. *)
Definition rmtree_ignoring (p : str) (w : World) : World :=
  match fs w !! key w p with
  | Some Dir =>
      with_trace (trace w ++ [RemovedTree (key w p)])
        (with_fs (filter (fun kv => ~ under (key w p) kv.1) (fs w)) w)
  | _ => w
  end.

(** What [rmdir] leaves behind. *)
Definition rmdir_state (t : WorkDirs.WorkDir) (rm_parent : bool) (w : World) : World :=
  if rm_parent && bool_decide (is_Some (fs w !! key w (WorkDirs.parent_dir t)))
  then rmtree_ignoring (WorkDirs.parent_dir t) w
  else if bool_decide (is_Some (fs w !! key w (WorkDirs.wd_src t)))
       then rmtree_ignoring (WorkDirs.wd_src t) w
       else w.

(** A path is "open" when a name can be put after it: it is empty or ends
    with a PyStr.slash. *)
Definition open_dir (p : str) : Prop := p = [] ∨ ∃ q, p = q ++ [PyStr.slash].

Definition plain_name (b : str) : Prop :=
  (PyStr.slash ∉ b) ∧ b ≠ [] ∧ b ≠ "."%py ∧ b ≠ ".."%py.


End Logic.

(** * What a run leaves in the trace *)

Module Traces.
Import PyStr Sys FileIO Pipeline.

(** ** The command lines of the pipeline *)

(** The executables the stages call without options for registration or
    interpolation. *)
Definition plain_tools : list str :=
  ["mrconvert"%py; "dwi2response"%py; "dwiextract"%py; "fslmaths"%py; "bet"%py;
   "ss3t_csd_beta1"%py; "mtnormalise"%py; "fod2dec"%py; "tckgen"%py; "tcksift"%py;
   "dwi2tensor"%py; "tensor2metric"%py; "tck2connectome"%py; "tcksample"%py;
   "fnirt"%py].

(** The command lines a run of the pipeline can issue. *)
Inductive pipeline_command : list str -> Prop :=
| pc_tool name args :
    name ∈ plain_tools -> pipeline_command (name :: args)
| pc_script scripts_dir args :
    pipeline_command (OsPath.join scripts_dir "dwi_extra.sh"%py :: args)
| pc_flirt tb db path filename ext0 :
    pipeline_command
      (flirt_argv tb db (lin_xfm_mat path filename 12) (lin_xfm_out path filename ext0 12))
| pc_applywarp l h wp out :
    pipeline_command (applywarp_argv l h wp (NiiFile_fields out) None "nn"%py true)
| pc_mrresize_mif p g vox out interp :
    pipeline_command (mrresize_argv (src (Mif p g)) vox out interp)
| pc_mrgrid_mif p g vox out interp :
    pipeline_command (mrgrid_argv (src (Mif p g)) vox out interp)
| pc_mrresize_nearest input vox out :
    pipeline_command (mrresize_argv input vox out (Some "nearest"%py))
| pc_mrgrid_nearest input vox out :
    pipeline_command (mrgrid_argv input vox out (Some "nearest"%py)).

(** An event that, when it is an invocation, has one of these command
    lines. *)
Definition pipeline_event (ev : event) : Prop :=
  forall argv rc, ev = Invoked argv rc -> pipeline_command argv.

(** The command line of [flirt] that [compute_linear_xfm] builds for twelve
    degrees of freedom; its matrix file is named accordingly. *)
Definition flirt_with_12_dof (argv : list str) : Prop :=
  (∃ tb db path filename ext0,
     argv = flirt_argv tb db (lin_xfm_mat path filename 12)
                       (lin_xfm_out path filename ext0 12)) ∧
  ∃ mat, argv !! 6%nat = Some mat ∧ endswith mat ".lin_xfm_12_dof.mat"%py = true.

(** An event that, when it is an invocation of [flirt], has that command
    line. *)
Definition flirt_event (ev : event) : Prop :=
  ∀ args rc, ev = Invoked ("flirt"%py :: args) rc → flirt_with_12_dof ("flirt"%py :: args).

(** A command line that ends with [-interp nearest]. *)
Definition interp_nearest (argv : list str) : Prop :=
  ∃ pre, argv = pre ++ ["-interp"%py; "nearest"%py].

(** The names [NiiFile] gives its files; [applywarp] writes to one. *)
Definition is_nifti_name (p : str) : Prop :=
  endswith p ".nii"%py = true ∨ endswith p ".nii.gz"%py = true.

(** The two executables [mr_upsample] resamples with. *)
Definition is_resize (argv : list str) : Prop :=
  argv !! 0%nat = Some "mrresize"%py ∨ argv !! 0%nat = Some "mrgrid"%py.

(** Nearest-neighbour interpolation of labels, for one command line: an
    [applywarp] carries [--interp=nn] and writes a NIfTI file, and a
    resampling of a NIfTI file carries [-interp nearest]. *)
Definition label_command (argv : list str) : Prop :=
  (argv !! 0%nat = Some "applywarp"%py →
     "--interp=nn"%py ∈ argv ∧ ∀ X, "--out="%py ++ X ∈ argv → is_nifti_name X) ∧
  (is_resize argv → ∀ input, argv !! 1%nat = Some input → is_nifti_name input →
     interp_nearest argv).

(** Nearest-neighbour interpolation of labels, for the invocations of a run:
    every [applywarp] carries [--interp=nn], and every resampling
    ([mrresize] or [mrgrid]) of a file written by an [applywarp] of the run
    carries [-interp nearest]. *)
Definition labels_nearest_neighbour (evs : list event) : Prop :=
  (∀ argv rc, Invoked argv rc ∈ evs → argv !! 0%nat = Some "applywarp"%py →
     "--interp=nn"%py ∈ argv) ∧
  (∀ argvA rcA X argvR rcR,
     Invoked argvA rcA ∈ evs → argvA !! 0%nat = Some "applywarp"%py →
     "--out="%py ++ X ∈ argvA →
     Invoked argvR rcR ∈ evs → is_resize argvR → argvR !! 1%nat = Some X →
     interp_nearest argvR).

(** ** The connectome stage *)

(** The [Command] object [run_cmd_list] runs for an argument vector, and
    the exception a non-zero exit status [rc] of it raises. *)
Definition tool_command (argv : list str) : Cmd.Command :=
  {| Cmd.command := join_with " "%py argv; Cmd.env := None |}.

Definition tool_error (argv : list str) (rc : Z) : exn :=
  RuntimeError ([Cmd.newline] ++ Cmd.failed_msg (tool_command argv) rc ++ [Cmd.newline]).

(** What a weighting pass that returns adds to the trace, started in the
    directory [d]: the sampling, the weighted connectome, the removal of the
    sample file. *)
Definition pass_events (d : str) (tck labels tmp_metric : File)
    (symmetric zero_diagonal force : bool) (item : File * File) : list event :=
  [Invoked (tcksample_argv tck item.1 tmp_metric) 0;
   Invoked (tck2connectome_argv tck labels item.2
              ["-scale_file"%py; src tmp_metric; "-stat_edge"%py; "mean"%py]
              symmetric zero_diagonal force) 0;
   Removed (OsPath.abspath d (src tmp_metric))].

(** The names of the stage, from the directory [d] the run starts in:
    directory and stem of the NIfTI file, the result files, the metric maps,
    the sample file. *)
Definition stem_of (d : str) (self : ReconMRtrix) : str * str :=
  (file_parts_in d (nii_file self) []).1.

Definition out_file (d : str) (self : ReconMRtrix) (tag : str) : File :=
  connectome_file (stem_of d self).1 (stem_of d self).2 tag.

Definition map_file (d : str) (self : ReconMRtrix) (dwi : File) (tag : str) : File :=
  metric_map (stem_of d self).1 (stem_of d self).2 tag (metric_ext dwi).

Definition sample_file (d : str) (self : ReconMRtrix) : File :=
  tmp_metric_file (stem_of d self).1 (stem_of d self).2.

(** The command line of [tensor2metric] in [compute_diff_metrics]. *)
Definition metrics_command (d : str) (self : ReconMRtrix) (dwi : File)
    (fa md ad rd : bool) : list str :=
  tensor2metric_argv (map_file d self dwi ".diff_tensor"%py)
    md (map_file d self dwi ".md"%py) fa (map_file d self dwi ".fa"%py)
    ad (map_file d self dwi ".ad"%py) rd (map_file d self dwi ".rd"%py).

(** The work of the loop: each enabled metric map with the file of its
    connectome. *)
Definition enabled_items (d : str) (self : ReconMRtrix) (dwi : File)
    (fa md ad rd : bool) : list (File * File) :=
  (if fa then [(map_file d self dwi ".fa"%py,
                out_file d self ".structural_connectome.fa_weighted"%py)] else [])
  ++ (if md then [(map_file d self dwi ".md"%py,
                   out_file d self ".structural_connectome.md_weighted"%py)] else [])
  ++ (if ad then [(map_file d self dwi ".ad"%py,
                   out_file d self ".structural_connectome.ad_weighted"%py)] else [])
  ++ (if rd then [(map_file d self dwi ".rd"%py,
                   out_file d self ".structural_connectome.rd_weighted"%py)] else []).

(** The maps the invocations of [tcksample] in a trace read, in order. *)
Definition sampled_maps (evs : list event) : list str :=
  omap (fun ev => match ev with
                  | Invoked (tool :: _ :: metric :: _) _ =>
                      if bool_decide (tool = "tcksample"%py) then Some metric else None
                  | _ => None
                  end) evs.

End Traces.

(** ** A host and a file system to run the definitions on *)

Module Demo.
Import PyStr Sys FileIO WorkDirs Pipeline.

(** The path an argument names: what follows [=] in an option of the form
    [--name=path], the argument itself otherwise. *)
Definition path_of_arg (a : str) : str :=
  match cut_last "="%char a with
  | ([], _) => a
  | (_ :: _, t) => t
  end.

(** A tool that leaves an (empty) file at every absolute path on its command
    line that was missing. *)
Definition touch_paths (f : gmap str node) (argv : list str) : gmap str node :=
  foldl (fun f a =>
           let p := OsPath.normpath (path_of_arg a) in
           if OsPath.isabs p then
             match f !! p with None => <[p := Reg []]> f | Some _ => f end
           else f)
        f (tail argv).

(** A command line splitter for commands without quoting. *)
Definition split_blanks (s : str) : option (list str) := Some (split_on " "%char s).

(** Every tool succeeds. *)
Definition tools_succeed : Host :=
  {| popen := fun argv _ _ f => (0%Z, [], [], touch_paths f argv);
     random_draw := fun i => (41 + Z.of_nat i)%Z;
     shlex_split := split_blanks;
     which := fun _ => true;
     nifti_loads := fun _ => true |}.

(** Every tool exits with status 1 and writes nothing. *)
Definition tools_fail : Host :=
  {| popen := fun argv _ _ f => (1%Z, [], [], f);
     random_draw := fun i => (41 + Z.of_nat i)%Z;
     shlex_split := split_blanks;
     which := fun _ => true;
     nifti_loads := fun _ => true |}.

(** [tcksample] exits with status 1 when it samples the map whose name ends
    in [suffix]; everything else succeeds. *)
Definition sampling_fails_on (suffix : str) : Host :=
  {| popen := fun argv _ _ f =>
       match argv with
       | tool :: _ :: metric :: _ =>
           if bool_decide (tool = "tcksample"%py) && endswith metric suffix
           then (1%Z, [], [], f)
           else (0%Z, [], [], touch_paths f argv)
       | _ => (0%Z, [], [], touch_paths f argv)
       end;
     random_draw := fun i => (41 + Z.of_nat i)%Z;
     shlex_split := split_blanks;
     which := fun _ => true;
     nifti_loads := fun _ => true |}.

Definition start_fs : gmap str node :=
  list_to_map [("/"%py, Dir); ("/data"%py, Dir);
               ("/data/dwi.nii.gz"%py, Reg "dwi"%py);
               ("/data/dwi.bval"%py, Reg "bval"%py);
               ("/data/dwi.bvec"%py, Reg "bvec"%py);
               ("/data/dwi.json"%py, Reg "json"%py);
               ("/atlas"%py, Dir);
               ("/atlas/template.nii.gz"%py, Reg "t"%py);
               ("/atlas/template_brain.nii.gz"%py, Reg "tb"%py);
               ("/atlas/labels.nii.gz"%py, Reg "l"%py)].

Definition start (h : Host) : World :=
  {| host := h; fs := start_fs; cwd := "/data"%py; environ := ∅;
     log := []; trace := []; draws := 0 |}.

Definition inputs : Inputs :=
  {| in_dwi := "/data/dwi.nii.gz"%py; in_bval := "/data/dwi.bval"%py;
     in_bvec := "/data/dwi.bvec"%py; in_template := "/atlas/template.nii.gz"%py;
     in_template_brain := "/atlas/template_brain.nii.gz"%py;
     in_labels := "/atlas/labels.nii.gz"%py |}.

(** All four weightings, and six degrees of freedom asked for. *)
Definition config : Config :=
  {| json := Some "/data/dwi.json"%py; log_name := "/out/file.log"%py;
     work_dir := Some "/out/work.tmp"%py; use_cwd := false;
     force := false; gzip := false; erode := 0; fa_thresh := {| float_str := "0.2"%py |};
     vox := {| float_str := "1.5"%py |}; dof := 6;
     frac_int := {| float_str := "0.5"%py |};
     stream_lines := {| num_str := "100000.0"%py; num_int := 100000 |};
     cutoff := {| float_str := "0.07"%py |};
     filter_tracts := false; term := None; symmetric := false; zero_diagonal := false;
     fa := true; md := true; ad := true; rd := true; cleanup := true |}.

Definition args : Args :=
  {| a_inputs := inputs; a_out_dir := "/out"%py; a_json := Some "/data/dwi.json"%py;
     a_log := "/out/file.log"%py; a_cwd := false; a_no_cleanup := false;
     a_config := config |}.

(** The objects of a connectome stage run on its own, in [/data]. *)
Definition recon : ReconMRtrix :=
  {| nii_file := NiiFile_fields "/data/dwi.nii.gz"%py;
     bval := File_fields "/data/dwi.bval"%py [];
     bvec := File_fields "/data/dwi.bvec"%py [];
     json_file := File_fields "/data/dwi.json"%py [];
     rlog := File_fields "/data/file.log"%py [] |}.

(** The same, for a NIfTI file in a directory with [.gz] in its name. *)
Definition archived : ReconMRtrix :=
  {| nii_file := NiiFile_fields "/data/raw.gz/dwi.nii.gz"%py;
     bval := File_fields "/data/dwi.bval"%py [];
     bvec := File_fields "/data/dwi.bvec"%py [];
     json_file := File_fields "/data/dwi.json"%py [];
     rlog := File_fields "/data/file.log"%py [] |}.

Definition tck : File := File_fields "/data/dwi.100000.streamlines.tck"%py [].
Definition atlas_labels : File := File_fields "/data/dwi.labels_upsampled.mif"%py [].
Definition up_dwi : File := File_fields "/data/dwi_upsampled.mif"%py [].
Definition brain_mask : File := File_fields "/data/dwi_upsampled_brain_mask.mif"%py [].

(** A command with an environment of its own. *)
Definition echo : Cmd.Command :=
  {| Cmd.command := "echo hi"%py;
     Cmd.env := Some {[ "XFM_DEBUG"%py := "1"%py ]} |}.

Definition sink : File := File_fields "/data/file.log"%py [].

End Demo.

(** ** [xfm_tck/utils/iobase.py] and [fileio.py]: more file operations *)

Module FileOps.
Import PyStr Sys FileIO.

(** [os.path.isfile(p)]. *)
Definition os_path_isfile (p : str) : M bool :=
  gets (fun w => match fs w !! key w p with Some (Reg _) => true | _ => false end).

(** [IOBaseObj.abspath(follow_sym_links)].  The file system has no symbolic
    links, so [os.path.realpath(p)] is [os.path.abspath(p)]. *)
Definition abspath_of (f : File) (follow_sym_links : bool) : M str :=
  present ← os_path_exists (src f);
  d ← os_getcwd;
  if follow_sym_links && present
  then mret (OsPath.abspath d (OsPath.abspath d (src f)))
  else mret (OsPath.abspath d (src f)).

(** [IOBaseObj.basename()] and [IOBaseObj.dirname()]. *)
Definition basename (f : File) : str := OsPath.basename (src f).
Definition dirname (f : File) : M str :=
  p ← abspath_of f false; mret (OsPath.dirname p).

(** [open(p, "w")] closed at once: the file is there and empty afterwards.
    As for [append_text], opening never fails and a directory is left as it
    is. *)
Definition truncate (p : str) : M unit :=
  k ← gets (fun w => key w p);
  modify (fun w =>
    match fs w !! k with
    | Some Dir => w
    | _ => with_fs (<[k := Reg []]> (fs w)) w
    end).

(** [File.touch()].  The line printed for a file that exists goes to the
    standard output, which is not part of the state. *)
Definition touch (f : File) : M unit :=
  present ← os_path_exists (src f);
  if present : bool then mret tt else truncate (src f).

(** [NiiFile.touch()] does nothing. *)
Definition NiiFile_touch (f : File) : M unit := mret tt.

(** The entries of [f] at and below [ks], put at and below [kd]. *)
Definition rerooted (ks kd : str) (f : gmap str node) : gmap str node :=
  kmap (fun k => kd ++ drop (length ks) k) (filter (fun kv => under ks kv.1) f).

(** [shutil.copytree(src, dst)]: the destination must not exist; it is made
    with the directories above it and receives the tree below [src]. *)
Definition shutil_copytree (src0 dst : str) : M str :=
  ks ← gets (fun w => key w src0);
  kd ← gets (fun w => key w dst);
  entry ← gets (fun w => fs w !! ks);
  match entry with
  | Some Dir =>
      present ← os_path_exists dst;
      if present : bool then raise (FileExistsError dst)
      else
        modify (fun w =>
          with_fs (rerooted ks kd (fs w)
                     ∪ foldl add_dir (fs w) (ancestors (length kd) kd)) w) ;;
        emit (Copied ks kd) ;;
        mret dst
  | Some (Reg _) => raise (NotADirectoryError src0)
  | None => raise (FileNotFoundError src0)
  end.

(** [IOBaseObj.copy(dst)], which [File.copy] and [WorkDir.copy] call: the
    result is [None] when the path is neither a file nor a directory. *)
Definition copy (f : File) (dst : str) : M (option str) :=
  src1 ← abspath_of f true;
  isfile ← os_path_isfile src1;
  if isfile : bool then
    p ← shutil_copy src1 dst; d ← os_getcwd; mret (Some (OsPath.abspath d p))
  else
    isdir ← os_path_isdir src1;
    if isdir : bool then
      p ← shutil_copytree src1 dst; d ← os_getcwd; mret (Some (OsPath.abspath d p))
    else mret None.

(** [IOBaseObj.join] with the arguments [args]: [os.path.join] from the
    directory of a file or from a directory; [None] for a path that is
    neither. *)
Definition join (f : File) (args : list str) : M (option str) :=
  src1 ← abspath_of f false;
  isfile ← os_path_isfile src1;
  if isfile : bool then mret (Some (foldl OsPath.join (fst (OsPath.split src1)) args))
  else
    isdir ← os_path_isdir src1;
    if isdir : bool then mret (Some (foldl OsPath.join src1 args))
    else mret None.

End FileOps.

(** ** What the file operations and the stages are specified with *)

Module Outcomes.
Import PyStr Sys FileIO Pipeline Traces.

(** The number of leading slashes [normpath] keeps. *)
Definition initial_slashes (path : str) : nat :=
  if startswith path "/"%py then
    if startswith path "//"%py && negb (startswith path "///"%py) then 2 else 1
  else 0.

(** An event that is not the invocation of a program. *)
Definition no_invocation (ev : event) : Prop := ∀ argv rc, ev ≠ Invoked argv rc.

(** The file [mr_upsample] writes for the input [mif], in the working
    directory [d]. *)
Definition upsampled_file (d : str) (mif : File) (gzip : bool) : File :=
  let gz := contains (src mif) ".gz"%py in
  let ext_in :=
    if contains (src mif) ".mif"%py then (if gz then ".mif.gz"%py else ".mif"%py)
    else (if gz then ".nii.gz"%py else ".nii"%py) in
  let '(path, filename, _) := file_parts_in d mif ext_in in
  Mif (OsPath.join path ((filename ++ "_upsampled"%py) ++ ".mif"%py))
      (if gz then true else gzip).

(** A run of one tool, whatever its exit status: one invocation is added to
    the trace; the call returns on status 0 and raises otherwise. *)
Definition ran_once (argv : list str) {A : Type} (a : A) (w : World)
    (r : exn + A) (w' : World) : Prop :=
  ∃ rc, trace w' = trace w ++ [Invoked argv rc] ∧
        (rc = 0%Z → r = inr a) ∧ (rc ≠ 0%Z → r = inl (tool_error argv rc)).

(** The unweighted connectome of [structural_connectome], in the working
    directory [d]. *)
Definition unweighted_command (d : str) (self : ReconMRtrix) (tck labels : File)
    (symmetric zero_diagonal force : bool) : list str :=
  tck2connectome_argv tck labels (out_file d self ".structural_connectome"%py) []
    symmetric zero_diagonal force.

(** [m] never returns, and it raises before any program is run. *)
Definition stops_before_any_tool {A : Type} (m : M A) : Prop :=
  ∀ w, (∃ e, (m w).1 = inl e) ∧
       ∃ evs, trace (m w).2 = trace w ++ evs ∧ Forall no_invocation evs.

(** The JSON argument is [None] or empty. *)
Definition no_json (json : option str) : Prop := json = None ∨ json = Some [].

End Outcomes.

(** * Theorems *)

Import PyStr Sys FileIO WorkDirs Logic.

(** ** Rules for [wp] *)

Section wp_rules.
Context {A B : Type}.
Implicit Types (Q : exn + A -> World -> Prop) (w : World).

Lemma wp_intro (m : M A) Q w : (∀ r w', m w = (r, w') → Q r w') → wp m Q w.
Proof. intros H. unfold wp. apply H, surjective_pairing. Qed.

Lemma wp_elim (m : M A) Q w r w' : wp m Q w → m w = (r, w') → Q r w'.
Proof. unfold wp. intros H Heq. by rewrite Heq in H. Qed.

Lemma wp_mono (m : M A) Q Q' w :
  wp m Q w → (∀ r w', Q r w' → Q' r w') → wp m Q' w.
Proof. unfold wp. auto. Qed.

Lemma wp_and (m : M A) Q Q' w :
  wp m Q w → wp m Q' w → wp m (fun r w' => Q r w' ∧ Q' r w') w.
Proof. unfold wp. auto. Qed.

Lemma wp_ret (a : A) Q w : Q (inr a) w → wp (mret a) Q w.
Proof. done. Qed.

Lemma wp_raise (e : exn) Q w : Q (inl e) w → wp (raise e) Q w.
Proof. done. Qed.

Lemma wp_gets (f : World -> A) Q w : Q (inr (f w)) w → wp (gets f) Q w.
Proof. done. Qed.

Lemma wp_bind (m : M A) (f : A -> M B) (Q : exn + B -> World -> Prop) w :
  wp m (fun r w1 => match r with
                    | inr a => wp (f a) Q w1
                    | inl e => Q (inl e) w1
                    end) w →
  wp (m ≫= f) Q w.
Proof. unfold wp, mbind, M_bind. by destruct (m w) as [[e|a] w1]. Qed.

Lemma wp_try_except (m : M A) (handler : exn -> option (M A)) Q w :
  wp m (fun r w1 => match r with
                    | inr a => Q (inr a) w1
                    | inl e => match handler e with
                               | Some h => wp h Q w1
                               | None => Q (inl e) w1
                               end
                    end) w →
  wp (try_except m handler) Q w.
Proof.
  unfold wp, try_except. destruct (m w) as [[e|a] w1]; [|done].
  simpl. by destruct (handler e).
Qed.

End wp_rules.

Lemma wp_modify (f : World -> World) (Q : exn + unit -> World -> Prop) w :
  Q (inr tt) (f w) → wp (modify f) Q w.
Proof. done. Qed.

Lemma wp_when (b : bool) (m : M unit) (Q : exn + unit -> World -> Prop) w :
  (b = true → wp m Q w) → (b = false → Q (inr tt) w) → wp (when b m) Q w.
Proof. intros H1 H2. destruct b; [by apply H1 | by apply H2]. Qed.

Ltac wp_step :=
  lazymatch goal with
  | |- wp (mbind _ _) _ _ => apply wp_bind
  | |- wp (mret _) _ _ => apply wp_ret
  | |- wp (raise _) _ _ => apply wp_raise
  | |- wp (gets _) _ _ => apply wp_gets
  | |- wp (modify _) _ _ => apply wp_modify
  | |- wp (emit _) _ _ => apply wp_modify
  | |- wp (log_call _ _) _ _ => apply wp_modify
  end.

Lemma snoc_neq_self {X : Type} (l : list X) (x : X) : l ≠ l ++ [x].
Proof.
  intros H. apply (f_equal length) in H. rewrite length_app in H. simpl in H. lia.
Qed.

(** ** [Command.run] *)

Lemma wp_append_text p txt (Q : exn + unit -> World -> Prop) w :
  (∀ f, Q (inr tt) (with_fs f w)) → wp (append_text p txt) Q w.
Proof.
  intros H. unfold append_text. apply wp_bind, wp_gets, wp_modify.
  destruct (fs w !! _) as [[|?]|]; [apply (H (fs w)) | apply H..].
Qed.

Lemma wp_LogFile_init path (Q : exn + File -> World -> Prop) w :
  (∀ f, Q (inr (File_fields path [])) (with_fs f w)) → wp (LogUtil.LogFile_init path) Q w.
Proof.
  intros H. unfold LogUtil.LogFile_init, File_init.
  apply wp_bind, wp_bind, wp_ret, wp_ret.
  apply wp_bind, wp_append_text; intros f. apply wp_ret, H.
Qed.

Lemma wp_announce c (l : option File) dbg (Q : exn + unit -> World -> Prop) w :
  (∀ msgs, Q (inr tt) (with_log (log w ++ msgs) w)) → wp (Cmd.announce c l dbg) Q w.
Proof.
  intros H. unfold Cmd.announce. destruct l as [l|].
  - destruct dbg; apply wp_modify, H.
  - apply wp_ret. specialize (H []). by rewrite app_nil_r in H.
Qed.

Lemma wp_spawn cmd sh (Q : exn + Z * str * str -> World -> Prop) w :
  (∀ rc out err fs', popen (host w) cmd sh (environ w) (fs w) = (rc, out, err, fs') →
     Q (inr (rc, out, err)) (with_trace (trace w ++ [Invoked cmd rc]) (with_fs fs' w))) →
  wp (Cmd.spawn cmd sh) Q w.
Proof.
  intros H. unfold Cmd.spawn. apply wp_bind, wp_gets.
  destruct (popen _ _ _ _ _) as [[[rc out] err] fs'] eqn:Hp.
  apply wp_bind, wp_modify, wp_bind, wp_modify, wp_ret. by apply H.
Qed.

Lemma wp_capture so out err (Q : exn + option str * option str -> World -> Prop) w :
  (∀ r f, Q (inr r) (with_fs f w)) → wp (Cmd.capture so out err) Q w.
Proof.
  intros H. unfold Cmd.capture. destruct so as [so|].
  - unfold write, abspath, os_getcwd.
    apply wp_bind, wp_append_text; intros f1.
    apply wp_bind, wp_append_text; intros f2.
    repeat (wp_step; simpl). apply H.
  - apply wp_ret. apply (H (None, None) (fs w)).
Qed.

Lemma wp_check_status c (l : option File) (rexc : bool) rc
    (Q : exn + unit -> World -> Prop) w :
  (rc = 0%Z → Q (inr tt) w) →
  (rc ≠ 0%Z →
     let w1 := match l with
               | Some _ => with_log (log w ++ [(error, Cmd.failed_msg c rc)]) w
               | None => w
               end in
     if rexc
     then Q (inl (RuntimeError ([Cmd.newline] ++ Cmd.failed_msg c rc ++ [Cmd.newline]))) w1
     else Q (inr tt) w1) →
  wp (Cmd.check_status c l rexc rc) Q w.
Proof.
  intros H0 H1. unfold Cmd.check_status. case_bool_decide as Hrc.
  - specialize (H1 Hrc). apply wp_bind. destruct l as [l|].
    + apply wp_modify. destruct rexc; [by apply wp_raise | by apply wp_ret].
    + apply wp_ret. destruct rexc; [by apply wp_raise | by apply wp_ret].
  - apply wp_ret, H0. destruct (decide (rc = 0%Z)); [done | by destruct Hrc].
Qed.

Lemma run_argv_spawns c cmd (log0 : option File) dbg dry so sh rexc w :
  not_logged_dry_run log0 dry →
  wp (Cmd.run_argv c cmd log0 dbg dry so sh rexc)
     (spawned c cmd (bool_decide (log0 ≠ None)) rexc w) w.
Proof.
  intros Hnd. unfold Cmd.run_argv.
  apply wp_bind, wp_announce; intros msgs.
  assert (Hd : match log0, dry with Some _, true => False | _, _ => True end).
  { destruct Hnd as [-> | ->]; [done | by destruct log0]. }
  set (body := (Cmd.merge_env c ;; _)).
  assert (Hbody : wp body (spawned c cmd (bool_decide (log0 ≠ None)) rexc w)
                     (with_log (log w ++ msgs) w)).
  { subst body. apply wp_bind.
    apply (wp_mono _ (fun r w1 => r = inr tt ∧
             w1 = with_environ
                    (match Cmd.env c with Some e => e ∪ environ w | None => environ w end)
                    (with_log (log w ++ msgs) w))).
    { unfold Cmd.merge_env. destruct (Cmd.env c); [by apply wp_modify | by apply wp_ret]. }
    intros r w1 H. destruct H as [-> ->].
    apply wp_bind, wp_spawn; intros rc out err fs' _.
    apply wp_bind, wp_capture; intros [so' se'] f.
    apply wp_bind, wp_check_status.
    - intros ->. apply wp_ret. exists 0%Z. repeat split; eauto; done.
    - intros Hrc. cbv zeta.
      destruct rexc; [|apply (wp_ret (A:=Z * option str * option str))];
        exists rc; destruct log0; simpl; split_and!; try done;
        intros; split_and!; intros; simplify_eq; eauto; by rewrite ?last_snoc. }
  destruct log0 as [l|]; [destruct dry; [done|]|]; exact Hbody.
Qed.

(** A logged dry run changes neither the trace nor the environment. *)
Lemma run_argv_dry_run c cmd (l : File) dbg so sh rexc w :
  wp (Cmd.run_argv c cmd (Some l) dbg true so sh rexc)
     (fun r w' => r = inr (0%Z, None, None) ∧ trace w' = trace w ∧
                  environ w' = environ w ∧ fs w' = fs w) w.
Proof.
  unfold Cmd.run_argv. apply wp_bind, wp_announce; intros msgs.
  apply wp_bind, wp_modify, wp_ret. done.
Qed.

Lemma sink_given_None log0 : sink_given log0 = None ↔ log0 = None.
Proof. destruct log0 as [[?|?]|]; simpl; split; congruence. Qed.

(** The three ways a call of [run] can go. *)
Lemma run_outcome c log0 dbg dry so sh rexc w :
  wp (Cmd.run c log0 dbg dry so sh rexc)
     (fun r w' =>
        match shlex_split (host w) (Cmd.command c) with
        | None => r = inl (ValueError (Cmd.command c)) ∧ w' = w
        | Some cmd =>
            match log0, dry with
            | Some _, true =>
                r = inr (0%Z, None, None) ∧ trace w' = trace w ∧ environ w' = environ w
            | _, _ => spawned c cmd (bool_decide (log0 ≠ None)) rexc w r w'
            end
        end) w.
Proof.
  unfold Cmd.run. apply wp_bind, wp_gets.
  destruct (shlex_split (host w) (Cmd.command c)) as [cmd|]; [|by apply wp_raise].
  apply wp_bind.
  apply (wp_mono _ (fun r w1 => r = inr (sink_given log0) ∧ ∃ f, w1 = with_fs f w)).
  { destruct log0 as [[path|l]|]; simpl.
    - apply wp_bind, wp_LogFile_init; intros f. apply wp_ret. eauto.
    - apply wp_ret. split; [done|]. by exists (fs w).
    - apply wp_ret. split; [done|]. by exists (fs w). }
  intros r w1 H. destruct H as [-> [f ->]].
  destruct (decide (sink_given log0 ≠ None ∧ dry = true)) as [[Hl ->]|Hnd].
  - destruct (sink_given log0) as [l|] eqn:Hs; [|done].
    eapply wp_mono; [apply run_argv_dry_run|]. simpl.
    intros r w' (-> & Ht & He & _).
    destruct log0 as [[?|?]|]; try done.
  - assert (Hnd' : not_logged_dry_run (sink_given log0) dry).
    { unfold not_logged_dry_run. destruct (sink_given log0), dry; auto.
      destruct Hnd; done. }
    eapply wp_mono; [apply run_argv_spawns, Hnd'|]. simpl.
    intros r w' Hsp.
    assert (Hgoal : spawned c cmd (bool_decide (log0 ≠ None)) rexc w r w').
    { destruct Hsp as (rc & Hsp). exists rc.
      replace (bool_decide (log0 ≠ None)) with (bool_decide (sink_given log0 ≠ None));
        [exact Hsp|].
      apply bool_decide_ext. by rewrite sink_given_None. }
    destruct log0 as [s|]; [|done]. destruct dry; [|done].
    destruct Hnd. split; [by destruct s|done].
Qed.



(** A call that is not a logged dry run, with a command line that splits,
    does run the child. *)
Lemma run_runs_child c log0 dbg dry so sh rexc w cmd :
  shlex_split (host w) (Cmd.command c) = Some cmd →
  not_logged_dry_run log0 dry →
  ∃ rc, trace (Cmd.run c log0 dbg dry so sh rexc w).2 = trace w ++ [Invoked cmd rc].
Proof.
  intros Hs Hnd. pose proof (run_outcome c log0 dbg dry so sh rexc w) as H.
  unfold wp in H. rewrite Hs in H.
  assert (Hsp : spawned c cmd (bool_decide (log0 ≠ None)) rexc w
                  (Cmd.run c log0 dbg dry so sh rexc w).1
                  (Cmd.run c log0 dbg dry so sh rexc w).2).
  { destruct Hnd as [-> | ->]; [exact H | by destruct log0]. }
  destruct Hsp as (rc & Ht & _). eauto.
Qed.




(** ** [NiiFile] *)

Lemma app_nonempty_neq (s t : str) : t ≠ [] → s ++ t ≠ s.
Proof.
  intros Ht Heq. apply (f_equal length) in Heq. rewrite length_app in Heq.
  destruct t; [done | simpl in Heq; lia].
Qed.

Lemma NiiFile_fields_other (src0 : str) :
  endswith src0 ".nii.gz"%py = false → endswith src0 ".nii"%py = false →
  NiiFile_fields src0 = {| src := src0 ++ ".nii.gz"%py; ext := ".nii.gz"%py |}.
Proof.
  intros H1 H2. unfold NiiFile_fields. cbn [File_fields src ext truthy].
  rewrite H1, H2. reflexivity.
Qed.

(** C9.  For a path that ends neither in [.nii] nor in [.nii.gz], the
    constructor of [NiiFile] stores the path with [.nii.gz] appended and
    the extension [.nii.gz]: the path of the object differs from the one
    supplied.  With its flags at their defaults the constructor returns that
    object; with the checks asked for it returns that object or raises. *)
Theorem NiiFile_init_appends_extension (src0 : str) (assert_exists validate_nifti : bool)
    (w : World) :
  endswith src0 ".nii"%py = false →
  endswith src0 ".nii.gz"%py = false →
  let f := {| src := src0 ++ ".nii.gz"%py; ext := ".nii.gz"%py |} in
  NiiFile_fields src0 = f ∧ src f ≠ src0 ∧
  NiiFile_init src0 false false w = (inr f, w) ∧
  (∀ g w', NiiFile_init src0 assert_exists validate_nifti w = (inr g, w') → g = f ∧ w' = w).
Proof.
  intros H2 H1 f.
  assert (Hf : NiiFile_fields src0 = f) by (apply NiiFile_fields_other; assumption).
  split; [exact Hf|]. split; [apply app_nonempty_neq; discriminate|].
  unfold NiiFile_init. rewrite Hf.
  split.
  - reflexivity.
  - intros g w'. unfold mbind, M_bind, mret, M_ret, os_path_exists, gets, raise.
    destruct assert_exists, validate_nifti; simpl;
      repeat (case_bool_decide; simpl); repeat (case_match; simpl);
      intros; simplify_eq; auto.
Qed.

Lemma NiiFile_init_appends_extension_witness :
  NiiFile_fields "scan"%py = {| src := "scan.nii.gz"%py; ext := ".nii.gz"%py |} ∧
  NiiFile_init "scan"%py false false (Demo.start Demo.tools_succeed)
  = (inr {| src := "scan.nii.gz"%py; ext := ".nii.gz"%py |}, Demo.start Demo.tools_succeed).
Proof.
  destruct (NiiFile_init_appends_extension "scan"%py false false
              (Demo.start Demo.tools_succeed)) as (H1 & _ & H2 & _).
  - vm_compute. reflexivity.
  - vm_compute. reflexivity.
  - split; [exact H1 | exact H2].
Defined.

(** ** Workspaces *)

Lemma shutil_rmtree_ignore p w :
  shutil_rmtree p true w = (inr tt, rmtree_ignoring p w).
Proof.
  unfold shutil_rmtree, rmtree_ignoring, mbind, M_bind, gets, modify, emit, mret, M_ret.
  simpl. by destruct (fs w !! key w p) as [[|c]|].
Qed.

Lemma rmtree_ignoring_gone p w :
  fs (rmtree_ignoring p w) !! key w p ≠ Some Dir.
Proof.
  unfold rmtree_ignoring. destruct (fs w !! key w p) as [[|c]|] eqn:Hk; simpl.
  - intros H. apply map_lookup_filter_Some in H as [_ H]. apply H. by left.
  - by rewrite Hk.
  - by rewrite Hk.
Qed.

Lemma rmtree_ignoring_cwd p w : cwd (rmtree_ignoring p w) = cwd w.
Proof. unfold rmtree_ignoring. by destruct (fs w !! key w p) as [[|c]|]. Qed.

Lemma rmdir_returns t rm_parent w :
  rmdir t rm_parent w = (inr tt, rmdir_state t rm_parent w).
Proof.
  unfold rmdir, rmdir_state, mbind, M_bind, os_path_exists, gets. simpl.
  destruct (rm_parent && _); [apply shutil_rmtree_ignore|].
  destruct (bool_decide _); [apply shutil_rmtree_ignore | done].
Qed.

Lemma rmdir_state_again t w :
  rmdir_state t false (rmdir_state t false w) = rmdir_state t false w.
Proof.
  unfold rmdir_state. simpl.
  destruct (bool_decide (is_Some (fs w !! key w (wd_src t)))) eqn:Hb; [|by rewrite Hb].
  unfold rmtree_ignoring.
  destruct (fs w !! key w (wd_src t)) as [[|c]|] eqn:Hk.
  - rewrite bool_decide_false; [done|]. simpl.
    change (key _ (wd_src t)) with (key w (wd_src t)).
    intros [x Hx].
    apply map_lookup_filter_Some in Hx as [_ Hx]. apply Hx. by left.
  - by rewrite Hk, Hb.
  - by rewrite Hk.
Qed.

(** C7.  [rmdir] never raises: called twice in a row it returns both times,
    and so it does on a workspace whose directory was never created, where
    (the parent being kept) it changes nothing.  A second call that keeps
    the parent changes nothing either. *)
Theorem rmdir_idempotent (t : WorkDir) (rm_parent : bool) (w : World) :
  let first := rmdir t rm_parent w in
  let second := rmdir t rm_parent first.2 in
  first.1 = inr tt ∧ second.1 = inr tt ∧
  (rm_parent = false → second.2 = first.2) ∧
  (rm_parent = false → fs w !! key w (wd_src t) = None → first.2 = w).
Proof.
  intros first second. subst first second.
  rewrite !rmdir_returns. simpl. split_and!; try done.
  - intros ->. apply rmdir_state_again.
  - intros -> Hnone. unfold rmdir_state. simpl.
    rewrite bool_decide_false; [done|]. rewrite Hnone. by intros [? ?].
Qed.

(** ** Teardown *)


Lemma leave_with_TmpDir_exit t body w :
  wp (leave_with (TmpDir_exit t) body)
     (fun _ w' => fs w' !! key w' (wd_src t) ≠ Some Dir) w.
Proof.
  unfold wp, leave_with, TmpDir_exit, mbind, M_bind, mret, M_ret.
  destruct (body w) as [[e|[]] w1]; rewrite rmdir_returns; simpl.
  all: unfold rmdir_state; simpl.
  all: case_bool_decide as Hp.
  all: try (unfold key; rewrite rmtree_ignoring_cwd; apply rmtree_ignoring_gone).
  all: intros Hd; apply Hp; by rewrite Hd.
Qed.

(** [rmdir] removes at most one tree. *)
Lemma rmdir_state_trace t rm_parent w :
  trace (rmdir_state t rm_parent w) = trace w ∨
  ∃ k, trace (rmdir_state t rm_parent w) = trace w ++ [RemovedTree k].
Proof.
  unfold rmdir_state, rmtree_ignoring.
  repeat case_match; simpl; eauto.
Qed.


(** ** Strings and paths *)

Lemma endswith_true (s suf : str) : endswith s suf = true ↔ ∃ k, s = k ++ suf.
Proof. unfold endswith. rewrite bool_decide_eq_true. reflexivity. Qed.

Lemma endswith_app (k suf : str) : endswith (k ++ suf) suf = true.
Proof. apply endswith_true. by exists k. Qed.

Lemma last_chars_app (k suf : str) :
  suf ≠ [] → last_chars (length suf) (k ++ suf) = suf.
Proof.
  intros Hs. unfold last_chars. destruct (length suf) eqn:Hl.
  - by destruct suf.
  - rewrite <- Hl, length_app.
    replace (length k + length suf - length suf) with (length k) by lia.
    by rewrite drop_app_length.
Qed.

Lemma drop_last_app (k suf : str) :
  suf ≠ [] → drop_last (length suf) (k ++ suf) = k.
Proof.
  intros Hs. unfold drop_last. destruct (length suf) eqn:Hl.
  - by destruct suf.
  - rewrite <- Hl, length_app.
    replace (length k + length suf - length suf) with (length k) by lia.
    by rewrite take_app_length.
Qed.

(** [cut_last]. *)

Lemma cut_last_absent c (s : str) : c ∉ s → cut_last c s = ([], s).
Proof.
  induction s as [|x s IH]; [done|]. intros Hc.
  apply not_elem_of_cons in Hc as [Hx Hs]. simpl. rewrite (IH Hs).
  destruct (decide (x = c)); [congruence | done].
Qed.

Lemma cut_last_app_absent c (a b : str) :
  c ∉ b → cut_last c (a ++ b) = (fst (cut_last c a), snd (cut_last c a) ++ b).
Proof.
  intros Hb. induction a as [|x a IH]; simpl.
  - by rewrite cut_last_absent.
  - rewrite IH. destruct (cut_last c a) as [h t]. simpl.
    destruct (decide (x = c)); [done|]. by destruct h.
Qed.

Lemma cut_last_snoc c (a : str) : cut_last c (a ++ [c]) = (a ++ [c], []).
Proof.
  induction a as [|x a IH]; simpl.
  - by rewrite decide_True.
  - rewrite IH. destruct (decide (x = c)); [done|]. by destruct a.
Qed.

Lemma cut_last_spec c (s : str) :
  s = fst (cut_last c s) ++ snd (cut_last c s) ∧ (c ∉ snd (cut_last c s)) ∧
  (fst (cut_last c s) = [] ∨ ∃ h, fst (cut_last c s) = h ++ [c]).
Proof.
  induction s as [|x s (IH1 & IH2 & IH3)]; simpl.
  - split_and!; [done | apply not_elem_of_nil | by left].
  - destruct (cut_last c s) as [h t]. simpl in *.
    destruct (decide (x = c)) as [->|Hx]; simpl.
    + split_and!; [by f_equal | done |]. right.
      destruct IH3 as [-> | [h' ->]]; [by exists [] | by exists (c :: h')].
    + destruct h as [|y h]; simpl.
      * split_and!; [by f_equal | | by left].
        apply not_elem_of_cons. split; [congruence | done].
      * split_and!; [by f_equal | done |]. right.
        destruct IH3 as [? | [h' Hh']]; [done|]. exists (x :: h'). by rewrite Hh'.
Qed.

(** A suffix without [c] lies in what follows the last [c]. *)
Lemma cut_last_suffix c (s suf : str) :
  c ∉ suf → suf `suffix_of` s → suf `suffix_of` (cut_last c s).2.
Proof.
  intros Hc Hsuf. destruct (cut_last_spec c s) as (Hs & _ & Hh).
  destruct (cut_last c s) as [h t]. simpl in *.
  destruct (suffix_weak_total suf t s) as [H|H]; [done | by exists h | done |].
  destruct H as [k Hk]. destruct Hsuf as [k' Hk'].
  assert (Hh' : h = k' ++ k).
  { apply (app_inv_tail t). rewrite <- Hs, Hk', Hk. by rewrite (assoc_L (++)). }
  destruct k as [|y k _] using rev_ind.
  - exists []. by rewrite Hk.
  - exfalso. destruct Hh as [Hh | [h' Hh]]; rewrite Hh in Hh'.
    + apply (f_equal length) in Hh'. rewrite !length_app in Hh'. simpl in Hh'. lia.
    + rewrite (assoc_L (++)) in Hh'. apply app_inj_tail in Hh' as [_ <-].
      apply Hc. rewrite Hk. apply elem_of_app. left. apply elem_of_app. right. by left.
Qed.

(** [split_on] and [join_with]. *)

Lemma split_on_absent c (s : str) : c ∉ s → split_on c s = [s].
Proof.
  induction s as [|x s IH]; [done|]. intros Hc.
  apply not_elem_of_cons in Hc as [Hx Hs]. simpl. rewrite (IH Hs).
  destruct (decide (x = c)); [congruence | done].
Qed.

Lemma split_on_nonempty c (s : str) : split_on c s ≠ [].
Proof.
  induction s as [|x s IH]; [done|]. simpl.
  destruct (decide (x = c)); [done|]. by destruct (split_on c s).
Qed.

Lemma split_on_app c (a b : str) :
  split_on c (a ++ c :: b) = split_on c a ++ split_on c b.
Proof.
  induction a as [|x a IH]; simpl.
  - by rewrite decide_True.
  - rewrite IH. destruct (decide (x = c)); [done|].
    pose proof (split_on_nonempty c a). by destruct (split_on c a).
Qed.

Lemma join_with_snoc (sep : str) (xs : list str) (b : str) :
  join_with sep (xs ++ [b]) =
  match xs with [] => b | _ :: _ => (join_with sep xs ++ sep) ++ b end.
Proof.
  induction xs as [|x xs IH]; [done|].
  change ((x :: xs) ++ [b]) with (x :: (xs ++ [b])).
  destruct xs as [|y xs]; [by rewrite <- (assoc_L (++))|].
  change (join_with sep (x :: (y :: xs) ++ [b]))
    with (x ++ sep ++ join_with sep ((y :: xs) ++ [b])).
  rewrite IH.
  change (join_with sep (x :: y :: xs)) with (x ++ sep ++ join_with sep (y :: xs)).
  by rewrite <- !(assoc_L (++)).
Qed.

Lemma open_dir_app (a b : str) : open_dir b → b ≠ [] → open_dir (a ++ b).
Proof.
  intros [-> | [q ->]] Hb; [done|]. right. exists (a ++ q). by rewrite (assoc_L (++)).
Qed.

(** The components of a path with an open directory part and a last name
    without slash. *)
Lemma split_on_open (q b : str) :
  open_dir q → slash ∉ b → ∃ init, split_on slash (q ++ b) = init ++ [b].
Proof.
  intros [-> | [q' ->]] Hb.
  - exists []. by apply split_on_absent.
  - exists (split_on slash q'). rewrite <- (assoc_L (++)). simpl.
    by rewrite split_on_app, (split_on_absent _ b).
Qed.

Lemma normpath_step_plain n comps b :
  plain_name b → OsPath.normpath_step n comps b = comps ++ [b].
Proof.
  intros (_ & H1 & H2 & H3). unfold OsPath.normpath_step.
  rewrite !bool_decide_false by done. done.
Qed.

(** [normpath] keeps a plain last name and leaves an open directory part
    before it. *)
Lemma normpath_open (q b : str) :
  open_dir q → plain_name b →
  ∃ p, open_dir p ∧ OsPath.normpath (q ++ b) = p ++ b.
Proof.
  intros Hq Hb. unfold OsPath.normpath.
  destruct (q ++ b) as [|c s] eqn:Hqb.
  { destruct Hb as (_ & Hne & _). by destruct q, b. }
  rewrite <- Hqb. clear Hqb c s.
  destruct (split_on_open q b Hq (proj1 Hb)) as [init Hinit].
  rewrite Hinit, foldl_app. simpl.
  rewrite (normpath_step_plain _ _ _ Hb).
  set (n := if startswith (q ++ b) "/"%py then _ else _).
  set (comps := foldl _ _ init).
  rewrite join_with_snoc.
  match goal with
  | |- ∃ p, _ ∧ match ?X with _ => _ end = _ => set (path' := X)
  end.
  assert (Hopen : ∃ p, open_dir p ∧ path' = p ++ b).
  { subst path'. destruct comps as [|x xs].
    - exists (replicate n slash). split; [|done].
      destruct n as [|n]; [by left|]. right. exists (replicate n slash).
      by rewrite <- replicate_cons_app.
    - exists (replicate n slash ++ join_with "/"%py (x :: xs) ++ "/"%py).
      split; [|by rewrite <- !(assoc_L (++))].
      right. exists (replicate n slash ++ join_with "/"%py (x :: xs)).
      by rewrite <- !(assoc_L (++)). }
  destruct Hopen as (p & Hp & Hpb).
  exists p. split; [done|]. rewrite Hpb.
  destruct (p ++ b) eqn:Hnil; [|done].
  destruct Hb as (_ & Hne & _). by destruct p, b.
Qed.

Lemma join_open (d q b : str) :
  open_dir q → startswith (q ++ b) "/"%py = false →
  ∃ q', open_dir q' ∧ OsPath.join d (q ++ b) = q' ++ b.
Proof.
  intros Hq Hrel. unfold OsPath.join. rewrite Hrel.
  destruct (negb (truthy d) || endswith d "/"%py) eqn:Hd.
  - exists (d ++ q). split; [|by rewrite (assoc_L (++))].
    destruct Hq as [-> | [q0 ->]].
    + rewrite app_nil_r. apply orb_true_iff in Hd as [Hd|Hd].
      * left. by destruct d.
      * right. apply endswith_true in Hd as [k ->]. by exists k.
    + right. exists (d ++ q0). by rewrite (assoc_L (++)).
  - exists (d ++ "/"%py ++ q). split; [|by rewrite <- !(assoc_L (++))].
    destruct Hq as [-> | [q0 ->]].
    + right. exists d. by rewrite app_nil_r.
    + right. exists (d ++ "/"%py ++ q0). by rewrite <- !(assoc_L (++)).
Qed.

Lemma abspath_open (d q b : str) :
  open_dir q → plain_name b →
  ∃ p, open_dir p ∧ OsPath.abspath d (q ++ b) = p ++ b.
Proof.
  intros Hq Hb. unfold OsPath.abspath, OsPath.isabs.
  destruct (startswith (q ++ b) "/"%py) eqn:Habs.
  - by apply normpath_open.
  - destruct (join_open d q b Hq Habs) as (q' & Hq' & ->). by apply normpath_open.
Qed.

Lemma split_open (p b : str) :
  open_dir p → slash ∉ b → ∃ path, OsPath.split (p ++ b) = (path, b).
Proof.
  intros Hp Hb. unfold OsPath.split. rewrite (cut_last_app_absent _ _ _ Hb).
  assert (Ht : (cut_last slash p).2 = []).
  { destruct Hp as [-> | [q ->]]; [done | by rewrite cut_last_snoc]. }
  rewrite Ht. simpl. destruct (truthy _ && _); eauto.
Qed.

(** The last name of a path that ends in [.nii.gz]. *)
Lemma nii_gz_basename (src0 : str) :
  endswith src0 ".nii.gz"%py = true →
  ∃ q stem, src0 = q ++ stem ++ ".nii.gz"%py ∧ open_dir q ∧
            plain_name (stem ++ ".nii.gz"%py).
Proof.
  intros Hend. apply bool_decide_eq_true in Hend.
  destruct (cut_last_spec slash src0) as (Hs & Hno & Hh).
  assert (Hsuf : ".nii.gz"%py `suffix_of` snd (cut_last slash src0)).
  { apply cut_last_suffix; [|done]. vm_compute. intros H.
    repeat (apply elem_of_cons in H as [H|H]; [discriminate|]).
    by apply elem_of_nil in H. }
  destruct (cut_last slash src0) as [h t]. simpl in *. destruct Hsuf as [stem ->].
  exists h, stem. split_and!; [done | exact Hh |]. unfold plain_name. split_and!.
  - done.
  - by destruct stem.
  - intros H. apply (f_equal length) in H. rewrite length_app in H. simpl in H. lia.
  - intros H. apply (f_equal length) in H. rewrite length_app in H. simpl in H. lia.
Qed.

Lemma splitext_no_dot (stem : str) :
  slash ∉ stem → dot ∉ stem → OsPath.splitext stem = (stem, []).
Proof.
  intros Hs Hd. unfold OsPath.splitext.
  by rewrite (cut_last_absent _ _ Hs), (cut_last_absent _ _ Hd).
Qed.

Lemma join_endswith (path x suf : str) :
  endswith x suf = true → endswith (OsPath.join path x) suf = true.
Proof.
  intros Hx. apply endswith_true in Hx as [k ->]. unfold OsPath.join.
  repeat case_match; apply endswith_true.
  - by exists k.
  - exists (path ++ k). by rewrite (assoc_L (++)).
  - exists (path ++ "/"%py ++ k). by rewrite <- !(assoc_L (++)).
Qed.

Lemma NiiFile_fields_nii_gz (src0 : str) :
  endswith src0 ".nii.gz"%py = true →
  NiiFile_fields src0 = {| src := src0; ext := ".nii.gz"%py |}.
Proof. intros H. unfold NiiFile_fields. simpl. by rewrite H. Qed.

Lemma File_fields_nii_gz (src0 : str) :
  endswith src0 ".nii.gz"%py = true →
  File_fields src0 [] = {| src := src0; ext := ".nii.gz"%py |}.
Proof.
  intros H. unfold File_fields. simpl.
  apply endswith_true in H as [k ->].
  assert (Hgz : endswith (k ++ ".nii.gz"%py) ".gz"%py = true).
  { apply endswith_true. exists (k ++ ".nii"%py). by rewrite <- (assoc_L (++)). }
  rewrite Hgz. f_equal. apply (last_chars_app k ".nii.gz"%py). discriminate.
Qed.




Import Pipeline Traces.

(** ** What a computation adds to the trace, and what it returns *)

Section yields_rules.
Context (P : event -> Prop).

Lemma yields_weaken {A} (R R' : A -> Prop) (m : M A) :
  yields P R m → (∀ a, R a → R' a) → yields P R' m.
Proof.
  intros H HR w. eapply wp_mono; [apply H|]. simpl.
  intros r w' [Hev Hr]. split; [done|]. intros a ->. by apply HR, Hr.
Qed.

Lemma yields_ret {A} (R : A -> Prop) (a : A) : R a → yields P R (mret a).
Proof.
  intros Ha w. apply wp_ret. split.
  - exists []. by rewrite app_nil_r.
  - by intros ? [= <-].
Qed.

Lemma yields_raise {A} (R : A -> Prop) (e : exn) : yields P R (raise e).
Proof.
  intros w. apply wp_raise. split; [|done]. exists []. by rewrite app_nil_r.
Qed.

Lemma yields_gets {A} (R : A -> Prop) (f : World -> A) :
  (∀ w, R (f w)) → yields P R (gets f).
Proof.
  intros Hf w. apply wp_gets. split.
  - exists []. by rewrite app_nil_r.
  - intros ? [= <-]. apply Hf.
Qed.

Lemma yields_modify (f : World -> World) :
  (∀ w, trace (f w) = trace w) → yields P anything (modify f).
Proof.
  intros Hf w. apply wp_modify. split; [|done].
  exists []. by rewrite app_nil_r, Hf.
Qed.

Lemma yields_emit (ev : event) : P ev → yields P anything (emit ev).
Proof.
  intros Hev w. apply wp_modify. split; [|done].
  exists [ev]. split; [done|]. by constructor.
Qed.

Lemma yields_bind {A B} (R : A -> Prop) (R' : B -> Prop) (m : M A) (f : A -> M B) :
  yields P R m → (∀ a, R a → yields P R' (f a)) → yields P R' (m ≫= f).
Proof.
  intros Hm Hf w. apply wp_bind. eapply wp_mono; [apply Hm|]. simpl.
  intros [e|a] w1 [(evs & Ht & Hevs) Hr].
  - split; [eauto | done].
  - eapply wp_mono; [apply (Hf a), Hr; done|]. simpl.
    intros r w2 [(evs' & Ht' & Hevs') Hr']. split; [|done].
    exists (evs ++ evs'). rewrite Ht', Ht, (assoc_L (++)). split; [done|].
    by apply Forall_app.
Qed.

Lemma yields_try_except {A} (R : A -> Prop) (m : M A) (handler : exn -> option (M A)) :
  yields P R m → (∀ e h, handler e = Some h → yields P R h) →
  yields P R (try_except m handler).
Proof.
  intros Hm Hh w. apply wp_try_except. eapply wp_mono; [apply Hm|]. simpl.
  intros [e|a] w1 [(evs & Ht & Hevs) Hr]; [|split; eauto].
  destruct (handler e) as [h|] eqn:He; [|split; [eauto | done]].
  eapply wp_mono; [apply (Hh e h He)|]. simpl.
  intros r w2 [(evs' & Ht' & Hevs') Hr']. split; [|done].
  exists (evs ++ evs'). rewrite Ht', Ht, (assoc_L (++)). split; [done|].
  by apply Forall_app.
Qed.

Lemma yields_for_each {A} (xs : list A) (body : A -> M unit) :
  (∀ x, yields P anything (body x)) → yields P anything (for_each xs body).
Proof.
  intros Hb. induction xs as [|x xs IH]; simpl.
  - by apply yields_ret.
  - eapply yields_bind; [apply Hb | intros _ _; apply IH].
Qed.

Lemma yields_bind_ret {A B} (R : B -> Prop) (a : A) (f : A -> M B) :
  yields P R (f a) → yields P R (mret a ≫= f).
Proof. done. Qed.

Lemma yields_when (b : bool) (m : M unit) :
  yields P anything m → yields P anything (when b m).
Proof. intros Hm. destruct b; [done | by apply yields_ret]. Qed.

End yields_rules.

Ltac emits_step :=
  lazymatch goal with
  | |- yields _ _ (mbind _ (mret _)) => apply yields_bind_ret
  | |- yields _ _ (mbind _ _) => eapply (yields_bind _ anything); [| intros ? _]
  | |- yields _ _ (mret _) => apply yields_ret; exact I
  | |- yields _ _ (raise _) => apply yields_raise
  | |- yields _ _ (gets _) => apply yields_gets; intros; exact I
  | |- yields _ _ (when _ _) => apply yields_when
  | |- yields _ _ (for_each _ _) => apply yields_for_each; intros
  | |- yields _ _ (if ?b then _ else _) => destruct b
  | |- yields _ _ (match ?x with _ => _ end) => destruct x
  end.

Create HintDb emits discriminated.

Ltac emits_go :=
  repeat first
    [ emits_step
    | solve [ eauto 4 with emits nocore ]
    | solve [ apply yields_modify; intros; reflexivity ] ].

(** *** The operations of the system *)

Section primitives.
Context (P : event -> Prop) (Hq : quiet P).

Lemma quiet_MadeDirs p : P (MadeDirs p).
Proof using Hq. by apply Hq. Qed.
Lemma quiet_RemovedTree p : P (RemovedTree p).
Proof using Hq. by apply Hq. Qed.
Lemma quiet_Removed p : P (Removed p).
Proof using Hq. by apply Hq. Qed.
Lemma quiet_Copied a b : P (Copied a b).
Proof using Hq. by apply Hq. Qed.

Lemma emits_os_path_exists p : yields P anything (os_path_exists p).
Proof. unfold os_path_exists. emits_go. Qed.

Lemma emits_os_path_isdir p : yields P anything (os_path_isdir p).
Proof. unfold os_path_isdir. emits_go. Qed.

Lemma emits_os_getcwd : yields P anything os_getcwd.
Proof. unfold os_getcwd. emits_go. Qed.

Lemma emits_log_call lvl msg : yields P anything (log_call lvl msg).
Proof. by apply yields_modify. Qed.

Lemma emits_append_text p txt : yields P anything (append_text p txt).
Proof.
  unfold append_text. emits_step; [emits_go|].
  apply yields_modify. intros w. by destruct (fs w !! _) as [[|?]|].
Qed.

Lemma emits_random_randint lo hi : yields P anything (random_randint lo hi).
Proof. unfold random_randint. emits_go. Qed.

Hint Resolve emits_os_path_exists emits_os_path_isdir emits_os_getcwd emits_log_call
  emits_append_text emits_random_randint : emits.

Lemma emits_os_makedirs p : yields P anything (os_makedirs p).
Proof using Hq. unfold os_makedirs. emits_go. apply yields_emit, quiet_MadeDirs. Qed.

Lemma emits_shutil_rmtree p ig : yields P anything (shutil_rmtree p ig).
Proof using Hq. unfold shutil_rmtree. emits_go. apply yields_emit, quiet_RemovedTree. Qed.

Lemma emits_os_remove p : yields P anything (os_remove p).
Proof using Hq. unfold os_remove. emits_go. apply yields_emit, quiet_Removed. Qed.

Lemma emits_shutil_copy a b : yields P anything (shutil_copy a b).
Proof using Hq. unfold shutil_copy. emits_go. apply yields_emit, quiet_Copied. Qed.

Lemma emits_os_chdir p : yields P anything (os_chdir p).
Proof. unfold os_chdir. emits_go. Qed.

End primitives.

#[export] Hint Resolve emits_os_path_exists emits_os_path_isdir emits_os_getcwd
  emits_log_call emits_append_text emits_random_randint emits_os_makedirs
  emits_shutil_rmtree emits_os_remove emits_shutil_copy emits_os_chdir : emits.

(** *** The commands of the pipeline *)

Lemma pipeline_event_quiet : quiet pipeline_event.
Proof. intros ev Hev argv rc ->. by destruct (Hev argv rc). Qed.

Lemma pipeline_event_invoked argv rc : pipeline_command argv → pipeline_event (Invoked argv rc).
Proof. by intros H ? ? [= <- _]. Qed.

#[export] Hint Resolve pipeline_event_quiet : emits.

Lemma emits_run_cmd_list (P : event -> Prop) argv l :
  (∀ rc, P (Invoked argv rc)) → yields P anything (run_cmd_list argv l).
Proof.
  intros HP w. unfold run_cmd_list. apply wp_bind.
  eapply wp_mono; [apply run_argv_spawns; by right|]. simpl.
  intros r w' (rc & Ht & _).
  assert (Hev : ∃ evs, trace w' = trace w ++ evs ∧ Forall P evs).
  { exists [Invoked argv rc]. split; [done|]. constructor; [apply HP | constructor]. }
  destruct r as [e|a]; [done|]. by apply wp_ret.
Qed.

Ltac plain_tool :=
  solve [ cbn [app]; apply pipeline_event_invoked, pc_tool;
          repeat first [apply list_elem_of_here | apply list_elem_of_further] ].

Ltac emits_run := apply emits_run_cmd_list; intros ?.

Section stages.
#[local] Abbreviation P := pipeline_event.

Lemma emits_file_parts f e : yields P anything (file_parts f e).
Proof. unfold file_parts. emits_go. Qed.

Lemma emits_abspath f : yields P anything (abspath f).
Proof. unfold abspath. emits_go. Qed.

Lemma emits_File_init s e a : yields P anything (File_init s e a).
Proof. unfold File_init. emits_go. Qed.

Hint Resolve emits_file_parts emits_abspath emits_File_init : emits.

Lemma emits_LogFile_init s : yields P anything (LogUtil.LogFile_init s).
Proof. unfold LogUtil.LogFile_init. emits_go. Qed.

Hint Resolve emits_LogFile_init : emits.

Lemma emits_log_sink l : yields P anything (log_sink l).
Proof. unfold log_sink. emits_go. Qed.

Lemma emits_exists_ t : yields P anything (exists_ t).
Proof. unfold exists_. emits_go. Qed.

Hint Resolve emits_log_sink emits_exists_ : emits.

Lemma emits_mkdir t : yields P anything (mkdir t).
Proof. unfold mkdir. emits_go. Qed.

Lemma emits_rmdir t b : yields P anything (rmdir t b).
Proof. unfold rmdir. emits_go. Qed.

Lemma emits_WorkDir_init s b : yields P anything (WorkDir_init s b).
Proof. unfold WorkDir_init. emits_go. Qed.

Hint Resolve emits_mkdir emits_rmdir emits_WorkDir_init : emits.

Lemma emits_TmpDir_init s b : yields P anything (TmpDir_init s b).
Proof. unfold TmpDir_init. emits_go. Qed.

Lemma emits_TmpFile a b : yields P anything (TmpFile a b).
Proof. unfold TmpFile, TmpFile_init. emits_go. Qed.

Lemma emits_check_dependency n : yields P anything (check_dependency n).
Proof. unfold check_dependency. emits_go. Qed.

Lemma emits_ReconMRtrix_init a b c j l : yields P anything (ReconMRtrix_init a b c j l).
Proof. unfold ReconMRtrix_init. emits_go. Qed.

Lemma emits_DWIxfm_init a b c d e f g h : yields P anything (DWIxfm_init a b c d e f g h).
Proof. unfold DWIxfm_init. emits_go. Qed.

Hint Resolve emits_TmpDir_init emits_TmpFile emits_check_dependency
  emits_ReconMRtrix_init emits_DWIxfm_init : emits.

(** [nifti_to_mif] returns a [Mif] object. *)
Lemma emits_nifti_to_mif self force gzip :
  yields P (fun f => ∃ p, f = Mif p gzip) (nifti_to_mif self force gzip).
Proof.
  unfold nifti_to_mif.
  eapply (yields_bind _ anything); [emits_go | intros p _]. cbv zeta.
  eapply (yields_bind _ anything); [emits_run; plain_tool | intros _ _].
  apply yields_ret. by exists p.
Qed.

(** From here on a [Mif] file is known as such where it is made. *)
Ltac emits_stage :=
  repeat first
    [ lazymatch goal with
      | |- yields _ _ (mbind _ (nifti_to_mif _ _ _)) =>
          eapply (yields_bind _ _);
          [ apply emits_nifti_to_mif
          | let H := fresh in intros ? H; cbv beta in H; destruct H as [? ->] ]
      end
    | emits_step
    | solve [ eauto 4 with emits nocore ]
    | solve [ apply yields_modify; intros; reflexivity ] ].

Lemma emits_estimate_response self mif method force :
  yields P anything (estimate_response self mif method force).
Proof. unfold estimate_response. emits_go. cbv zeta. emits_go. emits_run. plain_tool. Qed.

Hint Resolve emits_estimate_response : emits.

Lemma emits_mr_upsample_mif self p g vox interp gz :
  yields P anything (mr_upsample self (Mif p g) vox interp gz).
Proof.
  unfold mr_upsample. emits_go.
  all: cbv zeta; apply yields_try_except;
    [|intros e h; destruct e; intros [= <-]]; emits_go; emits_run;
    apply pipeline_event_invoked; first [apply pc_mrresize_mif | apply pc_mrgrid_mif].
Qed.

Lemma emits_mr_upsample_nearest self mif vox gz :
  yields P anything (mr_upsample self mif vox (Some "nearest"%py) gz).
Proof.
  unfold mr_upsample. emits_go.
  all: cbv zeta; apply yields_try_except;
    [|intros e h; destruct e; intros [= <-]]; emits_go; emits_run;
    apply pipeline_event_invoked; first [apply pc_mrresize_nearest | apply pc_mrgrid_nearest].
Qed.

Lemma emits_create_mask self mif frac gz cl :
  yields P anything (create_mask self mif frac gz cl).
Proof. unfold create_mask. emits_go. cbv zeta. emits_go. all: emits_run; plain_tool. Qed.

Lemma emits_ss3t_csd self mif mask a b c gz :
  yields P anything (ss3t_csd self mif mask a b c gz).
Proof. unfold ss3t_csd. emits_go. cbv zeta. emits_go. emits_run. plain_tool. Qed.

Lemma emits_bias_field_correction self a b c mask gz :
  yields P anything (bias_field_correction self a b c mask gz).
Proof.
  unfold bias_field_correction. emits_go. all: cbv zeta; emits_go; emits_run; plain_tool.
Qed.

Lemma emits_compute_dec_map sd self a b c mask gz :
  yields P anything (compute_dec_map sd self a b c mask gz).
Proof.
  unfold compute_dec_map. emits_go. all: cbv zeta; emits_go.
  all: emits_run; first [plain_tool | apply pipeline_event_invoked, pc_script].
Qed.

Lemma emits_mr_tck_global self a mask n c : yields P anything (mr_tck_global self a mask n c).
Proof. unfold mr_tck_global. emits_go. cbv zeta. emits_go. emits_run. plain_tool. Qed.

Lemma emits_mr_tck_sift self a b t mask : yields P anything (mr_tck_sift self a b t mask).
Proof. unfold mr_tck_sift. emits_go. cbv zeta. emits_go. emits_run. plain_tool. Qed.

Lemma emits_compute_diff_metrics self dwi mask fa md ad rd cl force :
  yields P anything (compute_diff_metrics self dwi mask fa md ad rd cl force).
Proof.
  unfold compute_diff_metrics. emits_go. cbv zeta. emits_go.
  all: emits_run; unfold dwi2tensor_argv, tensor2metric_argv; plain_tool.
Qed.

Lemma emits_weighted_pass self tck labels tmp sym zd force item :
  yields P anything (weighted_pass self tck labels tmp sym zd force item).
Proof.
  unfold weighted_pass. emits_go.
  all: emits_run; unfold tcksample_argv, tck2connectome_argv; plain_tool.
Qed.

Lemma emits_weighting_items maps fa md ad rd a b c d :
  yields P anything (weighting_items maps fa md ad rd a b c d).
Proof. unfold weighting_items. emits_go. Qed.

Hint Resolve emits_create_mask emits_ss3t_csd emits_bias_field_correction
  emits_compute_dec_map emits_mr_tck_global emits_mr_tck_sift emits_compute_diff_metrics
  emits_weighted_pass emits_weighting_items : emits.

Lemma emits_unweighted_stage self tck labels dwi mask sym zd fa md ad rd cl force :
  yields P anything (unweighted_stage self tck labels dwi mask sym zd fa md ad rd cl force).
Proof.
  unfold unweighted_stage. emits_go. all: cbv zeta; emits_go.
  all: emits_run; unfold tck2connectome_argv; plain_tool.
Qed.

Hint Resolve emits_unweighted_stage : emits.

Lemma emits_structural_connectome self tck labels dwi mask sym zd fa md ad rd cl force :
  yields P anything
    (structural_connectome self tck labels dwi mask sym zd fa md ad rd cl force).
Proof. unfold structural_connectome. emits_go. Qed.

Lemma emits_mask_dwi self frac : yields P anything (mask_dwi self frac).
Proof.
  unfold mask_dwi. emits_stage. all: emits_run; plain_tool.
Qed.

Lemma emits_compute_linear_xfm_12 self brain :
  yields P anything (compute_linear_xfm self brain 12).
Proof.
  unfold compute_linear_xfm. emits_go. cbv zeta. emits_go.
  emits_run. apply pipeline_event_invoked, pc_flirt.
Qed.

Lemma emits_compute_non_linear_xfm self m h :
  yields P anything (compute_non_linear_xfm self m h).
Proof. unfold compute_non_linear_xfm. emits_go. cbv zeta. emits_go. emits_run. plain_tool. Qed.

Lemma emits_applywarp_nn self h wp :
  yields P anything (applywarp self h wp "nn"%py true None).
Proof.
  unfold applywarp. emits_go. cbv zeta. emits_go.
  emits_run. apply pipeline_event_invoked, pc_applywarp.
Qed.

Hint Resolve emits_structural_connectome emits_mask_dwi emits_compute_linear_xfm_12
  emits_compute_non_linear_xfm emits_applywarp_nn : emits.

Lemma emits_compute_xfm inp json log0 wd uc dof frac :
  yields P anything (compute_xfm inp json log0 wd uc dof frac).
Proof. unfold compute_xfm. emits_go. Qed.

Hint Resolve emits_compute_xfm : emits.

Lemma emits_create_structural_connectome sd inp cfg :
  yields P anything (create_structural_connectome sd inp cfg).
Proof.
  unfold create_structural_connectome. emits_stage.
  all: first [apply emits_mr_upsample_mif | apply emits_mr_upsample_nearest].
Qed.

Lemma emits_copy_out d f : yields P anything (copy_out d f).
Proof. unfold copy_out. emits_go. Qed.

Hint Resolve emits_create_structural_connectome emits_copy_out : emits.

Lemma emits_copy_out_if_present d f : yields P anything (copy_out_if_present d f).
Proof. unfold copy_out_if_present. emits_go. Qed.

Hint Resolve emits_copy_out_if_present : emits.

Lemma emits_main_stages sd args : yields P anything (main_stages sd args).
Proof. unfold main_stages. emits_go. Qed.

Hint Resolve emits_main_stages : emits.

Lemma emits_main sd args : yields P anything (main sd args).
Proof. unfold main. emits_go. Qed.

End stages.

(** ** The registration and resampling commands of a run *)

Lemma not_in_plain_tools name :
  name ∈ plain_tools → bool_decide (name ∈ plain_tools) = true.
Proof. by intros; apply bool_decide_eq_true. Qed.

Lemma script_name_differs scripts_dir name :
  endswith name "dwi_extra.sh"%py = false →
  OsPath.join scripts_dir "dwi_extra.sh"%py ≠ name.
Proof.
  intros Hn Heq. rewrite <- Heq in Hn.
  by rewrite (join_endswith _ _ "dwi_extra.sh"%py) in Hn.
Qed.

Lemma endswith_clash (s a b : str) :
  endswith s a = true → endswith s b = true → endswith a b || endswith b a = true.
Proof.
  unfold endswith. rewrite !bool_decide_eq_true. intros Ha Hb.
  destruct (suffix_weak_total a b s Ha Hb) as [H|H].
  - apply orb_true_iff. right. by apply bool_decide_eq_true.
  - apply orb_true_iff. left. by apply bool_decide_eq_true.
Qed.

Lemma NiiFile_fields_name (s : str) : is_nifti_name (src (NiiFile_fields s)).
Proof.
  unfold NiiFile_fields, is_nifti_name. cbn [File_fields src].
  destruct (endswith s ".nii.gz"%py) eqn:H1; [by right|].
  destruct (endswith s ".nii"%py) eqn:H2; [by left|].
  right. apply endswith_app.
Qed.

Lemma Mif_name (p : str) (g : bool) :
  endswith (src (Mif p g)) ".mif"%py = true ∨ endswith (src (Mif p g)) ".mif.gz"%py = true.
Proof.
  unfold Mif. destruct (contains p ".gz"%py), g; cbn [File_fields src];
    first [left; apply endswith_app | right; apply endswith_app].
Qed.

Lemma Mif_not_nifti (p : str) (g : bool) : ¬ is_nifti_name (src (Mif p g)).
Proof.
  intros [Hn|Hn]; destruct (Mif_name p g) as [Hm|Hm];
    pose proof (endswith_clash _ _ _ Hn Hm) as H; vm_compute in H; discriminate.
Qed.

Lemma pipeline_command_flirt args :
  pipeline_command ("flirt"%py :: args) → flirt_with_12_dof ("flirt"%py :: args).
Proof.
  intros H. remember ("flirt"%py :: args) as argv eqn:Hargv.
  destruct H as [name args0 Hin|sd args0|tb db path filename ext0|l h wp out
                 |p g vox out interp|p g vox out interp|input vox out|input vox out].
  - injection Hargv as -> _. apply not_in_plain_tools in Hin. vm_compute in Hin. discriminate.
  - injection Hargv as Hn _. by apply script_name_differs in Hn.
  - split; [by exists tb, db, path, filename, ext0|].
    eexists. split; [reflexivity|]. unfold lin_xfm_mat. cbn [File_fields src].
    apply join_endswith. apply endswith_true. exists filename.
    rewrite <- (assoc_L (++) filename). f_equal.
  - discriminate.
  - discriminate.
  - discriminate.
  - discriminate.
  - discriminate.
Qed.

Lemma pipeline_command_label argv : pipeline_command argv → label_command argv.
Proof.
  intros H.
  destruct H as [name args0 Hin|sd args0|tb db path filename ext0|l h wp out
                 |p g vox out interp|p g vox out interp|input vox out|input vox out].
  - apply not_in_plain_tools in Hin. split.
    + intros [= ->]. vm_compute in Hin. discriminate.
    + intros [[= ->]|[= ->]]; vm_compute in Hin; discriminate.
  - split.
    + intros [= Hn]. by apply script_name_differs in Hn.
    + intros [[= Hn]|[= Hn]]; by apply script_name_differs in Hn.
  - split; [discriminate|]. intros [?|?]; discriminate.
  - split; [|intros [?|?]; discriminate]. intros _. split.
    + unfold applywarp_argv. cbn [app truthy].
      do 5 apply list_elem_of_further. apply list_elem_of_here.
    + intros X HX. unfold applywarp_argv in HX. cbn [app truthy] in HX.
      repeat (apply elem_of_cons in HX as [HX|HX]; [try discriminate|]).
      * injection HX as ->. apply NiiFile_fields_name.
      * by apply elem_of_nil in HX.
  - split; [discriminate|]. intros _ input [= <-] Hn. by apply Mif_not_nifti in Hn.
  - split; [discriminate|]. intros _ input [= <-] Hn. by apply Mif_not_nifti in Hn.
  - split; [discriminate|]. intros _ _ _ _. by eexists.
  - split; [discriminate|]. intros _ _ _ _. by eexists.
Qed.

Lemma yields_events {A} (P Q : event -> Prop) (R : A -> Prop) (m : M A) :
  yields P R m → (∀ ev, P ev → Q ev) → yields Q R m.
Proof.
  intros H HPQ w. eapply wp_mono; [apply H|]. simpl.
  intros r w' [(evs & Ht & Hevs) Hr]. split; [|done].
  exists evs. split; [done|]. eapply Forall_impl; eauto.
Qed.

Lemma pipeline_event_flirt ev : pipeline_event ev → flirt_event ev.
Proof. intros H args rc ->. apply pipeline_command_flirt. by apply (H _ rc). Qed.


(** The run of [Demo.args], which asks for six degrees of freedom, calls
    [flirt] for twelve. *)
Lemma demo_run_registers_with_12_dof :
  Pipeline.dof (Pipeline.a_config Demo.args) = 6%Z ∧
  Invoked ["flirt"%py; "-in"%py; "/atlas/template_brain.nii.gz"%py; "-ref"%py;
           "/out/work.tmp/tmp_dir_42/dwi_brain.nii.gz"%py; "-omat"%py;
           "/out/work.tmp/tmp_dir_42/dwi.lin_xfm_12_dof.mat"%py; "-out"%py;
           "/out/work.tmp/tmp_dir_42/dwi.lin_xfm_12_dof.nii.gz"%py] 0
  ∈ trace (main "/opt/xfm"%py Demo.args (Demo.start Demo.tools_succeed)).2.
Proof.
  split; [reflexivity|]. apply (bool_decide_unpack _). vm_compute. exact I.
Qed.

Lemma pipeline_events_labels (evs : list event) :
  Forall pipeline_event evs → labels_nearest_neighbour evs.
Proof.
  intros Hevs. rewrite Forall_forall in Hevs. split.
  - intros argv rc Hin Hhead.
    by apply (pipeline_command_label argv (Hevs _ Hin _ _ eq_refl)).
  - intros argvA rcA X argvR rcR HinA HheadA Hout HinR Hres Hinput.
    destruct (pipeline_command_label argvA (Hevs _ HinA _ _ eq_refl)) as [HA _].
    destruct (pipeline_command_label argvR (Hevs _ HinR _ _ eq_refl)) as [_ HR].
    apply (HR Hres X Hinput). by apply (HA HheadA).
Qed.

Lemma yields_labels {A} (m : M A) (w : World) :
  yields pipeline_event anything m →
  wp m (fun _ w' => ∃ evs, trace w' = trace w ++ evs ∧ labels_nearest_neighbour evs) w.
Proof.
  intros H. eapply wp_mono; [apply H|]. simpl.
  intros r w' [(evs & Ht & Hevs) _]. exists evs. split; [done|].
  by apply pipeline_events_labels.
Qed.


(** Both commands are there in the run of [Demo.args]. *)
Lemma demo_run_resamples_labels :
  let t := trace (main "/opt/xfm"%py Demo.args (Demo.start Demo.tools_succeed)).2 in
  Invoked ["applywarp"%py; "--in=/atlas/labels.nii.gz"%py;
           "--ref=/out/work.tmp/tmp_dir_42/dwi_head.nii.gz"%py;
           "--warp=/out/work.tmp/tmp_dir_42/dwi.non-lin_xfm.warp_field.nii.gz"%py;
           "--out=/out/work.tmp/tmp_dir_42/dwi.labels.non-linear.nii.gz"%py;
           "--interp=nn"%py; "--rel"%py] 0 ∈ t ∧
  Invoked ["mrresize"%py; "/out/work.tmp/tmp_dir_42/dwi.labels.non-linear.nii.gz"%py;
           "-vox"%py; "1.5"%py;
           "/out/work.tmp/tmp_dir_42/dwi.labels_upsampled.mif.gz"%py;
           "-interp"%py; "nearest"%py] 0 ∈ t.
Proof.
  intros t. split; apply (bool_decide_unpack _); vm_compute; exact I.
Qed.

(** ** The connectome stage *)

Lemma wp_run_cmd_list argv (l : File) (Q : exn + unit -> World -> Prop) w :
  (∀ w', trace w' = trace w ++ [Invoked argv 0] → cwd w' = cwd w → Q (inr tt) w') →
  (∀ rc w', rc ≠ 0%Z → trace w' = trace w ++ [Invoked argv rc] → cwd w' = cwd w →
     last (log w') = Some (error, Cmd.failed_msg (tool_command argv) rc) →
     Q (inl (tool_error argv rc)) w') →
  wp (run_cmd_list argv l) Q w.
Proof.
  intros H0 H1. unfold run_cmd_list. apply wp_bind.
  eapply wp_mono; [apply run_argv_spawns; by right|].
  intros r w' (rc & Ht & _ & Hc & _ & _ & Hz & Hnz).
  destruct (decide (rc = 0%Z)) as [->|Hrc].
  - destruct (Hz eq_refl) as (o & e & ->). apply wp_ret. by apply H0.
  - destruct (Hnz Hrc) as (Hl & Hr & _). rewrite (Hr eq_refl).
    apply H1; auto.
Qed.

Lemma wp_os_remove p (Q : exn + unit -> World -> Prop) w :
  (∀ w', trace w' = trace w ++ [Removed (key w p)] → cwd w' = cwd w →
     fs w' !! key w p = None → Q (inr tt) w') →
  (∀ e, Q (inl e) w) →
  wp (os_remove p) Q w.
Proof.
  intros Hok Hraise. unfold os_remove. apply wp_bind, wp_gets, wp_bind, wp_gets.
  destruct (fs w !! key w p) as [[|c]|].
  - apply wp_raise, Hraise.
  - apply wp_bind, wp_modify, wp_modify. apply Hok; simpl; [done..|].
    apply lookup_delete_eq.
  - apply wp_raise, Hraise.
Qed.

Lemma wp_file_parts f e (Q : exn + str * str * str -> World -> Prop) w :
  Q (inr (file_parts_in (cwd w) f e)) w → wp (file_parts f e) Q w.
Proof. done. Qed.

(** One pass: it returns after its three steps, or it raises; when it raises
    right after an invocation that exited with a non-zero status, the error
    is the one of that invocation and is the last line logged. *)
Lemma wp_weighted_pass self tck labels tmp sym zd force item w :
  wp (weighted_pass self tck labels tmp sym zd force item)
     (fun r w' =>
        (∃ evs, trace w' = trace w ++ evs) ∧ cwd w' = cwd w ∧
        match r with
        | inr _ => trace w' = trace w ++ pass_events (cwd w) tck labels tmp sym zd force item ∧
                   fs w' !! key w' (src tmp) = None
        | inl e => ∀ argv rc, last (trace w') = Some (Invoked argv rc) → rc ≠ 0%Z →
                     e = tool_error argv rc ∧
                     last (log w') = Some (error, Cmd.failed_msg (tool_command argv) rc)
        end) w.
Proof.
  unfold weighted_pass. apply wp_bind, wp_run_cmd_list.
  - intros w1 Ht1 Hc1. apply wp_bind, wp_run_cmd_list.
    + intros w2 Ht2 Hc2. apply wp_os_remove.
      * intros w3 Ht3 Hc3 Hfs. split_and!.
        -- eexists. by rewrite Ht3, Ht2, Ht1, <- !(assoc_L (++)).
        -- congruence.
        -- rewrite Ht3, Ht2, Ht1, <- !(assoc_L (++)). unfold key. by rewrite Hc2, Hc1.
        -- unfold key in *. by rewrite Hc3.
      * intros e. split_and!.
        -- eexists. by rewrite Ht2, Ht1, <- !(assoc_L (++)).
        -- congruence.
        -- intros argv rc Hlast Hrc. rewrite Ht2, last_snoc in Hlast. congruence.
    + intros rc w2 Hrc Ht2 Hc2 Hl2. split_and!.
      * eexists. by rewrite Ht2, Ht1, <- !(assoc_L (++)).
      * congruence.
      * intros argv rc' Hlast _. rewrite Ht2, last_snoc in Hlast. by simplify_eq.
  - intros rc w1 Hrc Ht1 Hc1 Hl1. split_and!.
    + by eexists.
    + done.
    + intros argv rc' Hlast _. rewrite Ht1, last_snoc in Hlast. by simplify_eq.
Qed.

(** The loop, when it returns. *)
Lemma for_each_weighted_pass self tck labels tmp sym zd force items w w' :
  for_each items (weighted_pass self tck labels tmp sym zd force) w = (inr tt, w') →
  trace w' = trace w ++ concat (pass_events (cwd w) tck labels tmp sym zd force <$> items) ∧
  cwd w' = cwd w ∧
  (items ≠ [] → fs w' !! key w' (src tmp) = None).
Proof.
  revert w. induction items as [|item items IH]; intros w Hrun.
  - injection Hrun as <-. by rewrite app_nil_r.
  - simpl in Hrun. unfold mbind, M_bind in Hrun.
    pose proof (wp_weighted_pass self tck labels tmp sym zd force item w) as Hp.
    unfold wp in Hp.
    destruct (weighted_pass self tck labels tmp sym zd force item w) as [[e|[]] w1];
      [done|].
    simpl in Hp. destruct Hp as (_ & Hc1 & Ht1 & Hfs1).
    destruct (IH w1 Hrun) as (Ht & Hc & Hfs). split_and!.
    + rewrite Ht, Ht1, Hc1. simpl. by rewrite <- !(assoc_L (++)).
    + congruence.
    + intros _. destruct items as [|item' items]; [|by apply Hfs].
      injection Hrun as <-. done.
Qed.

Lemma wp_compute_diff_metrics self dwi mask fa md ad rd cleanup force w :
  wp (compute_diff_metrics self dwi mask fa md ad rd cleanup force)
     (fun r w' =>
        cwd w' = cwd w ∧
        ∃ evs, trace w' = trace w ++ evs ∧
          ∀ a, r = inr a →
            a = (map_file (cwd w) self dwi ".fa"%py, map_file (cwd w) self dwi ".md"%py,
                 map_file (cwd w) self dwi ".ad"%py, map_file (cwd w) self dwi ".rd"%py) ∧
            Invoked (metrics_command (cwd w) self dwi fa md ad rd) 0 ∈ evs) w.
Proof.
  unfold compute_diff_metrics, metrics_command, map_file, stem_of.
  apply wp_bind, wp_file_parts.
  destruct (file_parts_in (cwd w) (nii_file self) []) as [[path filename] e0].
  cbn [fst snd]. cbv zeta.
  apply wp_bind, wp_run_cmd_list.
  - intros w1 Ht1 Hc1. apply wp_bind, wp_run_cmd_list.
    + intros w2 Ht2 Hc2. apply wp_bind, wp_when.
      * intros _. apply wp_os_remove.
        -- intros w3 Ht3 Hc3 _. apply wp_ret. split; [congruence|].
           eexists. split; [by rewrite Ht3, Ht2, Ht1, <- !(assoc_L (++))|].
           intros a [= <-]. split; [done|]. set_solver.
        -- intros e. split; [congruence|].
           eexists. split; [by rewrite Ht2, Ht1, <- !(assoc_L (++))|]. done.
      * intros _. apply wp_ret. split; [congruence|].
        eexists. split; [by rewrite Ht2, Ht1, <- !(assoc_L (++))|].
        intros a [= <-]. split; [done|]. set_solver.
    + intros rc w2 _ Ht2 Hc2 _. split; [congruence|].
      eexists. split; [by rewrite Ht2, Ht1, <- !(assoc_L (++))|]. done.
  - intros rc w1 _ Ht1 Hc1 _. split; [done|]. eexists. split; [done|]. done.
Qed.

(** The first part of [structural_connectome], when it returns: the names,
    the work left for the loop, and the unweighted connectome built last. *)
Lemma unweighted_stage_returns self tck labels dwi mask sym zd fa md ad rd cleanup force
    w a w' :
  unweighted_stage self tck labels dwi mask sym zd fa md ad rd cleanup force w
    = (inr a, w') →
  cwd w' = cwd w ∧
  ∃ before items,
    a = (out_file (cwd w) self ".structural_connectome"%py,
         out_file (cwd w) self ".structural_connectome.fa_weighted"%py,
         out_file (cwd w) self ".structural_connectome.md_weighted"%py,
         out_file (cwd w) self ".structural_connectome.ad_weighted"%py,
         out_file (cwd w) self ".structural_connectome.rd_weighted"%py,
         sample_file (cwd w) self, items) ∧
    trace w' = trace w ++ before ++
      [Invoked (tck2connectome_argv tck labels
                  (out_file (cwd w) self ".structural_connectome"%py) [] sym zd force) 0] ∧
    (fa || md || ad || rd = true →
       ∃ d, dwi = Some d ∧ items = enabled_items (cwd w) self d fa md ad rd ∧
            Invoked (metrics_command (cwd w) self d fa md ad rd) 0 ∈ before).
Proof.
  intros Hrun.
  cut (wp (unweighted_stage self tck labels dwi mask sym zd fa md ad rd cleanup force)
          (fun r w' => ∀ a, r = inr a →
             cwd w' = cwd w ∧
             ∃ before items,
               a = (out_file (cwd w) self ".structural_connectome"%py,
                    out_file (cwd w) self ".structural_connectome.fa_weighted"%py,
                    out_file (cwd w) self ".structural_connectome.md_weighted"%py,
                    out_file (cwd w) self ".structural_connectome.ad_weighted"%py,
                    out_file (cwd w) self ".structural_connectome.rd_weighted"%py,
                    sample_file (cwd w) self, items) ∧
               trace w' = trace w ++ before ++
                 [Invoked (tck2connectome_argv tck labels
                    (out_file (cwd w) self ".structural_connectome"%py) [] sym zd force) 0] ∧
               (fa || md || ad || rd = true →
                  ∃ d, dwi = Some d ∧ items = enabled_items (cwd w) self d fa md ad rd ∧
                       Invoked (metrics_command (cwd w) self d fa md ad rd) 0 ∈ before)) w).
  { intros H. by apply (wp_elim _ _ _ _ _ H Hrun). }
  clear Hrun a w'.
  unfold unweighted_stage, enabled_items, metrics_command, out_file, map_file,
    sample_file, stem_of.
  apply wp_bind, wp_file_parts.
  destruct (file_parts_in (cwd w) (nii_file self) []) as [[path filename] e0] eqn:Hfp.
  cbn [fst snd]. cbv zeta.
  apply wp_bind.
  destruct (fa || md || ad || rd) eqn:Hflags; [destruct dwi as [d|]|].
  - apply wp_bind. eapply wp_mono; [apply wp_compute_diff_metrics|].
    intros r w1 (Hc1 & evs & Ht1 & Hr). destruct r as [e|maps]; [done|].
    destruct (Hr _ eq_refl) as [-> Hin]. clear Hr.
    unfold metrics_command, map_file, stem_of in *. rewrite Hfp in *.
    cbn [fst snd] in *.
    apply wp_ret.
    apply wp_bind, wp_run_cmd_list; [|done].
    intros w2 Ht2 Hc2. apply wp_bind, wp_ret, wp_ret.
    intros a [= <-]. split; [congruence|].
    exists evs. eexists. split; [done|]. split.
    { by rewrite Ht2, Ht1, <- !(assoc_L (++)). }
    intros _. exists d. by split_and!.
  - apply wp_ret, wp_bind, wp_run_cmd_list; [|done].
    intros w2 Ht2 Hc2. apply wp_bind.
    destruct fa, md, ad, rd; try done; by apply wp_raise.
  - apply wp_ret, wp_bind, wp_run_cmd_list; [|done].
    intros w2 Ht2 Hc2. apply wp_bind.
    destruct fa, md, ad, rd; try done. apply wp_ret, wp_ret.
    intros a [= <-]. split; [done|]. exists []. eexists. split; [done|]. split; done.
Qed.

Lemma run_result {X : Type} (m : M X) (w : World) (r : exn + X) :
  (m w).1 = r → m w = (r, (m w).2).
Proof. intros <-. apply surjective_pairing. Qed.

Lemma for_each_app {X : Type} (xs ys : list X) (body : X -> M unit) w :
  for_each (xs ++ ys) body w = (for_each xs body ;; for_each ys body) w.
Proof.
  revert w. induction xs as [|x xs IH]; intros w; [done|].
  simpl. unfold mbind, M_bind in *. destruct (body x w) as [[e|[]] w1]; [done|].
  apply IH.
Qed.

(** C2, as the code has it.  Take a run of [structural_connectome] with a
    weighting flag set, in which the first part has returned (so the
    unweighted connectome is built), the passes of [pre] have returned, and
    the pass of [item] raises right after an invocation that exited with the
    non-zero status [rc].  Then the failure is reported: it is the last line
    of the log, at error severity, and the exception is the [RuntimeError]
    of that invocation.  The unweighted connectome is complete.  But the
    run ends there with that exception, in the state the failed pass left:
    the passes of [post] are never started. *)
Theorem failed_pass_ends_structural_connectome
    self tck labels dwi mask sym zd fa md ad rd cleanup force
    (w : World) c fa_c md_c ad_c rd_c tmp pre item post (w0 w1 : World) e (w2 : World)
    argv rc :
  fa || md || ad || rd = true →
  unweighted_stage self tck labels dwi mask sym zd fa md ad rd cleanup force w
    = (inr (c, fa_c, md_c, ad_c, rd_c, tmp, pre ++ item :: post), w0) →
  for_each pre (weighted_pass self tck labels tmp sym zd force) w0 = (inr tt, w1) →
  weighted_pass self tck labels tmp sym zd force item w1 = (inl e, w2) →
  last (trace w2) = Some (Invoked argv rc) → rc ≠ 0%Z →
  (e = tool_error argv rc ∧
   last (log w2) = Some (error, Cmd.failed_msg (tool_command argv) rc)) ∧
  Invoked (tck2connectome_argv tck labels c [] sym zd force) 0 ∈ trace w2 ∧
  structural_connectome self tck labels dwi mask sym zd fa md ad rd cleanup force w
    = (inl e, w2).
Proof.
  intros Hflags Hstage Hpre Hpass Hlast Hrc.
  pose proof (wp_weighted_pass self tck labels tmp sym zd force item w1) as Hp.
  apply (fun H => wp_elim _ _ _ _ _ H Hpass) in Hp. simpl in Hp.
  destruct Hp as ((evs2 & Ht2) & _ & Hreport).
  split; [|split].
  - by apply Hreport.
  - destruct (unweighted_stage_returns _ _ _ _ _ _ _ _ _ _ _ _ _ _ _ _ Hstage)
      as (_ & before & items & Ha & Ht0 & _).
    injection Ha as -> _ _ _ _ _ _.
    destruct (for_each_weighted_pass _ _ _ _ _ _ _ _ _ _ Hpre) as (Ht1 & _).
    rewrite Ht2, Ht1, Ht0. clear. set_solver.
  - assert (Hloop : for_each (pre ++ item :: post)
                      (weighted_pass self tck labels tmp sym zd force) w0 = (inl e, w2)).
    { rewrite for_each_app. unfold mbind, M_bind. rewrite Hpre. simpl.
      unfold mbind, M_bind. by rewrite Hpass. }
    unfold structural_connectome, mbind, M_bind. rewrite Hstage, Hflags. simpl.
    by rewrite Hloop.
Qed.

(** The theorem at work: the FA pass of the run in [/data] fails at its
    [tcksample]. *)
Lemma failed_pass_ends_structural_connectome_witness :
  let w := Demo.start (Demo.sampling_fails_on ".fa.mif"%py) in
  let argv := ["tcksample"%py; "/data/dwi.100000.streamlines.tck"%py;
               "/data/dwi.fa.mif"%py; "/data/dwimetric.vertex.mean.csv"%py;
               "-stat_tck"%py; "mean"%py] in
  (structural_connectome Demo.recon Demo.tck Demo.atlas_labels (Some Demo.up_dwi)
     (Some Demo.brain_mask) false false true true true true true false w).1
  = inl (tool_error argv 1).
Proof.
  intros w argv.
  set (stage := unweighted_stage Demo.recon Demo.tck Demo.atlas_labels (Some Demo.up_dwi)
                  (Some Demo.brain_mask) false false true true true true true false w).
  set (tmp := sample_file "/data"%py Demo.recon).
  set (items := enabled_items "/data"%py Demo.recon Demo.up_dwi true true true true).
  set (pass := weighted_pass Demo.recon Demo.tck Demo.atlas_labels tmp false false false).
  destruct (failed_pass_ends_structural_connectome
              Demo.recon Demo.tck Demo.atlas_labels (Some Demo.up_dwi)
              (Some Demo.brain_mask) false false true true true true true false w
              (out_file "/data"%py Demo.recon ".structural_connectome"%py)
              (out_file "/data"%py Demo.recon ".structural_connectome.fa_weighted"%py)
              (out_file "/data"%py Demo.recon ".structural_connectome.md_weighted"%py)
              (out_file "/data"%py Demo.recon ".structural_connectome.ad_weighted"%py)
              (out_file "/data"%py Demo.recon ".structural_connectome.rd_weighted"%py)
              tmp [] (map_file "/data"%py Demo.recon Demo.up_dwi ".fa"%py,
                      out_file "/data"%py Demo.recon ".structural_connectome.fa_weighted"%py)
              (tail items) stage.2 stage.2 (tool_error argv 1)
              (pass (map_file "/data"%py Demo.recon Demo.up_dwi ".fa"%py,
                     out_file "/data"%py Demo.recon
                       ".structural_connectome.fa_weighted"%py) stage.2).2
              argv 1%Z) as (_ & _ & H).
  - reflexivity.
  - apply run_result. vm_compute. reflexivity.
  - reflexivity.
  - apply run_result. vm_compute. reflexivity.
  - vm_compute. reflexivity.
  - discriminate.
  - rewrite H. reflexivity.
Defined.

(** C2, as stated, fails: in the run in [/data] with the four weightings
    asked for, [tcksample] exits with status 1 on the FA map.  The run ends
    with the [RuntimeError] of that invocation, and the maps of MD, AD and
    RD are never sampled: the trace stops at the failed invocation. *)
Lemma failed_pass_stops_remaining_passes :
  let rw := structural_connectome Demo.recon Demo.tck Demo.atlas_labels
              (Some Demo.up_dwi) (Some Demo.brain_mask)
              false false true true true true true false
              (Demo.start (Demo.sampling_fails_on ".fa.mif"%py)) in
  let argv := ["tcksample"%py; "/data/dwi.100000.streamlines.tck"%py;
               "/data/dwi.fa.mif"%py; "/data/dwimetric.vertex.mean.csv"%py;
               "-stat_tck"%py; "mean"%py] in
  rw.1 = inl (tool_error argv 1) ∧
  last (trace rw.2) = Some (Invoked argv 1) ∧
  sampled_maps (trace rw.2) = ["/data/dwi.fa.mif"%py] ∧
  ¬ (∃ rc, Invoked (tcksample_argv Demo.tck
                      (map_file "/data"%py Demo.recon Demo.up_dwi ".md"%py)
                      (sample_file "/data"%py Demo.recon)) rc ∈ trace rw.2).
Proof.
  intros rw argv. split_and!; [by vm_compute..|].
  intros [rc Hin].
  assert (Hs : src (map_file "/data"%py Demo.recon Demo.up_dwi ".md"%py)
               ∈ sampled_maps (trace rw.2)).
  { unfold sampled_maps. apply list_elem_of_omap. eexists. split; [exact Hin|]. done. }
  revert Hs. vm_compute. intros Hs. apply elem_of_cons in Hs as [Hs|Hs]; [discriminate|].
  by apply elem_of_nil in Hs.
Qed.

(** A completed run with the four weightings: the DWI image was given, the
    five files are named after the stem of the NIfTI file, and after the
    unweighted connectome come the four passes, FA, MD, AD, RD, each one
    sampling its map into the one sample file, weighting by it, and removing
    it; the sample file is not there at the end. *)
Lemma structural_connectome_all_weightings
    self tck labels dwi mask sym zd cleanup force (w : World) res (w' : World) :
  structural_connectome self tck labels dwi mask sym zd true true true true cleanup force w
    = (inr res, w') →
  ∃ d before,
    dwi = Some d ∧
    res = (out_file (cwd w) self ".structural_connectome"%py,
           out_file (cwd w) self ".structural_connectome.fa_weighted"%py,
           out_file (cwd w) self ".structural_connectome.md_weighted"%py,
           out_file (cwd w) self ".structural_connectome.ad_weighted"%py,
           out_file (cwd w) self ".structural_connectome.rd_weighted"%py) ∧
    Invoked (metrics_command (cwd w) self d true true true true) 0 ∈ before ∧
    trace w' = trace w ++ before
      ++ concat (pass_events (cwd w) tck labels (sample_file (cwd w) self) sym zd force
                   <$> enabled_items (cwd w) self d true true true true) ∧
    fs w' !! key w' (src (sample_file (cwd w) self)) = None.
Proof.
  unfold structural_connectome, mbind at 1, M_bind at 1. intros Hrun.
  destruct (unweighted_stage self tck labels dwi mask sym zd true true true true
              cleanup force w) as [[e|a] w0] eqn:Hstage; [done|].
  destruct (unweighted_stage_returns _ _ _ _ _ _ _ _ _ _ _ _ _ _ _ _ Hstage)
    as (Hc0 & before & items & -> & Ht0 & Hitems).
  destruct (Hitems eq_refl) as (d & -> & -> & Hin).
  cbn [orb when] in Hrun. unfold mbind, M_bind in Hrun.
  destruct (for_each _ _ w0) as [[e|[]] w1] eqn:Hloop; [done|].
  injection Hrun as <- <-.
  destruct (for_each_weighted_pass _ _ _ _ _ _ _ _ _ _ Hloop) as (Ht1 & Hc1 & Hfs).
  exists d, (before ++ [Invoked (tck2connectome_argv tck labels
                          (out_file (cwd w) self ".structural_connectome"%py) []
                          sym zd force) 0]).
  split_and!; [done..| | |].
  - apply elem_of_app. by left.
  - rewrite Ht1, Ht0, Hc0. by rewrite <- !(assoc_L (++)).
  - apply Hfs. done.
Qed.

(** The four weighted connectomes go to four files. *)
Lemma startswith_cons (c : ascii) (s : str) :
  startswith (c :: s) "/"%py = bool_decide (c = "/"%char).
Proof.
  unfold startswith. apply bool_decide_ext. split.
  - intros [k Hk]. by injection Hk.
  - intros ->. by exists s.
Qed.

Lemma join_tail_inj (a u : str) (c : ascii) (v1 v2 : str) :
  OsPath.join a (u ++ c :: v1) = OsPath.join a (u ++ c :: v2) → v1 = v2.
Proof.
  unfold OsPath.join.
  assert (Hs : startswith (u ++ c :: v1) "/"%py = startswith (u ++ c :: v2) "/"%py).
  { destruct u; simpl; by rewrite !startswith_cons. }
  rewrite Hs. destruct (startswith (u ++ c :: v2) "/"%py).
  - intros H. apply app_inv_head in H. by injection H.
  - destruct (negb (truthy a) || endswith a "/"%py); intros H;
      repeat apply app_inv_head in H; by injection H.
Qed.

Lemma out_files_distinct (d : str) (self : ReconMRtrix) :
  NoDup (src <$> [out_file d self ".structural_connectome.fa_weighted"%py;
                  out_file d self ".structural_connectome.md_weighted"%py;
                  out_file d self ".structural_connectome.ad_weighted"%py;
                  out_file d self ".structural_connectome.rd_weighted"%py]).
Proof.
  unfold out_file, connectome_file. cbn [fmap list_fmap File_fields src].
  repeat (apply NoDup_cons; split);
    [rewrite ?elem_of_cons, elem_of_nil; intros H..|apply NoDup_nil_2];
    repeat destruct H as [H|H]; try done;
    rewrite <- !(assoc_L (++) (stem_of d self).2) in H;
    apply join_tail_inj in H; discriminate.
Qed.

(** The four passes read four maps when the name of the DWI image has
    [.gz] in it: the maps are then called [.mif.gz], and [Mif] cuts just
    that. *)
Lemma contains_app_r (k suf : str) : suf ≠ [] → contains (k ++ suf) suf = true.
Proof.
  intros Hs. induction k as [|c k IH]; simpl.
  - destruct suf as [|c suf]; [done|]. simpl.
    apply orb_true_iff. left. by apply bool_decide_eq_true.
  - apply orb_true_iff. by right.
Qed.

Lemma join_prefix (a u : str) : u ≠ [] → ∃ p, ∀ v, OsPath.join a (u ++ v) = p ++ v.
Proof.
  intros Hu. destruct u as [|c u]; [done|]. unfold OsPath.join.
  destruct (bool_decide (c = "/"%char)) eqn:Hc.
  - exists (c :: u). intros v. simpl. by rewrite startswith_cons, Hc.
  - destruct (negb (truthy a) || endswith a "/"%py).
    + exists (a ++ c :: u). intros v. simpl. rewrite startswith_cons, Hc.
      by rewrite <- (assoc_L (++) a).
    + exists (a ++ "/"%py ++ c :: u). intros v. simpl. rewrite startswith_cons, Hc.
      by rewrite <- (assoc_L (++) a).
Qed.

Lemma map_file_gz (d : str) (self : ReconMRtrix) (dwi : File) (tag : str) :
  contains (src dwi) ".gz"%py = true → tag ≠ [] →
  src (map_file d self dwi tag)
  = OsPath.join (stem_of d self).1 (((stem_of d self).2 ++ tag) ++ ".mif"%py).
Proof.
  intros Hgz Htag. unfold map_file, metric_map, metric_ext. rewrite Hgz.
  destruct (join_prefix (stem_of d self).1 ((stem_of d self).2 ++ tag)) as [p Hp].
  { by destruct (stem_of d self).2, tag. }
  rewrite !Hp. unfold Mif.
  change ".mif.gz"%py with (".mif"%py ++ ".gz"%py) at 1.
  rewrite (assoc_L (++) p), contains_app_r by done.
  cbn [File_fields src]. f_equal. by apply (drop_last_app p ".mif.gz"%py).
Qed.

Lemma map_files_distinct (d : str) (self : ReconMRtrix) (dwi : File) :
  contains (src dwi) ".gz"%py = true →
  NoDup (src <$> [map_file d self dwi ".fa"%py; map_file d self dwi ".md"%py;
                  map_file d self dwi ".ad"%py; map_file d self dwi ".rd"%py]).
Proof.
  intros Hgz. cbn [fmap list_fmap]. rewrite !(map_file_gz _ _ _ _ Hgz) by done.
  repeat (apply NoDup_cons; split);
    [rewrite ?elem_of_cons, elem_of_nil; intros H..|apply NoDup_nil_2];
    repeat destruct H as [H|H]; try done;
    rewrite <- !(assoc_L (++) (stem_of d self).2) in H;
    apply join_tail_inj in H; discriminate.
Qed.

(** C5 fails where the directory of the NIfTI file has [.gz] in its name
    and the name of the DWI image has not: a run in [/data] on
    [/data/raw.gz/dwi.nii.gz], with the four weightings and the image
    [/data/dwi_upsampled.mif], completes and writes the four connectomes,
    but [Mif] has cut the names of the four maps to the one name
    [/data/raw.gz/dwi.mif], and each of the four passes samples that file. *)
Theorem weighted_passes_sample_one_map :
  let rw := structural_connectome Demo.archived Demo.tck Demo.atlas_labels
              (Some Demo.up_dwi) (Some Demo.brain_mask)
              false false true true true true true false
              (Demo.start Demo.tools_succeed) in
  rw.1 = inr (out_file "/data"%py Demo.archived ".structural_connectome"%py,
              out_file "/data"%py Demo.archived ".structural_connectome.fa_weighted"%py,
              out_file "/data"%py Demo.archived ".structural_connectome.md_weighted"%py,
              out_file "/data"%py Demo.archived ".structural_connectome.ad_weighted"%py,
              out_file "/data"%py Demo.archived ".structural_connectome.rd_weighted"%py) ∧
  src <$> [map_file "/data"%py Demo.archived Demo.up_dwi ".fa"%py;
           map_file "/data"%py Demo.archived Demo.up_dwi ".md"%py;
           map_file "/data"%py Demo.archived Demo.up_dwi ".ad"%py;
           map_file "/data"%py Demo.archived Demo.up_dwi ".rd"%py]
  = replicate 4 "/data/raw.gz/dwi.mif"%py ∧
  sampled_maps (trace rw.2) = replicate 4 "/data/raw.gz/dwi.mif"%py.
Proof. intros rw. split_and!; vm_compute; reflexivity. Qed.

(** In the run on [/data/dwi.nii.gz] the four passes sample four maps. *)
Lemma demo_passes_sample_four_maps :
  let rw := structural_connectome Demo.recon Demo.tck Demo.atlas_labels
              (Some Demo.up_dwi) (Some Demo.brain_mask)
              false false true true true true true false
              (Demo.start Demo.tools_succeed) in
  sampled_maps (trace rw.2)
  = ["/data/dwi.fa.mif"%py; "/data/dwi.md.mif"%py; "/data/dwi.ad.mif"%py;
     "/data/dwi.rd.mif"%py].
Proof. intros rw. vm_compute. reflexivity. Qed.

(** * File operations, workspaces and the stages' edge cases *)

Import Outcomes.

(** ** Absolute paths *)

Lemma split_on_no_sep (c : ascii) (s : str) : Forall (fun comp => c ∉ comp) (split_on c s).
Proof.
  induction s as [|x s IH]; simpl.
  - constructor; [apply not_elem_of_nil | constructor].
  - destruct (decide (x = c)) as [->|Hx].
    + constructor; [apply not_elem_of_nil | done].
    + destruct (split_on c s) as [|h t].
      { constructor; [|constructor]. apply not_elem_of_cons. split; [done|].
        apply not_elem_of_nil. }
      apply Forall_cons in IH as [Hh Ht]. constructor; [|done].
      apply not_elem_of_cons. by split.
Qed.

Lemma split_on_join_with (comps : list str) :
  comps ≠ [] → Forall (fun comp => slash ∉ comp) comps →
  split_on slash (join_with "/"%py comps) = comps.
Proof.
  induction comps as [|p comps IH]; [done|]. intros _ Hall.
  apply Forall_cons in Hall as [Hp Hall]. destruct comps as [|q comps].
  - simpl. by apply split_on_absent.
  - change (join_with "/"%py (p :: q :: comps))
      with (p ++ slash :: join_with "/"%py (q :: comps)).
    rewrite split_on_app, (split_on_absent _ p Hp), IH; done.
Qed.

Lemma normpath_step_skip (k : nat) (acc : list str) : OsPath.normpath_step k acc [] = acc.
Proof. done. Qed.

Lemma foldl_normpath_step_plain (k : nat) (acc comps : list str) :
  Forall plain_name comps → foldl (OsPath.normpath_step k) acc comps = acc ++ comps.
Proof.
  revert acc. induction comps as [|c comps IH]; intros acc Hall; simpl.
  - by rewrite app_nil_r.
  - apply Forall_cons in Hall as [Hc Hall].
    rewrite (normpath_step_plain _ _ _ Hc), IH by done. by rewrite <- (assoc_L (++)).
Qed.

Lemma foldl_normpath_step_rooted (k : nat) (acc comps : list str) :
  k ≠ 0 → Forall plain_name acc → Forall (fun comp => slash ∉ comp) comps →
  Forall plain_name (foldl (OsPath.normpath_step k) acc comps).
Proof.
  intros Hk. revert acc. induction comps as [|c comps IH]; intros acc Hacc Hall; [done|].
  apply Forall_cons in Hall as [Hc Hall]. simpl. apply IH; [|done].
  unfold OsPath.normpath_step.
  destruct (bool_decide (c = [])) eqn:H1; [done|].
  destruct (bool_decide (c = "."%py)) eqn:H2; [done|]. cbn [orb].
  destruct (bool_decide (c = ".."%py)) eqn:H3; cbn [negb orb].
  - rewrite (bool_decide_false (k = 0)) by done. cbn [andb orb].
    assert (Hlast : negb (bool_decide (acc = [])) && bool_decide (last acc = Some ".."%py)
                    = false).
    { apply andb_false_iff. right. apply bool_decide_eq_false. intros Hl.
      apply last_Some in Hl as [acc' ->]. apply Forall_app in Hacc as [_ Hacc].
      apply Forall_cons in Hacc as [(_ & _ & _ & Hdd) _]. done. }
    rewrite Hlast. destruct acc as [|a acc]; [done|].
    by apply Forall_take.
  - apply Forall_app. split; [done|]. constructor; [|constructor].
    apply bool_decide_eq_false in H1, H2, H3. done.
Qed.

Lemma normpath_nonempty (p : str) :
  p ≠ [] →
  OsPath.normpath p
  = let path' := replicate (initial_slashes p) slash
                 ++ join_with "/"%py (foldl (OsPath.normpath_step (initial_slashes p)) []
                                        (split_on slash p)) in
    match path' with
    | [] => "."%py
    | _ :: _ => path'
    end.
Proof. destruct p; [done|]. reflexivity. Qed.

Lemma normpath_rooted (k : nat) (comps : list str) :
  k = 1 ∨ k = 2 → Forall plain_name comps →
  OsPath.normpath (replicate k slash ++ join_with "/"%py comps)
  = replicate k slash ++ join_with "/"%py comps.
Proof.
  intros Hk Hcomps.
  set (J := join_with "/"%py comps).
  assert (HJ : J = [] ∨ ∃ c r, J = c :: r ∧ c ≠ slash).
  { subst J. destruct comps as [|p comps]; [by left|]. right.
    apply Forall_cons in Hcomps as [(Hs & Hne & _) _].
    destruct p as [|c p]; [done|]. exists c.
    assert (c ≠ slash) by (intros ->; apply Hs; by left).
    destruct comps; simpl; eauto. }
  assert (Hsplit : foldl (OsPath.normpath_step k) [] (split_on slash J) = comps).
  { subst J. destruct comps as [|p comps]; [done|].
    rewrite split_on_join_with; [|done|].
    - by rewrite foldl_normpath_step_plain.
    - eapply Forall_impl; [exact Hcomps|]. by intros ? (? & _). }
  assert (Hinit : initial_slashes (replicate k slash ++ J) = k).
  { unfold initial_slashes, startswith.
    destruct Hk as [-> | ->]; simpl.
    - rewrite (bool_decide_false ("//"%py `prefix_of` _)); [done|].
      intros [r Hr]. destruct HJ as [HJ | (c & r' & HJ & Hc)]; rewrite HJ in Hr; [done|].
      apply Hc. by injection Hr.
    - rewrite (bool_decide_false ("///"%py `prefix_of` _)); [done|].
      intros [r Hr]. destruct HJ as [HJ | (c & r' & HJ & Hc)]; rewrite HJ in Hr; [done|].
      apply Hc. by injection Hr. }
  rewrite normpath_nonempty by (destruct Hk as [-> | ->]; done). cbv zeta.
  rewrite Hinit.
  assert (Hcomps' : foldl (OsPath.normpath_step k) []
                      (split_on slash (replicate k slash ++ J)) = comps).
  { destruct Hk as [-> | ->]; simpl; rewrite ?decide_True by done; simpl; exact Hsplit. }
  rewrite Hcomps'. fold J. destruct Hk as [-> | ->]; done.
Qed.

Lemma normpath_absolute (p : str) :
  startswith p "/"%py = true →
  ∃ k comps, (k = 1 ∨ k = 2) ∧ Forall plain_name comps ∧
             OsPath.normpath p = replicate k slash ++ join_with "/"%py comps.
Proof.
  intros Habs. rewrite normpath_nonempty by (by destruct p). cbv zeta.
  assert (Hk : initial_slashes p = 1 ∨ initial_slashes p = 2).
  { unfold initial_slashes. rewrite Habs. destruct (_ && _); auto. }
  exists (initial_slashes p), (foldl (OsPath.normpath_step (initial_slashes p)) []
                                (split_on slash p)).
  split; [done|]. split.
  - apply foldl_normpath_step_rooted; [lia | done | apply split_on_no_sep].
  - destruct Hk as [-> | ->]; done.
Qed.

Lemma replicate_slash_startswith (k : nat) (s : str) :
  k = 1 ∨ k = 2 → startswith (replicate k slash ++ s) "/"%py = true.
Proof.
  intros [-> | ->]; apply bool_decide_eq_true; simpl;
    [exists s | exists (slash :: s)]; reflexivity.
Qed.

Lemma abspath_absolute (d p : str) :
  OsPath.isabs d = true → OsPath.isabs (OsPath.abspath d p) = true.
Proof.
  intros Hd. unfold OsPath.abspath, OsPath.isabs in *.
  assert (Hx : ∀ x, startswith x "/"%py = true → startswith (OsPath.normpath x) "/"%py = true).
  { intros x Hx. destruct (normpath_absolute x Hx) as (k & comps & Hk & _ & ->).
    by apply replicate_slash_startswith. }
  destruct (startswith p "/"%py) eqn:Hp; [by apply Hx|]. apply Hx.
  unfold OsPath.join. rewrite Hp.
  apply bool_decide_eq_true in Hd as [r ->].
  destruct (_ || _); apply bool_decide_eq_true; simpl; eexists; reflexivity.
Qed.

(** [os.path.abspath] is idempotent (the working directory of a process is
    an absolute path). *)
Lemma abspath_idempotent (d p : str) :
  OsPath.isabs d = true → OsPath.abspath d (OsPath.abspath d p) = OsPath.abspath d p.
Proof.
  intros Hd. pose proof (abspath_absolute d p Hd) as Habs.
  unfold OsPath.abspath at 1. rewrite Habs.
  assert (Hx : ∀ x, startswith x "/"%py = true →
                    OsPath.normpath (OsPath.normpath x) = OsPath.normpath x).
  { intros x Hx. destruct (normpath_absolute x Hx) as (k & comps & Hk & Hc & ->).
    by apply normpath_rooted. }
  unfold OsPath.abspath, OsPath.isabs in *.
  destruct (startswith p "/"%py) eqn:Hp; [by apply Hx|]. apply Hx.
  unfold OsPath.join. rewrite Hp.
  apply bool_decide_eq_true in Hd as [r ->].
  destruct (_ || _); apply bool_decide_eq_true; simpl; eexists; reflexivity.
Qed.

(** ** Names and extensions *)

Lemma splitext_app (p : str) : (OsPath.splitext p).1 ++ (OsPath.splitext p).2 = p.
Proof.
  unfold OsPath.splitext.
  destruct (cut_last_spec slash p) as (Hp & _ & _).
  destruct (cut_last slash p) as [head base]. simpl in Hp.
  destruct (cut_last_spec dot base) as (Hb & _ & Hd).
  destruct (cut_last dot base) as [upto after]. simpl in Hb, Hd.
  destruct upto as [|x upto]; [by rewrite app_nil_r|].
  destruct Hd as [Hd | [h Hh]]; [done|]. rewrite Hh.
  replace (take (length (h ++ [dot]) - 1) (h ++ [dot])) with h.
  - destruct (forallb _ h); simpl; [by rewrite app_nil_r|].
    rewrite Hp, Hb, Hh. by rewrite <- !(assoc_L (++)).
  - rewrite length_app. simpl.
    replace (length h + 1 - 1) with (length h) by lia.
    by rewrite take_app_length.
Qed.

Lemma drop_last_suffix (s e : str) :
  e ≠ [] → e `suffix_of` s → drop_last (length e) s ++ e = s.
Proof. intros He [k ->]. by rewrite drop_last_app. Qed.

Lemma last_chars_suffix (n : nat) (s : str) : last_chars n s `suffix_of` s.
Proof.
  unfold last_chars. destruct n; [done|].
  exists (take (length s - S n) s). by rewrite take_drop.
Qed.

(** The extension [File(src)] resolves is the end of the name. *)
Lemma File_fields_ext_suffix (src0 : str) : ext (File_fields src0 []) `suffix_of` src0.
Proof.
  unfold File_fields. cbn [truthy ext]. destruct (endswith src0 ".gz"%py).
  - apply last_chars_suffix.
  - exists (OsPath.splitext src0).1. symmetry. apply splitext_app.
Qed.

(** [File(src).rm_ext()] and the extension resolved by [File.__init__]
    make up the name again, whenever an extension was found (the last seven
    characters of a name that ends in [.gz], what [os.path.splitext] finds
    otherwise).  For a name without extension [rm_ext] cuts the last four
    characters all the same. *)
Theorem rm_ext_and_ext_make_src (src0 : str) :
  let f := File_fields src0 [] in
  (ext f ≠ [] → rm_ext f [] ++ ext f = src0) ∧
  (ext f = [] → rm_ext f [] = take (length src0 - 4) src0).
Proof.
  intros f. unfold rm_ext. cbn [truthy]. split.
  - intros He. destruct (ext f) as [|c e] eqn:Hext; [done|]. cbn [truthy].
    rewrite <- Hext. apply drop_last_suffix; [by rewrite Hext|].
    apply File_fields_ext_suffix.
  - intros ->. done.
Qed.

(** A [NiiFile] is in normal form: its extension is [.nii] or [.nii.gz],
    its path ends in its extension, and building a [NiiFile] from its path
    gives the same object again. *)
Theorem NiiFile_fields_normal_form (src0 : str) :
  let f := NiiFile_fields src0 in
  (ext f = ".nii"%py ∨ ext f = ".nii.gz"%py) ∧
  endswith (src f) (ext f) = true ∧
  rm_ext f [] ++ ext f = src f ∧
  NiiFile_fields (src f) = f.
Proof.
  intros f. subst f. unfold NiiFile_fields. cbn [File_fields src].
  destruct (endswith src0 ".nii.gz"%py) eqn:Hgz;
    [|destruct (endswith src0 ".nii"%py) eqn:Hnii]; cbn [src ext].
  - split_and!; [by right | done | | by rewrite Hgz].
    unfold rm_ext. cbn [truthy ext src].
    apply (drop_last_suffix src0 ".nii.gz"%py); [done|].
    by apply bool_decide_eq_true in Hgz.
  - split_and!; [by left | done | | by rewrite Hgz, Hnii].
    unfold rm_ext. cbn [truthy ext src].
    apply (drop_last_suffix src0 ".nii"%py); [done|].
    by apply bool_decide_eq_true in Hnii.
  - split_and!; [by right | apply endswith_app | | by rewrite endswith_app].
    unfold rm_ext. cbn [truthy ext src].
    by rewrite (drop_last_app src0 ".nii.gz"%py).
Qed.

(** [Mif(file, gzip)] swaps the extension of a NIfTI or MIF name for
    [.mif], or [.mif.gz] when [gzip] is set, and keeps the stem: always for
    the two-part extensions [.nii.gz] and [.mif.gz], and for [.nii] and
    [.mif] when the name holds no [.gz]. *)
Theorem Mif_swaps_extension (stem e : str) (gzip : bool) :
  let mif_ext := if gzip then ".mif.gz"%py else ".mif"%py in
  (e ∈ [".nii.gz"%py; ".mif.gz"%py] →
   Mif (stem ++ e) gzip = {| src := stem ++ mif_ext; ext := e |}) ∧
  (e ∈ [".nii"%py; ".mif"%py] → contains (stem ++ e) ".gz"%py = false →
   Mif (stem ++ e) gzip = {| src := stem ++ mif_ext; ext := e |}).
Proof.
  intros mif_ext. split.
  - intros He. unfold Mif.
    assert (Hgz : contains (stem ++ e) ".gz"%py = true).
    { apply elem_of_cons in He as [-> | He];
        [|apply list_elem_of_singleton in He as ->].
      - change ".nii.gz"%py with (".nii"%py ++ ".gz"%py).
        by rewrite (assoc_L (++)), contains_app_r.
      - change ".mif.gz"%py with (".mif"%py ++ ".gz"%py).
        by rewrite (assoc_L (++)), contains_app_r. }
    rewrite Hgz. unfold File_fields.
    assert (Hlen : length e = 7 ∧ e ≠ []).
    { apply elem_of_cons in He as [-> | He];
        [|apply list_elem_of_singleton in He as ->]; done. }
    destruct Hlen as [Hlen Hne]. rewrite <- Hlen.
    rewrite drop_last_app, last_chars_app by done.
    by destruct e.
  - intros He Hgz. unfold Mif. rewrite Hgz. unfold File_fields.
    assert (Hlen : length e = 4 ∧ e ≠ []).
    { apply elem_of_cons in He as [-> | He];
        [|apply list_elem_of_singleton in He as ->]; done. }
    destruct Hlen as [Hlen Hne]. rewrite <- Hlen.
    rewrite drop_last_app, last_chars_app by done.
    by destruct e.
Qed.

(** ** Temporary names *)

(** [TmpFile(tmp_dir, name, ext)] with a name and an extension: a dot is put
    before an extension that holds none, the file is [name] and the
    extension in [tmp_dir], and [rm_ext()] gives back
    [os.path.join(tmp_dir, name)].  No random number is drawn and nothing
    is touched. *)
Theorem TmpFile_init_named (tmp_dir name ext0 : str) (w : World) :
  name ≠ [] → ext0 ≠ [] →
  ∃ f, TmpFile_init tmp_dir name ext0 w = (inr f, w) ∧
       ext f = (if contains ext0 "."%py then ext0 else "."%py ++ ext0) ∧
       src f = OsPath.join tmp_dir name ++ ext f ∧
       rm_ext f [] = OsPath.join tmp_dir name.
Proof.
  intros Hname Hext. destruct name as [|c name]; [done|].
  destruct ext0 as [|x ext0]; [done|].
  set (e := if contains (x :: ext0) "."%py then x :: ext0 else "."%py ++ x :: ext0).
  assert (He : e ≠ []) by (subst e; by destruct (contains _ _)).
  destruct (join_prefix tmp_dir (c :: name)) as [p Hp]; [done|].
  assert (Hj : OsPath.join tmp_dir (c :: name) = p).
  { specialize (Hp []). by rewrite !app_nil_r in Hp. }
  exists {| src := p ++ e; ext := e |}. rewrite Hj. split_and!; try done.
  - unfold TmpFile_init, File_init, File_fields, mbind, M_bind, mret, M_ret.
    cbn [truthy]. cbv beta iota zeta. rewrite Hp. subst e.
    by destruct (contains _ _).
  - unfold rm_ext. cbn [truthy ext src]. destruct e as [|y e'] eqn:Heq; [done|].
    cbn [truthy]. by apply drop_last_app.
Qed.

Lemma TmpFile_init_named_witness :
  TmpFile_init "/data/tmp"%py "run"%py "log"%py (Demo.start Demo.tools_succeed)
  = (inr {| src := "/data/tmp/run.log"%py; ext := ".log"%py |},
     Demo.start Demo.tools_succeed).
Proof.
  destruct (TmpFile_init_named "/data/tmp"%py "run"%py "log"%py
              (Demo.start Demo.tools_succeed)) as (f & Hrun & Hext & Hsrc & _).
  - discriminate.
  - discriminate.
  - rewrite Hrun. destruct f as [s e]. simpl in Hext, Hsrc. rewrite Hsrc, Hext.
    reflexivity.
Defined.

(** Decimal numerals hold no slash. *)
Lemma pretty_N_go_no_slash (x : N) (s : string) :
  slash ∉ String.list_ascii_of_string s →
  slash ∉ String.list_ascii_of_string (pretty_N_go x s).
Proof.
  revert s. induction (N.lt_wf_0 x) as [x _ IH]; intros s Hs.
  assert (x = 0 ∨ 0 < x)%N as [->|Hx] by lia.
  - by rewrite pretty_N_go_0.
  - rewrite pretty_N_go_step by done. apply IH.
    + by apply N.div_lt.
    + simpl. apply not_elem_of_cons. split; [|done].
      unfold pretty_N_char, slash. by repeat case_match.
Qed.

Lemma of_Z_no_slash (n : Z) : slash ∉ of_Z n.
Proof.
  unfold of_Z, pretty, pretty_Z.
  assert (Hpos : ∀ p : positive, slash ∉ String.list_ascii_of_string (pretty p)).
  { intros p. unfold pretty, pretty_positive, pretty, pretty_N.
    rewrite decide_False by done. apply pretty_N_go_no_slash. apply not_elem_of_nil. }
  destruct n as [|p|p].
  - vm_compute. intros H. apply elem_of_cons in H as [H|H]; [discriminate|].
    by apply elem_of_nil in H.
  - apply Hpos.
  - simpl. apply not_elem_of_cons. split; [done | apply Hpos].
Qed.

Lemma dirname_join_name (d x : str) :
  d ≠ [] → endswith d "/"%py = false → x ≠ [] → slash ∉ x →
  OsPath.join d x = d ++ "/"%py ++ x ∧ OsPath.dirname (OsPath.join d x) = d.
Proof.
  intros Hd Hend Hx Hslash.
  assert (Hj : OsPath.join d x = d ++ "/"%py ++ x).
  { unfold OsPath.join. destruct x as [|c x]; [done|].
    rewrite startswith_cons, bool_decide_false.
    - rewrite Hend. by destruct d.
    - intros ->. apply Hslash. by left. }
  split; [done|]. rewrite Hj.
  destruct d as [|c d0 _] using rev_ind; [done|].
  assert (Hc : c ≠ slash).
  { intros ->. pose proof (endswith_app d0 [slash]) as H. unfold slash in *. congruence. }
  unfold OsPath.dirname, OsPath.split.
  change ("/"%py ++ x) with ([slash] ++ x). rewrite (assoc_L (++)).
  rewrite (cut_last_app_absent _ _ _ Hslash), cut_last_snoc. cbn [fst snd].
  rewrite andb_true_intro; cycle 1.
  { split; [by destruct d0|]. apply negb_true_iff, bool_decide_eq_false.
    intros Hrep. apply Hc.
    assert (Hin : c ∈ replicate (length ((d0 ++ [c]) ++ [slash])) slash).
    { rewrite <- Hrep. set_solver. }
    by apply elem_of_replicate in Hin as [-> _]. }
  cbn [fst]. unfold rstrip. rewrite !reverse_app. simpl.
  rewrite decide_False by done.
  by rewrite reverse_cons, reverse_involutive.
Qed.

(** [TmpDir(d)] for a directory name [d] that does not end in a slash: the
    temporary directory is [d/tmp_dir_N] with [N] between 0 and 10000, and
    its parent directory is [d] itself.  So [rmdir(rm_parent=True)] removes
    the directory the caller gave, with everything in it. *)
Theorem TmpDir_parent_is_given_directory (d : str) (w : World) :
  d ≠ [] → endswith d "/"%py = false →
  ∃ n t w',
    (0 ≤ n ≤ 10000)%Z ∧
    TmpDir_init d false w = (inr t, w') ∧ fs w' = fs w ∧ cwd w' = cwd w ∧
    wd_src t = d ++ "/tmp_dir_"%py ++ of_Z n ∧ parent_dir t = d ∧
    (fs w !! key w d = Some Dir →
     ∀ k, under (key w d) k → fs (rmdir t true w').2 !! k = None).
Proof.
  intros Hd Hend.
  set (n := (0 + random_draw (host w) (draws w) `mod` (10000 - 0 + 1))%Z).
  set (x := "tmp_dir_"%py ++ of_Z n).
  assert (Hx : slash ∉ x).
  { subst x. apply not_elem_of_app. split; [|apply of_Z_no_slash].
    intros H. repeat (apply elem_of_cons in H as [H|H]; [discriminate|]).
    by apply elem_of_nil in H. }
  destruct (dirname_join_name d x Hd Hend) as [Hj Hdir]; [done | done |].
  exists n, {| wd_src := d ++ "/"%py ++ x; parent_dir := d |},
         (with_draws (S (draws w)) w).
  split.
  { subst n.
    pose proof (Z.mod_pos_bound (random_draw (host w) (draws w)) 10001 ltac:(lia)).
    change (10000 - 0 + 1)%Z with 10001%Z. lia. }
  split_and!; try done.
  - unfold TmpDir_init, random_randint, WorkDir_init, mbind, M_bind, mret, M_ret,
      gets, modify.
    cbv beta iota zeta. fold n. fold x. by rewrite Hdir, Hj.
  - intros Hdirnode k Hk. rewrite rmdir_returns. cbn [snd].
    unfold rmdir_state. cbn [parent_dir andb].
    rewrite bool_decide_true by (change (is_Some (fs w !! key w d)); by rewrite Hdirnode).
    unfold rmtree_ignoring. change (fs w !! key w d) with (fs (with_draws (S (draws w)) w) !! key (with_draws (S (draws w)) w) d) in Hdirnode.
    rewrite Hdirnode. cbn [fs with_trace with_fs].
    apply map_lookup_filter_None. right. intros v _ Hnot. by apply Hnot.
Qed.

Lemma TmpDir_parent_is_given_directory_witness :
  ∃ t w', TmpDir_init "/data"%py false (Demo.start Demo.tools_succeed) = (inr t, w') ∧
          parent_dir t = "/data"%py ∧
          fs (rmdir t true w').2 !! "/data/dwi.nii.gz"%py = None.
Proof.
  destruct (TmpDir_parent_is_given_directory "/data"%py (Demo.start Demo.tools_succeed))
    as (n & t & w' & _ & Hrun & _ & _ & _ & Hparent & Hrm).
  - discriminate.
  - vm_compute. reflexivity.
  - exists t, w'. split_and!; [exact Hrun | exact Hparent |].
    apply Hrm.
    + vm_compute. reflexivity.
    + apply (bool_decide_unpack _). vm_compute. exact I.
Defined.

(** ** More on [Command] and [NiiFile] *)

(** [Command.check_dependency()] returns [True] or raises, it never returns
    [False], and it changes nothing.  A command without a word raises
    [IndexError]; otherwise the call returns exactly when [shutil.which]
    finds the first word, and raises [DependencyError] when not. *)
Theorem check_dependency_true_or_raises (c : Cmd.Command) (w : World) :
  let rw := Cmd.check_dependency c w in
  rw.2 = w ∧
  (rw.1 = inr true ∨ ∃ e, rw.1 = inl e) ∧
  (shlex_split (host w) (Cmd.command c) = Some [] →
   rw.1 = inl (IndexError "list index out of range"%py)) ∧
  (∀ x rest, shlex_split (host w) (Cmd.command c) = Some (x :: rest) →
     if which (host w) x then rw.1 = inr true
     else rw.1 = inl (DependencyError
                        ("Command executable not found in system path: "%py ++ x))).
Proof.
  intros rw. subst rw. unfold Cmd.check_dependency, mbind, M_bind, gets.
  cbv beta iota.
  destruct (shlex_split (host w) (Cmd.command c)) as [[|x rest]|]; cbn.
  - split_and!; [done | right; eauto | done | done].
  - destruct (which (host w) x) eqn:Hw; cbn.
    + split_and!; [done | by left | done |]. intros ? ? [= <- <-]. by rewrite Hw.
    + split_and!; [done | right; eauto | done |]. intros ? ? [= <- <-]. by rewrite Hw.
  - split_and!; [done | right; eauto | done | done].
Qed.



(** [NiiFile(src, assert_exists, validate_nifti)] on a path that does not
    exist: with [assert_exists] the assertion fails; without it the object
    is returned, and [validate_nifti] is not acted on, the file is not
    loaded. *)
Theorem NiiFile_init_missing_file (src0 : str) (assert_exists validate_nifti : bool)
    (w : World) :
  fs w !! key w (src (NiiFile_fields src0)) = None →
  NiiFile_init src0 assert_exists validate_nifti w
  = (if assert_exists
     then inl (AssertionError ("Input NIFTI file "%py ++ src (NiiFile_fields src0)
                                 ++ " does not exist."%py))
     else inr (NiiFile_fields src0), w).
Proof.
  intros Hmissing.
  unfold NiiFile_init, os_path_exists, mbind, M_bind, gets, mret, M_ret, raise.
  assert (Hno : bool_decide (is_Some (fs w !! key w (src (NiiFile_fields src0)))) = false).
  { rewrite Hmissing. apply bool_decide_false. by intros [? ?]. }
  destruct assert_exists; cbv beta iota zeta; rewrite ?Hno; [done|].
  cbv beta iota. rewrite ?Hno. by rewrite andb_false_r.
Qed.

Lemma NiiFile_init_missing_file_witness :
  NiiFile_init "/data/absent"%py false true (Demo.start Demo.tools_succeed)
  = (inr {| src := "/data/absent.nii.gz"%py; ext := ".nii.gz"%py |},
     Demo.start Demo.tools_succeed).
Proof.
  rewrite (NiiFile_init_missing_file "/data/absent"%py false true
             (Demo.start Demo.tools_succeed)).
  - reflexivity.
  - vm_compute. reflexivity.
Defined.

(** On a file that exists, [validate_nifti] decides: the object is returned
    when the file loads and [InvalidNiftiFileError] is raised when not;
    without [validate_nifti] the file is not loaded.  Nothing is changed. *)
Theorem NiiFile_init_existing_file (src0 : str) (assert_exists validate_nifti : bool)
    (w : World) :
  is_Some (fs w !! key w (src (NiiFile_fields src0))) →
  ∃ r, NiiFile_init src0 assert_exists validate_nifti w = (r, w) ∧
       if validate_nifti && negb (nifti_loads (host w) (src (NiiFile_fields src0)))
       then ∃ msg, r = inl (InvalidNiftiFileError msg)
       else r = inr (NiiFile_fields src0).
Proof.
  intros Hpresent.
  unfold NiiFile_init, os_path_exists, mbind, M_bind, gets, mret, M_ret, raise.
  assert (Hyes : bool_decide (is_Some (fs w !! key w (src (NiiFile_fields src0)))) = true).
  { by apply bool_decide_true. }
  destruct assert_exists; cbv beta iota zeta; rewrite ?Hyes;
    cbv beta iota; rewrite ?Hyes;
    destruct validate_nifti; cbn;
    destruct (nifti_loads (host w) (src (NiiFile_fields src0)));
    eexists; (split; [reflexivity|]); cbn; eauto.
Qed.

Lemma NiiFile_init_existing_file_witness :
  NiiFile_init "/data/dwi.nii.gz"%py true true (Demo.start Demo.tools_succeed)
  = (inr {| src := "/data/dwi.nii.gz"%py; ext := ".nii.gz"%py |},
     Demo.start Demo.tools_succeed).
Proof.
  destruct (NiiFile_init_existing_file "/data/dwi.nii.gz"%py true true
              (Demo.start Demo.tools_succeed)) as (r & Hrun & Hr).
  - vm_compute. eexists. reflexivity.
  - rewrite Hrun. f_equal. exact Hr.
Defined.

(** ** Working directories *)

Lemma exists_eval (t : WorkDir) (w : World) :
  OsPath.isabs (cwd w) = true →
  exists_ t w = (inr (bool_decide (fs w !! key w (wd_src t) = Some Dir)), w).
Proof.
  intros Hcwd.
  unfold exists_, os_getcwd, os_path_isdir, os_path_exists, mbind, M_bind, gets, mret, M_ret.
  cbv beta iota. unfold key. rewrite (abspath_idempotent _ _ Hcwd).
  by destruct (fs w !! OsPath.abspath (cwd w) (wd_src t)) as [[|c]|].
Qed.

Lemma add_dir_keeps (f : gmap str node) (p k : str) (v : node) :
  f !! k = Some v → add_dir f p !! k = Some v.
Proof.
  intros Hk. unfold add_dir. destruct (f !! p) eqn:Hp; [done|].
  rewrite lookup_insert_ne; [done|]. intros ->. congruence.
Qed.

Lemma foldl_add_dir_keeps (l : list str) (f : gmap str node) (k : str) (v : node) :
  f !! k = Some v → foldl add_dir f l !! k = Some v.
Proof.
  revert f. induction l as [|p l IH]; intros f Hk; [done|].
  simpl. by apply IH, add_dir_keeps.
Qed.

Lemma mkdir_eval (t : WorkDir) (w : World) :
  OsPath.isabs (cwd w) = true →
  mkdir t w =
  match fs w !! key w (wd_src t) with
  | Some Dir => (inr tt, w)
  | Some (Reg _) => (inl (FileExistsError (wd_src t)), w)
  | None =>
      (inr tt,
       with_trace (trace w ++ [MadeDirs (key w (wd_src t))])
         (with_fs (foldl add_dir (fs w)
                     (key w (wd_src t)
                        :: ancestors (length (key w (wd_src t))) (key w (wd_src t)))) w))
  end.
Proof.
  intros Hcwd. unfold mkdir, mbind at 1, M_bind at 1. rewrite (exists_eval _ _ Hcwd).
  unfold os_makedirs, os_path_exists, mbind, M_bind, gets, modify, emit, raise, mret, M_ret.
  cbv beta iota.
  destruct (fs w !! key w (wd_src t)) as [[|c]|] eqn:Hk.
  - by rewrite bool_decide_true.
  - rewrite bool_decide_false by done. cbn [negb]. cbv beta. rewrite Hk.
    by rewrite bool_decide_true.
  - rewrite bool_decide_false by done. cbn [negb]. cbv beta. rewrite Hk.
    by rewrite bool_decide_false by (by intros [? ?]).
Qed.

Lemma made_dir_present (f : gmap str node) (k : str) (l : list str) :
  f !! k = None → foldl add_dir f (k :: l) !! k = Some Dir.
Proof.
  intros Hk. simpl. apply foldl_add_dir_keeps. unfold add_dir. rewrite Hk.
  apply lookup_insert_eq.
Qed.







(** ** File operations *)

Lemma key_abspath (w : World) (p : str) :
  OsPath.isabs (cwd w) = true → key w (OsPath.abspath (cwd w) p) = key w p.
Proof. intros Hcwd. unfold key. by apply abspath_idempotent. Qed.

Lemma remove_eval (f : File) (w : World) :
  OsPath.isabs (cwd w) = true →
  remove f w
  = match fs w !! key w (src f) with
    | Some (Reg _) =>
        (inr tt, with_trace (trace w ++ [Removed (key w (src f))])
                   (with_fs (delete (key w (src f)) (fs w)) w))
    | Some Dir => (inl (IsADirectoryError (OsPath.abspath (cwd w) (src f))), w)
    | None => (inl (FileNotFoundError (OsPath.abspath (cwd w) (src f))), w)
    end.
Proof.
  intros Hcwd.
  unfold remove, abspath, os_getcwd, os_remove, mbind, M_bind, gets, mret, M_ret.
  cbv beta iota. rewrite (key_abspath _ _ Hcwd).
  by destruct (fs w !! key w (src f)) as [[|c]|].
Qed.

Lemma touch_eval (f : File) (w : World) :
  FileOps.touch f w
  = match fs w !! key w (src f) with
    | Some _ => (inr tt, w)
    | None => (inr tt, with_fs (<[key w (src f) := Reg []]> (fs w)) w)
    end.
Proof.
  unfold FileOps.touch, FileOps.truncate, os_path_exists, mbind, M_bind, gets, modify.
  cbv beta iota. destruct (fs w !! key w (src f)) as [n|] eqn:Hk.
  - by rewrite bool_decide_true.
  - rewrite bool_decide_false by (by intros [? ?]). cbv beta iota. by rewrite Hk.
Qed.



(** [File.write(txt)] appends: on a path that is not a directory, in a
    directory that exists, the file holds what it held (nothing, when it was
    not there) followed by [txt], and two calls in a row leave what one call
    with both texts leaves. *)
Theorem write_appends (f : File) (a b : str) (w : World) :
  fs w !! OsPath.dirname (key w (src f)) = Some Dir →
  fs w !! key w (src f) ≠ Some Dir →
  let old := match fs w !! key w (src f) with Some (Reg c) => c | _ => [] end in
  write f a w = (inr tt, with_fs (<[key w (src f) := Reg (old ++ a)]> (fs w)) w) ∧
  (write f a ;; write f b) w = write f (a ++ b) w.
Proof.
  intros _ Hnd old. subst old.
  assert (Hw : ∀ txt, write f txt w
                      = (inr tt, with_fs (<[key w (src f) :=
                           Reg (match fs w !! key w (src f) with
                                | Some (Reg c) => c | _ => [] end ++ txt)]> (fs w)) w)).
  { intros txt. unfold write, append_text, mbind, M_bind, gets, modify.
    cbv beta iota. by destruct (fs w !! key w (src f)) as [[|c]|]. }
  split; [apply Hw|].
  unfold mbind, M_bind. rewrite !Hw.
  unfold write, append_text, mbind, M_bind, gets, modify. cbv beta iota.
  change (key (with_fs _ w) (src f)) with (key w (src f)). cbn [fs with_fs].
  rewrite lookup_insert_eq. unfold with_fs. cbn. f_equal. f_equal.
  by rewrite insert_insert_eq, (assoc_L (++)).
Qed.

Lemma write_appends_witness :
  let f := File_fields "/data/dwi.bval"%py [] in
  fs (write f " 1000"%py (Demo.start Demo.tools_succeed)).2 !! "/data/dwi.bval"%py
  = Some (Reg "bval 1000"%py).
Proof.
  intros f.
  destruct (write_appends f " 1000"%py [] (Demo.start Demo.tools_succeed)) as [H _].
  - vm_compute. reflexivity.
  - vm_compute. discriminate.
  - rewrite H. vm_compute. reflexivity.
Defined.

Lemma key_key (w : World) (p : str) :
  OsPath.isabs (cwd w) = true → key w (key w p) = key w p.
Proof. apply key_abspath. Qed.

Lemma abspath_of_eval (f : File) (b : bool) (w : World) :
  OsPath.isabs (cwd w) = true →
  FileOps.abspath_of f b w = (inr (key w (src f)), w).
Proof.
  intros Hcwd. unfold FileOps.abspath_of, os_path_exists, os_getcwd, mbind, M_bind, gets.
  cbv beta iota.
  destruct (b && bool_decide (is_Some (fs w !! key w (src f)))); [|done].
  unfold mret, M_ret. by rewrite (abspath_idempotent _ _ Hcwd).
Qed.



(** [copy] and [join] on a path that does not exist do not raise: both
    return [None] and change nothing.  [copy] of a directory to a
    destination that exists raises [FileExistsError] and changes nothing. *)
Theorem copy_and_join_edge_cases (f : File) (dst : str) (args : list str) (w : World) :
  OsPath.isabs (cwd w) = true →
  (fs w !! key w (src f) = None →
   FileOps.copy f dst w = (inr None, w) ∧ FileOps.join f args w = (inr None, w)) ∧
  (fs w !! key w (src f) = Some Dir → is_Some (fs w !! key w dst) →
   FileOps.copy f dst w = (inl (FileExistsError dst), w)).
Proof.
  intros Hcwd. split.
  - intros Hnone. split.
    + unfold FileOps.copy. unfold mbind at 1, M_bind at 1.
      rewrite (abspath_of_eval f true w Hcwd). cbv beta iota.
      unfold FileOps.os_path_isfile, os_path_isdir, mbind, M_bind, gets.
      cbv beta iota. rewrite !(key_key _ _ Hcwd), Hnone. cbv beta iota.
      rewrite ?(key_key _ _ Hcwd), Hnone. by rewrite bool_decide_false.
    + unfold FileOps.join. unfold mbind at 1, M_bind at 1.
      rewrite (abspath_of_eval f false w Hcwd). cbv beta iota.
      unfold FileOps.os_path_isfile, os_path_isdir, mbind, M_bind, gets.
      cbv beta iota. rewrite !(key_key _ _ Hcwd), Hnone. cbv beta iota.
      rewrite ?(key_key _ _ Hcwd), Hnone. by rewrite bool_decide_false.
  - intros Hdir Hdst.
    unfold FileOps.copy. unfold mbind at 1, M_bind at 1.
    rewrite (abspath_of_eval f true w Hcwd). cbv beta iota.
    unfold FileOps.os_path_isfile, os_path_isdir, FileOps.shutil_copytree,
      os_path_exists, mbind, M_bind, gets.
    cbv beta iota. rewrite !(key_key _ _ Hcwd), Hdir. cbv beta iota.
    rewrite ?(key_key _ _ Hcwd), (bool_decide_true (_ = Some Dir)) by done.
    cbv beta iota. rewrite ?(key_key _ _ Hcwd), Hdir. cbv beta iota.
    by rewrite (bool_decide_true (is_Some _)).
Qed.

Lemma copy_and_join_edge_cases_witness :
  let w := Demo.start Demo.tools_succeed in
  FileOps.join (File_fields "/data/none.txt"%py []) ["a"%py] w = (inr None, w) ∧
  FileOps.copy (File_fields "/data"%py []) "/data"%py w
  = (inl (FileExistsError "/data"%py), w).
Proof.
  intros w.
  destruct (copy_and_join_edge_cases (File_fields "/data/none.txt"%py []) [] ["a"%py] w)
    as [H _]; [reflexivity|].
  destruct (copy_and_join_edge_cases (File_fields "/data"%py []) "/data"%py [] w)
    as [_ H']; [reflexivity|].
  split.
  - apply H. vm_compute. reflexivity.
  - apply H'; vm_compute; [reflexivity | eexists; reflexivity].
Defined.

(** ** More on the stages *)

Lemma no_invocation_quiet : quiet no_invocation.
Proof. intros ev Hev. exact Hev. Qed.

#[local] Hint Resolve no_invocation_quiet : emits.

Lemma wp_check_dependency name (Q : exn + unit -> World -> Prop) w :
  (which (host w) name = true → Q (inr tt) w) →
  (which (host w) name = false →
   Q (inl (DependencyError ("Command executable not found in system path: "%py ++ name)))
     w) →
  wp (check_dependency name) Q w.
Proof.
  intros Hy Hn. unfold check_dependency. apply wp_bind, wp_gets.
  destruct (which (host w) name); [by apply wp_ret, Hy | by apply wp_raise, Hn].
Qed.

Lemma wp_run_then_ret argv l {A : Type} (a : A) w0 w :
  host w = host w0 → trace w = trace w0 →
  wp (run_cmd_list argv l ;; mret a) (ran_once argv a w0) w.
Proof.
  intros Hh Ht. apply wp_bind, wp_run_cmd_list.
  - intros w' Ht' _. apply wp_ret. exists 0%Z. rewrite Ht', Ht. by split_and!.
  - intros rc w' Hrc Ht' _ _. exists rc. rewrite Ht', Ht. by split_and!.
Qed.

(** [mr_upsample] picks its tool by what is installed.  For an input whose
    name holds [.mif] or [.nii]: with [mrresize] on the path it runs
    [mrresize] once, and a failure of that run is raised, [mrgrid] is not
    tried; without [mrresize] and with [mrgrid] it runs [mrgrid] once;
    without both it raises [DependencyError] and runs nothing.  For any other
    name it raises [NameError] (the local [_ext] is unbound) and runs
    nothing. *)
Theorem mr_upsample_tool_choice (self : ReconMRtrix) (mif : File) (vox : PyFloat)
    (interp : option str) (gzip : bool) (w : World) :
  let rw := mr_upsample self mif vox interp gzip w in
  let out := upsampled_file (cwd w) mif gzip in
  (contains (src mif) ".mif"%py = false → contains (src mif) ".nii"%py = false →
   rw = (inl (NameError "_ext"%py), w)) ∧
  (contains (src mif) ".mif"%py = true ∨ contains (src mif) ".nii"%py = true →
   (which (host w) "mrresize"%py = true →
    ran_once (mrresize_argv (src mif) vox (src out) interp) out w rw.1 rw.2) ∧
   (which (host w) "mrresize"%py = false → which (host w) "mrgrid"%py = true →
    ran_once (mrgrid_argv (src mif) vox (src out) interp) out w rw.1 rw.2) ∧
   (which (host w) "mrresize"%py = false → which (host w) "mrgrid"%py = false →
    trace rw.2 = trace w ∧ ∃ msg, rw.1 = inl (DependencyError msg))).
Proof.
  intros rw out. subst rw. split.
  - intros Hmif Hnii. unfold mr_upsample. by rewrite Hmif, Hnii.
  - intros Hname.
    cut (wp (mr_upsample self mif vox interp gzip)
           (fun r w' =>
              (which (host w) "mrresize"%py = true →
               ran_once (mrresize_argv (src mif) vox (src out) interp) out w r w') ∧
              (which (host w) "mrresize"%py = false → which (host w) "mrgrid"%py = true →
               ran_once (mrgrid_argv (src mif) vox (src out) interp) out w r w') ∧
              (which (host w) "mrresize"%py = false →
               which (host w) "mrgrid"%py = false →
               trace w' = trace w ∧ ∃ msg, r = inl (DependencyError msg))) w);
      [done|].
    unfold mr_upsample. apply wp_bind.
    set (gz := contains (src mif) ".gz"%py).
    set (ext_in := if contains (src mif) ".mif"%py
                   then (if gz then ".mif.gz"%py else ".mif"%py)
                   else (if gz then ".nii.gz"%py else ".nii"%py)).
    apply (wp_mono _ (fun r w1 => r = inr (if gz then true else gzip, ext_in) ∧ w1 = w)).
    { subst ext_in gz. destruct (contains (src mif) ".mif"%py).
      - by destruct (contains (src mif) ".gz"%py).
      - destruct Hname as [?|Hnii]; [done|]. rewrite Hnii.
        by destruct (contains (src mif) ".gz"%py). }
    intros r w1 H. cbv beta in H. destruct H as [-> ->]. cbv beta iota.
    apply wp_bind, wp_file_parts.
    assert (Hout : out = let '(path, filename, _) := file_parts_in (cwd w) mif ext_in in
                         Mif (OsPath.join path ((filename ++ "_upsampled"%py) ++ ".mif"%py))
                             (if gz then true else gzip)) by done.
    destruct (file_parts_in (cwd w) mif ext_in) as [[path filename] e0].
    rewrite <- Hout. clear Hout.
    apply wp_try_except, wp_bind, wp_check_dependency.
    + intros Hresize. eapply wp_mono; [by apply (wp_run_then_ret _ _ out w)|].
      intros [e|a] w' (rc & Ht & H0 & H1).
      * assert (Hrc : rc ≠ 0%Z) by (intros ->; by specialize (H0 eq_refl)).
        specialize (H1 Hrc). injection H1 as ->. unfold tool_error at 1.
        cbv beta iota. split; [|split].
        -- intros _. exists rc. split; [exact Ht|]. split; [by intros ?|done].
        -- intros Hx. rewrite Hresize in Hx. discriminate Hx.
        -- intros Hx. rewrite Hresize in Hx. discriminate Hx.
      * split; [|split].
        -- intros _. exists rc. split; [exact Ht|]. split; [exact H0 | exact H1].
        -- intros Hx. rewrite Hresize in Hx. discriminate Hx.
        -- intros Hx. rewrite Hresize in Hx. discriminate Hx.
    + intros Hresize. cbv beta iota. apply wp_bind, wp_check_dependency.
      * intros Hgrid. eapply wp_mono; [by apply (wp_run_then_ret _ _ out w)|].
        intros r w' Hran. split; [|split].
        -- intros Hx. rewrite Hresize in Hx. discriminate Hx.
        -- intros _ _. exact Hran.
        -- intros _ Hx. rewrite Hgrid in Hx. discriminate Hx.
      * intros Hgrid. split; [|split].
        -- intros Hx. rewrite Hresize in Hx. discriminate Hx.
        -- intros _ Hx. rewrite Hgrid in Hx. discriminate Hx.
        -- intros _ _. split; [reflexivity|]. eexists. reflexivity.
Qed.

Lemma wp_unweighted_stage_no_maps self tck labels dwi mask sym zd fa md ad rd cleanup force w :
  (fa || md || ad || rd = true → dwi = None) →
  wp (unweighted_stage self tck labels dwi mask sym zd fa md ad rd cleanup force)
     (fun r w' =>
        ∃ rc, trace w' = trace w ++
                [Invoked (unweighted_command (cwd w) self tck labels sym zd force) rc] ∧
          (rc ≠ 0%Z →
           r = inl (tool_error (unweighted_command (cwd w) self tck labels sym zd force) rc)) ∧
          (rc = 0%Z →
           if fa || md || ad || rd then ∃ name, r = inl (NameError name)
           else r = inr (out_file (cwd w) self ".structural_connectome"%py,
                         out_file (cwd w) self ".structural_connectome.fa_weighted"%py,
                         out_file (cwd w) self ".structural_connectome.md_weighted"%py,
                         out_file (cwd w) self ".structural_connectome.ad_weighted"%py,
                         out_file (cwd w) self ".structural_connectome.rd_weighted"%py,
                         sample_file (cwd w) self, []))) w.
Proof.
  intros Hdwi.
  unfold unweighted_stage, unweighted_command, out_file, sample_file, stem_of.
  apply wp_bind, wp_file_parts.
  destruct (file_parts_in (cwd w) (nii_file self) []) as [[path filename] e0].
  cbn [fst snd]. cbv zeta. apply wp_bind.
  apply (wp_mono _ (fun r w1 => r = inr None ∧ w1 = w)).
  { destruct (fa || md || ad || rd); [rewrite (Hdwi eq_refl)|];
      apply wp_ret; by split. }
  intros r w1 H. cbv beta in H. destruct H as [-> ->]. cbv beta iota.
  apply wp_bind, wp_run_cmd_list.
  - intros w' Ht _. apply wp_bind. unfold weighting_items.
    destruct fa, md, ad, rd; cbn [orb];
      first [apply wp_raise | apply wp_ret, wp_ret];
      (exists 0%Z; split; [exact Ht|]; split; [done|]; intros _; eauto).
  - intros rc w' Hrc Ht _ _. exists rc. split; [exact Ht|]. split; [done|].
    intros ->. done.
Qed.

(** [structural_connectome] asked for a weighting without the DWI image:
    the missing image is not reported ([MRtrixError] is built, not raised).
    The unweighted connectome is computed first, and when that has
    succeeded the run ends with a [NameError] for the first enabled metric
    map; no metric is computed and nothing is returned. *)
Theorem structural_connectome_without_dwi (self : ReconMRtrix) (tck labels : File)
    (mask : option File) (sym zd fa md ad rd cleanup force : bool) (w : World) :
  fa || md || ad || rd = true →
  let rw := structural_connectome self tck labels None mask sym zd fa md ad rd
              cleanup force w in
  let ctm := unweighted_command (cwd w) self tck labels sym zd force in
  ∃ rc, trace rw.2 = trace w ++ [Invoked ctm rc] ∧
        (rc = 0%Z → ∃ name, rw.1 = inl (NameError name)) ∧
        (rc ≠ 0%Z → rw.1 = inl (tool_error ctm rc)).
Proof.
  intros Hflags rw ctm. subst rw.
  cut (wp (structural_connectome self tck labels None mask sym zd fa md ad rd
             cleanup force)
          (fun r w' => ∃ rc, trace w' = trace w ++ [Invoked ctm rc] ∧
                             (rc = 0%Z → ∃ name, r = inl (NameError name)) ∧
                             (rc ≠ 0%Z → r = inl (tool_error ctm rc))) w); [done|].
  unfold structural_connectome. apply wp_bind.
  eapply wp_mono; [by apply wp_unweighted_stage_no_maps|].
  intros r w1 (rc & Ht & Hn & Hz). rewrite Hflags in Hz.
  destruct (decide (rc = 0%Z)) as [Hrc|Hrc].
  - destruct (Hz Hrc) as [name ->]. exists rc. split; [exact Ht|]. split; [eauto | done].
  - rewrite (Hn Hrc). exists rc. split; [exact Ht|]. split; [done | by intros _].
Qed.

Lemma structural_connectome_without_dwi_witness :
  let rw := structural_connectome Demo.recon Demo.tck Demo.atlas_labels None None
              false false true false false false true false
              (Demo.start Demo.tools_succeed) in
  rw.1 = inl (NameError "fa_mif"%py) ∧
  ∃ rc,
    trace rw.2 = [Invoked ["tck2connectome"%py; "/data/dwi.100000.streamlines.tck"%py;
                           "/data/dwi.labels_upsampled.mif"%py;
                           "/data/dwi.structural_connectome.txt"%py] rc].
Proof.
  intros rw.
  destruct (structural_connectome_without_dwi Demo.recon Demo.tck Demo.atlas_labels None
              false false true false false false true false
              (Demo.start Demo.tools_succeed)) as (rc & Ht & _ & _).
  - reflexivity.
  - split; [vm_compute; reflexivity|]. exists rc. subst rw. rewrite Ht.
    vm_compute. reflexivity.
Defined.

(** [structural_connectome] without a weighting runs one tool, the
    unweighted [tck2connectome], whether the DWI image is given or not.  It
    returns the five file objects all the same: the four weighted ones name
    files that were not written. *)
Theorem structural_connectome_unweighted_only (self : ReconMRtrix) (tck labels : File)
    (dwi mask : option File) (sym zd cleanup force : bool) (w : World) :
  let rw := structural_connectome self tck labels dwi mask sym zd false false false false
              cleanup force w in
  ran_once (unweighted_command (cwd w) self tck labels sym zd force)
    (out_file (cwd w) self ".structural_connectome"%py,
     out_file (cwd w) self ".structural_connectome.fa_weighted"%py,
     out_file (cwd w) self ".structural_connectome.md_weighted"%py,
     out_file (cwd w) self ".structural_connectome.ad_weighted"%py,
     out_file (cwd w) self ".structural_connectome.rd_weighted"%py)
    w rw.1 rw.2.
Proof.
  intros rw. subst rw.
  set (ctm := unweighted_command (cwd w) self tck labels sym zd force).
  set (files := (out_file (cwd w) self ".structural_connectome"%py, _, _, _, _)).
  cut (wp (structural_connectome self tck labels dwi mask sym zd false false false false
             cleanup force) (ran_once ctm files w) w); [done|].
  unfold structural_connectome. apply wp_bind.
  eapply wp_mono; [by apply wp_unweighted_stage_no_maps|].
  intros r w1 (rc & Ht & Hn & Hz). cbn [orb] in Hz.
  destruct (decide (rc = 0%Z)) as [Hrc|Hrc].
  - rewrite (Hz Hrc). cbn [orb when]. apply wp_bind, wp_ret, wp_ret.
    exists rc. split; [exact Ht|]. split; [done | by intros ?].
  - rewrite (Hn Hrc). exists rc. split; [exact Ht|]. split; [by intros ? | done].
Qed.

Lemma yields_stops {A : Type} (m : M A) :
  yields no_invocation (fun _ => False) m → stops_before_any_tool m.
Proof.
  intros H w. specialize (H w). unfold wp in H. destruct H as [Hev Hr]. split; [|done].
  destruct (m w).1 as [e|a]; [eauto|]. destruct (Hr a eq_refl).
Qed.

Lemma compute_xfm_no_json inp json log0 wd uc dof fi :
  no_json json → yields no_invocation (fun _ => False) (compute_xfm inp json log0 wd uc dof fi).
Proof.
  intros Hjson. unfold compute_xfm. destruct (resolve_work_dir wd uc) as [wd1 uc1].
  unfold TmpDir_init, WorkDir_init, mkdir, exists_, TmpFile, TmpFile_init, File_init.
  destruct Hjson as [-> | ->]; cbn [truthy]; emits_go.
Qed.

Lemma create_structural_connectome_no_json scripts_dir inp cfg :
  no_json (json cfg) →
  yields no_invocation (fun _ => False) (create_structural_connectome scripts_dir inp cfg).
Proof.
  intros Hjson. unfold create_structural_connectome.
  destruct (resolve_work_dir (work_dir cfg) (use_cwd cfg)) as [wd1 uc1].
  unfold TmpDir_init, WorkDir_init, mkdir, exists_, TmpFile, TmpFile_init, File_init.
  destruct Hjson as [-> | ->]; cbn [truthy]; emits_go.
Qed.

Lemma main_no_json scripts_dir args :
  no_json (a_json args) → yields no_invocation (fun _ => False) (main scripts_dir args).
Proof.
  intros Hjson. unfold main.
  eapply (yields_bind _ (fun _ => False)); [|by intros ? []].
  unfold main_stages.
  eapply (yields_bind _ anything); [emits_go | intros ? _].
  eapply (yields_bind _ anything); [emits_go | intros ? _].
  eapply (yields_bind _ anything); [emits_go | intros ? _].
  eapply (yields_bind _ (fun _ => False)); [|by intros ? []].
  by apply create_structural_connectome_no_json.
Qed.

(** The JSON sidecar is optional in name only.  Without it (the argument is
    [None] or empty) [compute_xfm] meets the unbound local [j_tmp],
    [create_structural_connectome] reads [j_tmp.file] of [None], and [main]
    fails with it: each of them raises, after the inputs are copied to the
    working directory and before any program is run. *)
Theorem json_is_required (scripts_dir : str) (inp : Inputs) (cfg : Config) (args : Args)
    (json : option str) (log0 : str) (wd : option str) (uc : bool) (dof : Z)
    (fi : PyFloat) :
  (no_json json → stops_before_any_tool (compute_xfm inp json log0 wd uc dof fi)) ∧
  (no_json (Pipeline.json cfg) →
   stops_before_any_tool (create_structural_connectome scripts_dir inp cfg)) ∧
  (no_json (a_json args) → stops_before_any_tool (main scripts_dir args)).
Proof.
  split_and!; intros H; apply yields_stops.
  - by apply compute_xfm_no_json.
  - by apply create_structural_connectome_no_json.
  - by apply main_no_json.
Qed.

(** The run of [Demo.args] without the sidecar: the three inputs are copied,
    then [AttributeError]. *)
Lemma demo_run_without_json :
  let args := {| a_inputs := Demo.inputs; a_out_dir := "/out"%py; a_json := None;
                 a_log := "/out/file.log"%py; a_cwd := false; a_no_cleanup := false;
                 a_config := Demo.config |} in
  let rw := main "/opt/xfm"%py args (Demo.start Demo.tools_succeed) in
  rw.1 = inl (AttributeError "'NoneType' object has no attribute 'file'"%py) ∧
  trace rw.2 = [MadeDirs "/out"%py; MadeDirs "/out/work.tmp/tmp_dir_41"%py;
                Copied "/data/dwi.nii.gz"%py "/out/work.tmp/tmp_dir_41/dwi.nii.gz"%py;
                Copied "/data/dwi.bval"%py "/out/work.tmp/tmp_dir_41/dwi.bval"%py;
                Copied "/data/dwi.bvec"%py "/out/work.tmp/tmp_dir_41/dwi.bvec"%py].
Proof. intros args rw. split; vm_compute; reflexivity. Qed.

(** ** A name below a directory *)

Lemma startswith_step (a b : ascii) (s p : str) :
  startswith (a :: s) (b :: p) = bool_decide (a = b) && startswith s p.
Proof.
  unfold startswith. destruct (decide (a = b)) as [->|Hab].
  - rewrite (bool_decide_true (b = b)) by done. simpl. apply bool_decide_ext. split.
    + intros [k Hk]. exists k. by injection Hk.
    + intros [k ->]. by exists k.
  - rewrite (bool_decide_false (a = b)) by done. simpl. apply bool_decide_false.
    intros [k Hk]. apply Hab. by injection Hk.
Qed.

Lemma startswith_nil (s : str) : startswith s [] = true.
Proof. apply bool_decide_true. by exists s. Qed.

Lemma startswith_nil_l (b : ascii) (p : str) : startswith [] (b :: p) = false.
Proof. apply bool_decide_false. by intros [k Hk]. Qed.

Lemma join_child_form (x name : str) :
  startswith x "/"%py = true → name ≠ [] → slash ∉ name →
  ∃ x0, OsPath.join x name = x0 ++ slash :: name ∧
        ((x = x0 ∧ endswith x "/"%py = false) ∨ x = x0 ++ [slash]).
Proof.
  intros Hx Hne Hs. destruct name as [|c name]; [done|].
  assert (Hc : c ≠ slash) by (intros ->; apply Hs; by left).
  unfold OsPath.join. rewrite startswith_cons, bool_decide_false by done.
  destruct x as [|a x]; [done|]. cbn [truthy negb orb].
  destruct (endswith (a :: x) "/"%py) eqn:Hend.
  - apply endswith_true in Hend as [k Hk]. exists k. rewrite Hk. split; [|by right].
    by rewrite <- (assoc_L (++)).
  - exists (a :: x). split; [done | by left].
Qed.

Lemma initial_slashes_child (x name : str) :
  startswith x "/"%py = true → name ≠ [] → slash ∉ name →
  initial_slashes (OsPath.join x name) = initial_slashes x.
Proof.
  intros Hx Hne Hs.
  destruct (join_child_form x name Hx Hne Hs) as (x0 & -> & Hform).
  destruct name as [|c name]; [done|].
  assert (Hc : bool_decide (c = "/"%char) = false).
  { apply bool_decide_false. intros ->. apply Hs. by left. }
  unfold initial_slashes.
  destruct Hform as [[-> Hend] | ->].
  - destruct x0 as [|a [|b [|d x3]]]; [done|..].
    + rewrite startswith_cons in Hx. apply bool_decide_eq_true in Hx as ->. done.
    + rewrite startswith_cons in Hx. apply bool_decide_eq_true in Hx as ->.
      assert (Hb : bool_decide (b = "/"%char) = false).
      { apply bool_decide_false. intros ->. done. }
      simpl. rewrite ?startswith_step, ?Hb, ?startswith_nil_l, ?startswith_nil. done.
    + simpl. rewrite ?startswith_step, ?startswith_nil. done.
  - destruct x0 as [|a [|b [|d x3]]]; simpl;
      rewrite ?startswith_step, ?Hc, ?startswith_nil_l, ?startswith_nil; done.
Qed.

Lemma comps_child (k : nat) (x name : str) :
  startswith x "/"%py = true → plain_name name →
  foldl (OsPath.normpath_step k) [] (split_on slash (OsPath.join x name))
  = foldl (OsPath.normpath_step k) [] (split_on slash x) ++ [name].
Proof.
  intros Hx Hname. pose proof Hname as (Hs & Hne & _).
  destruct (join_child_form x name Hx Hne Hs) as (x0 & -> & Hform).
  rewrite split_on_app, (split_on_absent _ name Hs), foldl_app. simpl.
  rewrite (normpath_step_plain _ _ _ Hname).
  destruct Hform as [[-> _] | ->]; [done|].
  rewrite split_on_app, foldl_app. done.
Qed.

Lemma endswith_plain (s p : str) :
  p ≠ [] → slash ∉ p → endswith (s ++ p) "/"%py = false.
Proof.
  intros Hne Hs. apply bool_decide_false. intros [k Hk].
  destruct p as [|c p _] using rev_ind; [done|].
  rewrite (assoc_L (++)) in Hk. apply app_inj_tail in Hk as [_ ->].
  apply Hs, elem_of_app. right. by left.
Qed.

Lemma join_rooted_child (pre : str) (comps : list str) (name : str) :
  pre = "/"%py ∨ pre = "//"%py → Forall plain_name comps → plain_name name →
  OsPath.join (pre ++ join_with "/"%py comps) name
  = pre ++ join_with "/"%py (comps ++ [name]).
Proof.
  intros Hpre Hcomps (Hs & Hne & _).
  destruct name as [|c name]; [done|].
  assert (Hc : c ≠ slash) by (intros ->; apply Hs; by left).
  unfold OsPath.join. rewrite startswith_cons, bool_decide_false by done.
  assert (Htr : truthy (pre ++ join_with "/"%py comps) = true).
  { by destruct Hpre as [-> | ->]. }
  rewrite Htr. cbn [negb orb]. rewrite join_with_snoc.
  destruct comps as [|p comps _] using rev_ind.
  - simpl. rewrite app_nil_r.
    assert (Hend : endswith pre "/"%py = true).
    { destruct Hpre as [-> | ->]; apply endswith_true; [by exists [] | by exists "/"%py]. }
    by rewrite Hend.
  - apply Forall_app in Hcomps as [_ Hp]. apply Forall_cons in Hp as [(Hps & Hpne & _) _].
    assert (Hend : endswith (pre ++ join_with "/"%py (comps ++ [p])) "/"%py = false).
    { rewrite join_with_snoc. destruct comps as [|q comps].
      - by apply endswith_plain.
      - rewrite (assoc_L (++)). by apply endswith_plain. }
    rewrite Hend. destruct (comps ++ [p]) as [|q l] eqn:Hl; [by destruct comps|].
    by rewrite <- !(assoc_L (++)).
Qed.

(** [normpath] of a name joined to an absolute path. *)
Lemma normpath_child (x name : str) :
  startswith x "/"%py = true → plain_name name →
  OsPath.normpath (OsPath.join x name) = OsPath.join (OsPath.normpath x) name.
Proof.
  intros Hx Hname. pose proof Hname as (Hs & Hne & _).
  assert (Hjx : OsPath.join x name ≠ []).
  { destruct (join_child_form x name Hx Hne Hs) as (x0 & -> & _). by destruct x0. }
  rewrite (normpath_nonempty _ Hjx), (normpath_nonempty x) by (by destruct x).
  cbv zeta. rewrite (initial_slashes_child x name Hx Hne Hs), (comps_child _ x name Hx Hname).
  set (k := initial_slashes x).
  assert (Hk : k = 1 ∨ k = 2).
  { subst k. unfold initial_slashes. rewrite Hx. destruct (_ && _); auto. }
  set (comps := foldl (OsPath.normpath_step k) [] (split_on slash x)).
  assert (Hcomps : Forall plain_name comps).
  { apply foldl_normpath_step_rooted; [lia | done | apply split_on_no_sep]. }
  clearbody comps. clearbody k.
  destruct Hk as [-> | ->]; cbn [replicate app].
  - symmetry. exact (join_rooted_child "/"%py comps name (or_introl eq_refl) Hcomps Hname).
  - symmetry. exact (join_rooted_child "//"%py comps name (or_intror eq_refl) Hcomps Hname).
Qed.

Lemma under_join (p name : str) :
  p ≠ [] → startswith name "/"%py = false → under p (OsPath.join p name).
Proof.
  intros Hp Hname. right. unfold OsPath.join. rewrite Hname.
  destruct p as [|a p]; [done|]. cbn [truthy negb orb].
  destruct (endswith (a :: p) "/"%py); [by exists name|].
  exists name. by rewrite <- (assoc_L (++)).
Qed.

Lemma join_absolute (d x : str) :
  OsPath.isabs d = true → startswith x "/"%py = false →
  OsPath.isabs (OsPath.join d x) = true.
Proof.
  intros Hd Hx. unfold OsPath.isabs, OsPath.join in *. rewrite Hx.
  apply bool_decide_eq_true in Hd as [r ->].
  destruct (_ || _); apply bool_decide_eq_true; simpl; eexists; reflexivity.
Qed.

(** A name joined to an absolute path lies below that path, also after
    both are normalised. *)
Lemma key_child (w : World) (t name : str) :
  OsPath.isabs t = true → plain_name name →
  under (key w t) (key w (OsPath.join t name)).
Proof.
  intros Ht Hname. pose proof Hname as (Hs & Hne & _).
  assert (Hrel : startswith name "/"%py = false).
  { destruct name as [|c name]; [done|]. rewrite startswith_cons.
    apply bool_decide_false. intros ->. apply Hs. by left. }
  pose proof (join_absolute t name Ht Hrel) as Hj.
  unfold key, OsPath.abspath. rewrite Ht, Hj, (normpath_child _ _ Ht Hname).
  apply under_join; [|done].
  destruct (normpath_absolute t Ht) as (k & comps & Hk & _ & ->).
  by destruct Hk as [-> | ->].
Qed.

(** ** Loading [utils/util.py] *)

Lemma randint_bounds (raw : Z) : (0 ≤ 0 + raw `mod` (10000 - 0 + 1) ≤ 10000)%Z.
Proof.
  pose proof (Z.mod_pos_bound raw 10001 ltac:(lia)).
  change (10000 - 0 + 1)%Z with 10001%Z. lia.
Qed.

Lemma plain_numbered (pre suf : str) (n : Z) :
  slash ∉ pre → slash ∉ suf → 2 < length pre →
  plain_name ((pre ++ of_Z n) ++ suf).
Proof.
  intros Hpre Hsuf Hlen. split_and!.
  - rewrite !elem_of_app. intros [[H|H]|H]; [done| |done]. by apply of_Z_no_slash in H.
  - destruct pre; [simpl in Hlen; lia | done].
  - intros H. apply (f_equal length) in H. rewrite !length_app in H. simpl in H. lia.
  - intros H. apply (f_equal length) in H. rewrite !length_app in H. simpl in H. lia.
Qed.

Lemma WorkDir_enter_eval (t : WorkDir) (w : World) :
  OsPath.isabs (cwd w) = true →
  WorkDir_enter t w
  = match mkdir t w with
    | (inr _, w1) => (inr t, w1)
    | (inl e, w1) => (inl e, w1)
    end.
Proof.
  intros Hcwd. unfold WorkDir_enter, mbind, M_bind. rewrite (exists_eval _ _ Hcwd).
  cbv beta iota. rewrite !(mkdir_eval _ _ Hcwd).
  destruct (fs w !! key w (wd_src t)) as [[|c]|] eqn:Hk.
  - by rewrite bool_decide_true.
  - rewrite bool_decide_false by done. cbn [negb].
    by rewrite (mkdir_eval _ _ Hcwd), Hk.
  - rewrite bool_decide_false by done. cbn [negb].
    by rewrite (mkdir_eval _ _ Hcwd), Hk.
Qed.

(** Opening a file for appending and writing nothing loses no entry. *)
Lemma append_nothing_keeps (p : str) (w : World) :
  ∃ w', append_text p [] w = (inr tt, w') ∧ cwd w' = cwd w ∧ trace w' = trace w ∧
        ∀ k v, fs w !! k = Some v → fs w' !! k = Some v.
Proof.
  unfold append_text, mbind, M_bind, gets, modify. cbv beta iota.
  destruct (fs w !! key w p) as [[|c]|] eqn:Hk; eexists; (split; [reflexivity|]);
    split_and!; try done; cbn [fs with_fs]; intros k v Hkv.
  - destruct (decide (k = key w p)) as [->|Hne].
    + rewrite lookup_insert_eq, app_nil_r. congruence.
    + by rewrite lookup_insert_ne.
  - rewrite lookup_insert_ne; [done|]. intros <-. congruence.
Qed.


